(** * obsidian-chat: ingestion and retrieval pipeline

    A shallow embedding of the chunker ([app/services/chunker.py]), the
    OpenAI embedder ([app/services/embedder/openai_impl.py]), the vector
    store ([app/services/vectorstore.py]) and the vault scanner
    ([app/services/vault_manager.py]), with the properties the design
    document states about them.

    Python integers are [Z]. The text the chunker cuts is a list of
    characters of any type; ids, paths, hashes and stored contents are
    [string]. A raised exception is a [Raise] result. A [while] loop is a
    fuelled fixpoint that answers [None] when the fuel runs out before
    the loop condition turns false. *)

From Stdlib Require Import String Ascii ZArith QArith Lia Bool List Sorted.
Import ListNotations.

Local Open Scope Z_scope.

(** ** Python built-ins *)

Module Py.
Section Seq.
Context {A : Type}.

(** [len(l)] *)
Definition len (l : list A) : Z := Z.of_nat (List.length l).

(** The bound of a slice: a negative index counts from the end, and the
    result is clamped to [0, len]. *)
Definition clamp (n i : Z) : Z :=
  if i <? 0 then Z.max 0 (i + n) else Z.min i n.

(** [l[start:stop]] *)
Definition slice (l : list A) (start stop : Z) : list A :=
  let a := clamp (len l) start in
  let b := clamp (len l) stop in
  firstn (Z.to_nat (b - a)) (skipn (Z.to_nat a) l).

(** [l[i]]: a negative index counts from the end; [None] is IndexError. *)
Definition index (l : list A) (i : Z) : option A :=
  if i <? 0
  then if i + len l <? 0 then None else nth_error l (Z.to_nat (i + len l))
  else nth_error l (Z.to_nat i).

(** [l[i] = v]: [None] is IndexError. *)
Definition set_item (l : list A) (i : Z) (v : A) : option (list A) :=
  let j := if i <? 0 then i + len l else i in
  if (j <? 0) || (len l <=? j) then None
  else Some (firstn (Z.to_nat j) l ++ v :: skipn (S (Z.to_nat j)) l).

(** [x or d] on integers and on [None]. *)
Definition or_default (x : option Z) (d : Z) : Z :=
  match x with
  | Some v => if v =? 0 then d else v
  | None => d
  end.
End Seq.
End Py.

(** ** Exceptions *)

Inductive exn : Type :=
| ValueError (msg : string)
| FileNotFoundError (msg : string)
| OSError
| IndexError
| AssertionError.

Inductive result (A : Type) : Type :=
| Ok (a : A)
| Raise (e : exn).

Arguments Ok {A} a.
Arguments Raise {A} e.

Definition bind {A B : Type} (m : result A) (k : A -> result B) : result B :=
  match m with
  | Ok a => k a
  | Raise e => Raise e
  end.

Declare Scope py_scope.
Delimit Scope py_scope with py.
Notation "x <- m ;; k" := (bind m (fun x => k))
  (at level 61, m at next level, right associativity) : py_scope.

(** An embedding vector; Python floats are idealised as rationals. *)
Definition vector : Type := list Q.

(** [[0.0] * n] *)
Definition zeros (n : Z) : vector := repeat 0%Q (Z.to_nat n).

(** ** OpenAIEmbedder *)

Module OpenAIEmbedder.
Section WithProvider.

(** [str.isspace] on one character. *)
Variable isspace : ascii -> bool.

(** The truth value of [text.strip()]. *)
Definition strip_nonempty (text : string) : bool :=
  negb (forallb isspace (list_ascii_of_string text)).

(** The [input=] argument of [client.embeddings.create]. *)
Inductive request : Type :=
| Single (input : string)
| Batch (input : list string).

(** [response.data], each entry reduced to its [embedding]. *)
Definition response : Type := list vector.

(** The remote service: what its [n]-th call answers to a request;
    [None] is a call that raises. *)
Definition Provider : Type := nat -> request -> option response.

(** What an operation did to the outside world, in order. *)
Inductive event : Type :=
| Create (r : request)
| Sleep (seconds : Z).

Definition trace : Type := list event.

Definition is_create (e : event) : bool :=
  match e with Create _ => true | Sleep _ => false end.

Definition calls (tr : trace) : nat := length (filter is_create tr).

Variable provider : Provider.

(** [self.client.embeddings.create(input=..., model=self.model)] *)
Definition create (r : request) (tr : trace) : option response * trace :=
  (provider (calls tr) r, tr ++ [Create r]).

(** [time.sleep(seconds)] *)
Definition sleep (seconds : Z) (tr : trace) : trace := tr ++ [Sleep seconds].

Record OpenAIEmbedder : Type := mkEmbedder {
  embedding_dimension : Z
}.

(** [response.data[0].embedding]; [None] is the IndexError of an empty
    [data], caught like any failure of the call. *)
Definition first_embedding (r : option response) : option vector :=
  match r with
  | Some data => Py.index data 0
  | None => None
  end.

(** [OpenAIEmbedder.embed_text] *)
Definition embed_text (self : OpenAIEmbedder) (text : string) (tr : trace)
    : vector * trace :=
  if negb (strip_nonempty text) then
    (zeros (embedding_dimension self), tr)
  else
    let '(r, tr) := create (Single text) tr in
    match first_embedding r with
    | Some v => (v, tr)
    | None =>
        let tr := sleep 2 tr in
        let '(r, tr) := create (Single text) tr in
        match first_embedding r with
        | Some v => (v, tr)
        | None => (zeros (embedding_dimension self), tr)
        end
    end.

(** The loop that keeps the non-blank texts and their positions. *)
Fixpoint non_empty_from (i : Z) (texts : list string)
    : list string * list Z :=
  match texts with
  | [] => ([], [])
  | text :: rest =>
      let '(non_empty_texts, indices) := non_empty_from (i + 1) rest in
      if strip_nonempty text
      then (text :: non_empty_texts, i :: indices)
      else (non_empty_texts, indices)
  end.

(** [[[0.0] * self.embedding_dimension for _ in texts]] *)
Definition zero_vectors (self : OpenAIEmbedder) (texts : list string)
    : list vector :=
  map (fun _ => zeros (embedding_dimension self)) texts.

(** [for i, idx in enumerate(indices): results[idx] = response.data[i].embedding];
    [None] is an IndexError. *)
Fixpoint fill (results : list vector) (i : Z) (indices : list Z)
    (data : response) : option (list vector) :=
  match indices with
  | [] => Some results
  | idx :: rest =>
      match Py.index data i with
      | None => None
      | Some v =>
          match Py.set_item results idx v with
          | None => None
          | Some results' => fill results' (i + 1) rest data
          end
      end
  end.

(** [OpenAIEmbedder.embed_batch] *)
Definition embed_batch (self : OpenAIEmbedder) (texts : list string)
    (tr : trace) : list vector * trace :=
  match texts with
  | [] => ([], tr)
  | _ =>
      let '(non_empty_texts, indices) := non_empty_from 0 texts in
      match non_empty_texts with
      | [] => (zero_vectors self texts, tr)
      | _ =>
          let '(r, tr) := create (Batch non_empty_texts) tr in
          match r with
          | None => (zero_vectors self texts, tr)
          | Some data =>
              match fill (zero_vectors self texts) 0 indices data with
              | Some results => (results, tr)
              | None => (zero_vectors self texts, tr)
              end
          end
      end
  end.

(** [OpenAIEmbedder.get_embedding_dimension] *)
Definition get_embedding_dimension (self : OpenAIEmbedder) : Z :=
  embedding_dimension self.

(** The policy of the design document, read on a batch: when the first
    provider call of the operation fails, the operation calls again
    exactly once, after a pause. *)
Definition retried_once (tr0 tr : trace) : Prop :=
  exists r seconds, tr = tr0 ++ [Create r; Sleep seconds; Create r].

End WithProvider.

(** [str.isspace] on the ASCII range. *)
Definition ascii_isspace (c : ascii) : bool :=
  let n := nat_of_ascii c in
  ((9 <=? n) && (n <=? 13) || (28 <=? n) && (n <=? 32))%nat.

(** A provider whose first call fails and whose later calls answer one
    vector per text: its length. *)
Definition flaky : Provider :=
  fun n r =>
    match n with
    | O => None
    | S _ =>
        match r with
        | Single text => Some [[inject_Z (Z.of_nat (String.length text))]]
        | Batch texts =>
            Some (map (fun t => [inject_Z (Z.of_nat (String.length t))])
                      texts)
        end
    end.

(** A provider that is down: every call fails. *)
Definition down : Provider := fun _ _ => None.

End OpenAIEmbedder.

(** ** Chunker *)

Module Chunker.
Section WithChar.
Context {char : Type}.

(** [hashlib.sha256(content.encode('utf-8')).hexdigest()] *)
Variable _calculate_hash : list char -> string.

(** The attributes a [Chunk(...)] call of the chunker sets. *)
Record Chunk : Type := mkChunk {
  document_id : string;
  content : list char;
  sequence : Z;
  chunk_hash : string
}.

Record Chunker : Type := mkChunker {
  chunk_size : Z;
  chunk_overlap : Z
}.

(** [Chunker.__init__] *)
Definition init (CHUNK_SIZE CHUNK_OVERLAP : Z)
    (chunk_size chunk_overlap : option Z) : Chunker :=
  {| chunk_size := Py.or_default chunk_size CHUNK_SIZE;
     chunk_overlap := Py.or_default chunk_overlap CHUNK_OVERLAP |}.

(** The [while start < len(text)] loop of [_create_chunks]. *)
Fixpoint create_chunks_loop (fuel : nat) (self : Chunker)
    (text : list char) (doc : string)
    (start sequence : Z) (chunks : list Chunk) : option (list Chunk) :=
  match fuel with
  | O => None
  | S fuel' =>
      if start <? Py.len text then
        let end_ := Z.min (start + chunk_size self) (Py.len text) in
        let '(start, end_) :=
          if 0 <? start
          then (start - chunk_overlap self,
                Z.min (start - chunk_overlap self + chunk_size self)
                      (Py.len text))
          else (start, end_) in
        let chunk_text := Py.slice text start end_ in
        let chunk_hash := _calculate_hash chunk_text in
        let chunk := {| document_id := doc;
                        content := chunk_text;
                        sequence := sequence;
                        chunk_hash := chunk_hash |} in
        create_chunks_loop fuel' self text doc end_ (sequence + 1)
                           (chunks ++ [chunk])
      else Some chunks
  end.

(** [Chunker._create_chunks] *)
Definition _create_chunks (fuel : nat) (self : Chunker)
    (text : list char) (doc : string) : option (list Chunk) :=
  if Py.len text <=? chunk_size self then
    Some [ {| document_id := doc;
              content := text;
              sequence := 0;
              chunk_hash := _calculate_hash text |} ]
  else create_chunks_loop fuel self text doc 0 0 [].

(** *** The sliding windows, as the design document words them *)

(** The windows that follow a window ending at [prev_end]: none once a
    window has reached [L]; otherwise the next one starts at
    [prev_end - V] and ends at [min (start + S) L]. *)
Inductive windows_after (S V L : Z) : Z -> list (Z * Z) -> Prop :=
| wa_stop : forall prev_end,
    L <= prev_end -> windows_after S V L prev_end []
| wa_next : forall prev_end ws,
    prev_end < L ->
    windows_after S V L (Z.min (prev_end - V + S) L) ws ->
    windows_after S V L prev_end
      ((prev_end - V, Z.min (prev_end - V + S) L) :: ws).

(** The first window is [[0, min S L)]. *)
Definition sliding_windows (S V L : Z) (ws : list (Z * Z)) : Prop :=
  exists rest,
    ws = (0, Z.min S L) :: rest /\ windows_after S V L (Z.min S L) rest.

(** The chunk of a window, and the chunks of a list of windows numbered
    from [n] on. *)
Definition chunk_of_window (text : list char) (doc : string)
    (n : Z) (w : Z * Z) : Chunk :=
  {| document_id := doc;
     content := Py.slice text (fst w) (snd w);
     sequence := n;
     chunk_hash := _calculate_hash (Py.slice text (fst w) (snd w)) |}.

Fixpoint chunks_of_windows (text : list char) (doc : string)
    (n : Z) (ws : list (Z * Z)) : list Chunk :=
  match ws with
  | [] => []
  | w :: ws' =>
      chunk_of_window text doc n w :: chunks_of_windows text doc (n + 1) ws'
  end.

(** Reassembly respecting the overlap: the first chunk whole, every later
    chunk without its first [V] characters. *)
Definition reassemble (V : Z) (chunks : list Chunk) : list char :=
  match chunks with
  | [] => []
  | c :: cs =>
      content c ++ flat_map (fun c' => skipn (Z.to_nat V) (content c')) cs
  end.

(** A window the loop cuts: inside the text, longer than the overlap and
    no longer than the chunk size. *)
Definition window_ok (S V L : Z) (w : Z * Z) : Prop :=
  0 <= fst w /\ fst w + V < snd w /\ snd w <= fst w + S /\ snd w <= L.

End WithChar.

(** Ten characters cut with size 4 and overlap 1. *)
Definition demo_chunk_hash (t : list ascii) : string := string_of_list_ascii t.
Definition demo_chunker : Chunker := mkChunker 4 1.
Definition demo_text : list ascii := list_ascii_of_string "abcdefghij".

End Chunker.

(** ** Database rows ([app/db/models.py]) *)

Module Vault.
Record t : Type := mk {
  id : string;
  name : string;
  path : string;
  is_indexed : bool
}.
End Vault.

Module Document.
Record t : Type := mk {
  id : string;
  vault_id : string;
  path : string;
  filename : string;
  content_hash : string
}.
End Document.

Module Chunk.
Record t : Type := mk {
  id : string;
  document_id : string;
  content : string;
  sequence : Z;
  chunk_hash : string;
  embedding_stored : bool
}.
End Chunk.

(** The three tables, each in row order. *)
Record DB : Type := mkDB {
  vaults : list Vault.t;
  documents : list Document.t;
  chunks : list Chunk.t
}.

(** [db.query(Vault).filter(Vault.id == vault_id).first()] *)
Definition query_vault (db : DB) (vault_id : string) : option Vault.t :=
  find (fun v => String.eqb (Vault.id v) vault_id) (vaults db).

(** [db.query(Document).filter(Document.id == document_id).first()] *)
Definition query_document (db : DB) (document_id : string)
    : option Document.t :=
  find (fun d => String.eqb (Document.id d) document_id) (documents db).

(** The join of a chunk with the documents of a vault: document ids are
    a primary key, so a chunk joins at most one document. *)
Definition joins_vault (db : DB) (vault_id : string) (c : Chunk.t) : bool :=
  existsb (fun d => String.eqb (Document.id d) (Chunk.document_id c)
                    && String.eqb (Document.vault_id d) vault_id)
          (documents db).

(** [db.query(Chunk).join(Document).filter(Document.vault_id == vault_id,
    Chunk.embedding_stored == flag)]; without an [order_by] the rows come
    in table order. *)
Definition query_chunks (db : DB) (vault_id : string) (flag : bool)
    : list Chunk.t :=
  filter
    (fun c => joins_vault db vault_id c
              && Bool.eqb (Chunk.embedding_stored c) flag)
    (chunks db).

(** [.order_by(Chunk.id)]: a stable insertion sort on the id strings. *)
Fixpoint insert_by_id (c : Chunk.t) (l : list Chunk.t) : list Chunk.t :=
  match l with
  | [] => [c]
  | h :: t =>
      if String.leb (Chunk.id c) (Chunk.id h) then c :: l
      else h :: insert_by_id c t
  end.

Definition order_by_id (l : list Chunk.t) : list Chunk.t :=
  fold_right insert_by_id [] l.

(** ** The faiss library *)

(** A model of [faiss.IndexFlatL2] after the library's documentation: the
    index stores its vectors in the order they were added; a search
    returns, for one query, [k] distances and [k] labels, nearest first,
    and fills the slots for which there is no neighbour with the largest
    float and the label -1. *)
Module Faiss.

Record Index : Type := mkIndex {
  d : Z;
  xb : list vector
}.

Definition ntotal (index : Index) : Z := Py.len (xb index).

(** [faiss.IndexFlatL2(dimension)] *)
Definition IndexFlatL2 (dimension : Z) : Index :=
  {| d := dimension; xb := [] |}.

(** [index.add(np.array(embeddings, dtype=np.float32))]: the array must
    be a non-empty matrix with [d] columns. *)
Definition add (index : Index) (x : list vector) : result Index :=
  match x with
  | [] => Raise AssertionError
  | _ =>
      if forallb (fun v => Py.len v =? d index) x
      then Ok {| d := d index; xb := xb index ++ x |}
      else Raise AssertionError
  end.

Definition FLT_MAX : Q := 340282346638528859811704183484516925440 # 1.

Definition l2sqr (q x : vector) : Q :=
  fold_right (fun p acc => ((fst p - snd p) * (fst p - snd p) + acc)%Q)
             0%Q (combine q x).

Fixpoint score (q : vector) (i : Z) (xs : list vector) : list (Q * Z) :=
  match xs with
  | [] => []
  | x :: xs' => (l2sqr q x, i) :: score q (i + 1) xs'
  end.

Definition Qlt_bool (a b : Q) : bool := negb (Qle_bool b a).

Fixpoint insert_by_distance (p : Q * Z) (l : list (Q * Z))
    : list (Q * Z) :=
  match l with
  | [] => [p]
  | h :: t =>
      if Qle_bool (fst p) (fst h) then p :: l
      else h :: insert_by_distance p t
  end.

Definition sort_by_distance (l : list (Q * Z)) : list (Q * Z) :=
  fold_right insert_by_distance [] l.

(** [D, I = index.search(np.array([query]), k)], reduced to [D[0]] and
    [I[0]]. *)
Definition search (index : Index) (query : vector) (k : Z)
    : result (list Q * list Z) :=
  if k <=? 0 then Raise AssertionError
  else if negb (Py.len query =? d index) then Raise AssertionError
  else
    let found :=
      firstn (Z.to_nat k)
        (sort_by_distance
           (filter (fun p => Qlt_bool (fst p) FLT_MAX)
                   (score query 0 (xb index)))) in
    let padded :=
      found ++ repeat (FLT_MAX, -1) (Z.to_nat k - length found) in
    Ok (map fst padded, map snd padded).

(** Nearer first. *)
Definition by_distance (a b : Q * Z) : Prop := (fst a <= fst b)%Q.

End Faiss.

(** ** Embedder interface ([app/services/embedder/base.py]) *)

(** What the embedder in use answers during one operation of the vector
    store; [Raise] is an exception that leaves the embedder. *)
Class BaseEmbedder : Type := mkBaseEmbedder {
  embed_text : string -> result vector;
  embed_batch : list string -> result (list vector);
  get_embedding_dimension : Z
}.

(** The OpenAI embedder behind this interface, every operation starting
    from the trace [tr]: its methods catch what the provider raises. *)
Definition openai_embedder (isspace : ascii -> bool)
    (provider : OpenAIEmbedder.Provider)
    (self : OpenAIEmbedder.OpenAIEmbedder) (tr : OpenAIEmbedder.trace)
    : BaseEmbedder :=
  {| embed_text := fun text =>
       Ok (fst (OpenAIEmbedder.embed_text isspace provider self text tr));
     embed_batch := fun texts =>
       Ok (fst (OpenAIEmbedder.embed_batch isspace provider self texts tr));
     get_embedding_dimension :=
       OpenAIEmbedder.get_embedding_dimension self |}.

(** ** VectorStore *)

Module VectorStore.

(** [os.path.join(a, b)] on POSIX paths. *)
Definition path_join (a b : string) : string :=
  if String.prefix "/" b then b
  else if String.eqb a "" then b
  else match String.get (String.length a - 1) a with
       | Some "/"%char => a ++ b
       | _ => a ++ "/" ++ b
       end.

(** The metadata rows and the index files of the vector store
    directory, by path. *)
Record World : Type := mkWorld {
  db : DB;
  index_files : string -> option Faiss.Index
}.

(** [faiss.write_index(index, index_path)] *)
Definition write_index (w : World) (index_path : string)
    (index : Faiss.Index) : World :=
  {| db := db w;
     index_files := fun p => if String.eqb p index_path then Some index
                             else index_files w p |}.

Record IndexStats : Type := mkIndexStats {
  chunks_processed : Z;
  vectors_added : Z;
  status : string
}.

Record SearchResult : Type := mkSearchResult {
  chunk_id : string;
  document_id : string;
  document_path : string;
  document_name : string;
  content : string;
  sequence : Z
}.

(** [chunk = db.query(Chunk).filter(Chunk.id == chunk_id).first();
    if chunk: chunk.embedding_stored = True] *)
Fixpoint mark_embedded (chunk_id : string) (l : list Chunk.t)
    : list Chunk.t :=
  match l with
  | [] => []
  | c :: rest =>
      if String.eqb (Chunk.id c) chunk_id
      then Chunk.mk (Chunk.id c) (Chunk.document_id c) (Chunk.content c)
                    (Chunk.sequence c) (Chunk.chunk_hash c) true :: rest
      else c :: mark_embedded chunk_id rest
  end.

Definition mark_all_embedded (chunk_ids : list string) (database : DB)
    : DB :=
  {| vaults := vaults database;
     documents := documents database;
     chunks := fold_left (fun l i => mark_embedded i l) chunk_ids
                         (chunks database) |}.

Section WithEmbedder.
Context {embedder : BaseEmbedder}.
Variable vector_store_path : string.

(** [VectorStore.get_vault_index_path] *)
Definition get_vault_index_path (vault_id : string) : string :=
  path_join vector_store_path (vault_id ++ ".index").

(** [VectorStore.create_or_update_index] *)
Definition create_or_update_index (w : World) (vault_id : string)
    : result (IndexStats * World) :=
  match query_vault (db w) vault_id with
  | None => Raise (ValueError ("Vault with ID '" ++ vault_id ++ "' not found"))
  | Some _ =>
      let chunks := query_chunks (db w) vault_id false in
      match chunks with
      | [] => Ok ({| chunks_processed := 0;
                     vectors_added := 0;
                     status := "No new chunks to process" |}, w)
      | _ =>
          let chunk_contents := map Chunk.content chunks in
          let chunk_ids := map Chunk.id chunks in
          (embeddings <- embed_batch chunk_contents ;;
           let index_path := get_vault_index_path vault_id in
           let dimension := get_embedding_dimension in
           index <- match index_files w index_path with
                    | Some index => Faiss.add index embeddings
                    | None => Faiss.add (Faiss.IndexFlatL2 dimension) embeddings
                    end ;;
           let w := write_index w index_path index in
           let w := {| db := mark_all_embedded chunk_ids (db w);
                       index_files := index_files w |} in
           Ok ({| chunks_processed := Py.len chunks;
                  vectors_added := Py.len embeddings;
                  status := "Index updated successfully" |}, w))%py
      end
  end.

(** The dictionary [search] appends for a chunk. *)
Definition make_result (database : DB) (chunk : Chunk.t) : SearchResult :=
  let document := query_document database (Chunk.document_id chunk) in
  {| chunk_id := Chunk.id chunk;
     document_id := Chunk.document_id chunk;
     document_path := match document with
                      | Some doc => Document.path doc
                      | None => "Unknown"
                      end;
     document_name := match document with
                      | Some doc => Document.filename doc
                      | None => "Unknown"
                      end;
     content := Chunk.content chunk;
     sequence := Chunk.sequence chunk |}.

(** The chunk behind an entry of the answer. *)
Definition entry_of (database : DB) (all_chunks : list Chunk.t)
    (r : SearchResult) (idx : Z) : Prop :=
  exists chunk,
    Py.index all_chunks idx = Some chunk /\
    r = make_result database chunk.

(** The [for idx in I[0]] loop of [search]. *)
Fixpoint resolve (database : DB) (all_chunks : list Chunk.t)
    (I0 : list Z) (results : list SearchResult)
    : result (list SearchResult) :=
  match I0 with
  | [] => Ok results
  | idx :: rest =>
      if idx <? Py.len all_chunks then
        match Py.index all_chunks idx with
        | None => Raise IndexError
        | Some chunk =>
            resolve database all_chunks rest
                    (results ++ [make_result database chunk])
        end
      else resolve database all_chunks rest results
  end.

(** [VectorStore.search] *)
Definition search (w : World) (vault_id : string) (query : string)
    (top_k : Z) : result (list SearchResult) :=
  let index_path := get_vault_index_path vault_id in
  match index_files w index_path with
  | None =>
      Raise (ValueError ("No index found for vault with ID '" ++ vault_id ++ "'"))
  | Some index =>
      (query_embedding <- embed_text query ;;
       DI <- Faiss.search index query_embedding top_k ;;
       let I0 := snd DI in
       let all_chunks := order_by_id (query_chunks (db w) vault_id true) in
       match all_chunks with
       | [] => Ok []
       | _ => if Py.len I0 =? 0 then Ok []
              else resolve (db w) all_chunks I0 []
       end)%py
  end.

(** The data model's rule for the embedded flag, read on one vault: a
    chunk is marked embedded only after its vector has been written
    to the index file of its vault, so a vault with an embedded chunk
    has an index file with at least one vector. *)
Definition indexed_before_embedded (w : World) (vault_id : string) : Prop :=
  query_chunks (db w) vault_id true <> [] ->
  exists index,
    index_files w (get_vault_index_path vault_id) = Some index /\
    0 < Faiss.ntotal index.

End WithEmbedder.

(** An embedder that answers the length of a text, in one dimension. *)
Definition length_vector (text : string) : vector :=
  [inject_Z (Z.of_nat (String.length text))].

Definition length_embedder : BaseEmbedder :=
  {| embed_text := fun text => Ok (length_vector text);
     embed_batch := fun texts => Ok (map length_vector texts);
     get_embedding_dimension := 1 |}.

Definition demo_vaults : list Vault.t := [ Vault.mk "v1" "notes" "/v" true ].

Definition demo_documents : list Document.t :=
  [ Document.mk "d1" "v1" "first.md" "first.md" "h1";
    Document.mk "d2" "v1" "second.md" "second.md" "h2" ].

(** The chunk embedded first has the id "b", the chunk embedded second
    the id "a". *)
Definition chunk_b (embedded : bool) : Chunk.t :=
  Chunk.mk "b" "d1" "xx" 0 "hb" embedded.

Definition chunk_a (embedded : bool) : Chunk.t :=
  Chunk.mk "a" "d2" "yyyyy" 0 "ha" embedded.

Definition no_files : string -> option Faiss.Index := fun _ => None.

(** One pending chunk and no index file. *)
Definition world_0 : World :=
  {| db := mkDB demo_vaults demo_documents [chunk_b false];
     index_files := no_files |}.

(** The world after a document has been chunked: one more pending row. *)
Definition with_chunk (w : World) (c : Chunk.t) : World :=
  {| db := mkDB (vaults (db w)) (documents (db w)) (chunks (db w) ++ [c]);
     index_files := index_files w |}.

(** An index file without vectors next to an embedded chunk. *)
Definition world_empty_index : World :=
  {| db := mkDB demo_vaults demo_documents [chunk_b true];
     index_files := fun p => if String.eqb p "/store/v1.index"
                             then Some (Faiss.IndexFlatL2 1) else None |}.


(** One vector, the one of chunk "b", and the chunk embedded. *)
Definition world_one_vector : World :=
  {| db := mkDB demo_vaults demo_documents [chunk_b true];
     index_files := fun p => if String.eqb p "/store/v1.index"
                             then Some (Faiss.mkIndex 1 [[2%Q]]) else None |}.

(** The distance can be read off the entries of an answer. *)
Definition carries_distance (distance_of : SearchResult -> Q)
    (w : World) (vault_id query : string) (top_k : Z) : Prop :=
  exists results index query_embedding D I0,
    @VectorStore.search length_embedder "/store" w vault_id query top_k
      = Ok results /\
    index_files w (get_vault_index_path "/store" vault_id) = Some index /\
    @embed_text length_embedder query = Ok query_embedding /\
    Faiss.search index query_embedding top_k = Ok (D, I0) /\
    Forall2 (fun r dist => (distance_of r == dist)%Q) results D.

End VectorStore.

(** ** FileParser and VaultManager *)

Module VaultManager.

(** A path that [vault_path.glob("**/*.md")] yields, with what pathlib
    derives from it: [str(file_path)], [str(file_path.relative_to(vault_path))]
    and [file_path.name]. *)
Record MdPath : Type := mkMdPath {
  absolute_path : string;
  relative_path : string;
  name : string
}.

(** The file system as the scan sees it. [read_text] is [None] when
    opening or decoding the file raises. *)
Record FileSystem : Type := mkFileSystem {
  path_exists : string -> bool;
  glob_md : string -> list MdPath;
  read_text : string -> option string
}.

Record Stats : Type := mkStats {
  total_files : Z;
  new_files : Z;
  updated_files : Z;
  unchanged_files : Z;
  errors : Z
}.

Section WithHash.

(** [hashlib.sha256(content.encode('utf-8')).hexdigest()] *)
Variable _calculate_hash : string -> string.

(** [str(uuid.uuid4())], by draw number. *)
Variable uuid4 : nat -> string.

(** [FileParser.parse_file] *)
Definition parse_file (fs : FileSystem) (file_path : string)
    : result (string * string) :=
  if negb (path_exists fs file_path) then
    Raise (FileNotFoundError ("File not found: " ++ file_path))
  else
    match read_text fs file_path with
    | None => Raise OSError
    | Some content => Ok (content, _calculate_hash content)
    end.

(** The rows of the database, the number of ids drawn so far and the
    file system. *)
Record World : Type := mkWorld {
  db : DB;
  drawn : nat;
  fs : FileSystem
}.

(** [VaultManager.get_vault] *)
Definition get_vault (w : World) (vault_id : string) : option Vault.t :=
  query_vault (db w) vault_id.

(** A dictionary from paths to documents: [d[k] = v] and [d.get(k)]. *)
Fixpoint dict_set (k : string) (v : Document.t)
    (d : list (string * Document.t)) : list (string * Document.t) :=
  match d with
  | [] => [(k, v)]
  | (k', v') :: rest =>
      if String.eqb k' k then (k, v) :: rest
      else (k', v') :: dict_set k v rest
  end.

Definition dict_get (k : string) (d : list (string * Document.t))
    : option Document.t :=
  match find (fun kv => String.eqb (fst kv) k) d with
  | Some kv => Some (snd kv)
  | None => None
  end.

(** [{doc.path: doc for doc in existing_docs}] *)
Definition existing_paths_of (existing_docs : list Document.t)
    : list (string * Document.t) :=
  fold_left (fun d doc => dict_set (Document.path doc) doc d)
            existing_docs [].

(** [doc.content_hash = content_hash] on the row with this id. *)
Fixpoint set_content_hash (doc_id content_hash : string)
    (docs : list Document.t) : list Document.t :=
  match docs with
  | [] => []
  | doc :: rest =>
      if String.eqb (Document.id doc) doc_id
      then Document.mk (Document.id doc) (Document.vault_id doc)
                       (Document.path doc) (Document.filename doc)
                       content_hash :: rest
      else doc :: set_content_hash doc_id content_hash rest
  end.

Definition with_documents (w : World) (docs : list Document.t) : World :=
  {| db := {| vaults := vaults (db w);
              documents := docs;
              chunks := chunks (db w) |};
     drawn := drawn w;
     fs := fs w |}.

(** [db.add(new_doc)] *)
Definition add_document (w : World) (vault_id : string) (file : MdPath)
    (content_hash : string) : World :=
  {| db := {| vaults := vaults (db w);
              documents := documents (db w) ++
                [ Document.mk (uuid4 (drawn w)) vault_id
                              (relative_path file) (name file)
                              content_hash ];
              chunks := chunks (db w) |};
     drawn := S (drawn w);
     fs := fs w |}.

Definition bump_new (s : Stats) : Stats :=
  mkStats (total_files s) (new_files s + 1) (updated_files s)
          (unchanged_files s) (errors s).
Definition bump_updated (s : Stats) : Stats :=
  mkStats (total_files s) (new_files s) (updated_files s + 1)
          (unchanged_files s) (errors s).
Definition bump_unchanged (s : Stats) : Stats :=
  mkStats (total_files s) (new_files s) (updated_files s)
          (unchanged_files s + 1) (errors s).
Definition bump_errors (s : Stats) : Stats :=
  mkStats (total_files s) (new_files s) (updated_files s)
          (unchanged_files s) (errors s + 1).

(** The body of [for file_path in markdown_files], with its
    [try ... except Exception]. The documents of [existing_paths] are
    the session's own objects: an assignment to [doc.content_hash]
    shows in the dictionary and in the row of the same id. *)
Definition scan_file (vault_id : string)
    (st : Stats * list (string * Document.t) * World) (file : MdPath)
    : Stats * list (string * Document.t) * World :=
  let '(stats, existing_paths, w) := st in
  match parse_file (fs w) (absolute_path file) with
  | Raise _ => (bump_errors stats, existing_paths, w)
  | Ok (_, content_hash) =>
      match dict_get (relative_path file) existing_paths with
      | Some doc =>
          if negb (String.eqb (Document.content_hash doc) content_hash)
          then
            let doc' :=
              Document.mk (Document.id doc) (Document.vault_id doc)
                          (Document.path doc) (Document.filename doc)
                          content_hash in
            (bump_updated stats,
             dict_set (relative_path file) doc' existing_paths,
             with_documents w
               (set_content_hash (Document.id doc) content_hash
                                 (documents (db w))))
          else (bump_unchanged stats, existing_paths, w)
      | None =>
          (bump_new stats, existing_paths,
           add_document w vault_id file content_hash)
      end
  end.

(** [vault_in_session.is_indexed = True] on the first vault with this
    id. *)
Fixpoint set_indexed (vault_id : string) (l : list Vault.t)
    : list Vault.t :=
  match l with
  | [] => []
  | v :: rest =>
      if String.eqb (Vault.id v) vault_id
      then Vault.mk (Vault.id v) (Vault.name v) (Vault.path v) true :: rest
      else v :: set_indexed vault_id rest
  end.

(** [VaultManager.scan_vault] *)
Definition scan_vault (w : World) (vault_id : string)
    : result (Stats * World) :=
  match get_vault w vault_id with
  | None => Raise (ValueError ("Vault with ID '" ++ vault_id ++ "' not found"))
  | Some vault =>
      if negb (path_exists (fs w) (Vault.path vault)) then
        Raise (ValueError ("Vault path '" ++ Vault.path vault
                           ++ "' does not exist"))
      else
        let stats := mkStats 0 0 0 0 0 in
        let markdown_files := glob_md (fs w) (Vault.path vault) in
        let stats := mkStats (Py.len markdown_files) (new_files stats)
                             (updated_files stats) (unchanged_files stats)
                             (errors stats) in
        let vault_in_session := query_vault (db w) vault_id in
        let existing_docs :=
          filter (fun doc => String.eqb (Document.vault_id doc) vault_id)
                 (documents (db w)) in
        let existing_paths := existing_paths_of existing_docs in
        let '(stats, _, w) :=
          fold_left (scan_file vault_id) markdown_files
                    (stats, existing_paths, w) in
        let w :=
          match vault_in_session with
          | Some _ =>
              {| db := {| vaults := set_indexed vault_id (vaults (db w));
                          documents := documents (db w);
                          chunks := chunks (db w) |};
                 drawn := drawn w;
                 fs := fs w |}
          | None => w
          end in
        Ok (stats, w)
  end.

(** The category a file is counted in. *)
Inductive category : Type := New | Updated | Unchanged | Error.

Definition category_eqb (a b : category) : bool :=
  match a, b with
  | New, New | Updated, Updated | Unchanged, Unchanged | Error, Error => true
  | _, _ => false
  end.

Definition count (c : category) (l : list category) : Z :=
  Py.len (filter (category_eqb c) l).

(** The file cannot be read or parsed. *)
Definition fails (fsys : FileSystem) (file : MdPath) : Prop :=
  exists e, parse_file fsys (absolute_path file) = Raise e.

(** The counters after adding the files of the categories [cats]. *)
Definition add_counts (s : Stats) (cats : list category) : Stats :=
  mkStats (total_files s)
          (new_files s + count New cats)
          (updated_files s + count Updated cats)
          (unchanged_files s + count Unchanged cats)
          (errors s + count Error cats).

End WithHash.

(** A vault with one new file, one changed file, one unchanged file and
    one file that cannot be read. *)
Definition demo_content_hash (content : string) : string := ("#" ++ content)%string.

Definition demo_uuid4 (n : nat) : string :=
  String (ascii_of_nat (65 + n)) "-new".

Definition demo_fs : FileSystem :=
  {| path_exists := fun p => negb (String.eqb p "/v/gone.md");
     glob_md := fun root =>
       if String.eqb root "/v" then
         [ mkMdPath "/v/a.md" "a.md" "a.md";
           mkMdPath "/v/b.md" "b.md" "b.md";
           mkMdPath "/v/gone.md" "gone.md" "gone.md";
           mkMdPath "/v/sub/c.md" "sub/c.md" "c.md" ]
       else [];
     read_text := fun p =>
       if String.eqb p "/v/a.md" then Some "alpha"%string
       else if String.eqb p "/v/b.md" then Some "beta"%string
       else if String.eqb p "/v/sub/c.md" then Some "gamma"%string
       else None |}.

Definition demo_world : World :=
  {| db := {| vaults := [ Vault.mk "v1" "notes" "/v" false ];
              documents :=
                [ Document.mk "d1" "v1" "a.md" "a.md" "#alpha";
                  Document.mk "d2" "v1" "b.md" "b.md" "#old" ];
              chunks := [] |};
     drawn := 0;
     fs := demo_fs |}.

End VaultManager.

(** ** Chunker.process_document *)

Module ChunkerStore.
Import Chunker.

(** Consecutive chunks share their overlap: the last [V] characters of
    a chunk are the first [V] characters of the next one. *)
Fixpoint overlaps {char : Type} (V : Z) (chunks : list (@Chunk char)) : Prop :=
  match chunks with
  | c1 :: ((c2 :: _) as rest) =>
      Py.slice (content c1) (Py.len (content c1) - V) (Py.len (content c1))
        = Py.slice (content c2) 0 V
      /\ overlaps V rest
  | _ => True
  end.

(** How a call ends: with a value, with one of the exceptions above, with
    the AttributeError of [None.path], or never (the fuel of the chunking
    loop ran out). *)
Inductive outcome (A : Type) : Type :=
| Returns (a : A)
| Raises (e : exn)
| RaisesAttributeError
| Diverges.

Arguments Returns {A} a.
Arguments Raises {A} e.
Arguments RaisesAttributeError {A}.
Arguments Diverges {A}.

Section WithHash.

(** [hashlib.sha256(content.encode('utf-8')).hexdigest()] *)
Variable _calculate_hash : list ascii -> string.

(** [str(uuid.uuid4())], by draw number. *)
Variable uuid4 : nat -> string.

(** [db.add_all(chunks); db.flush()]: every chunk becomes a row with a
    fresh id and the column default [embedding_stored = False]. *)
Fixpoint flush (n : nat) (chunks : list (@Chunk ascii)) : list Chunk.t :=
  match chunks with
  | [] => []
  | c :: rest =>
      Chunk.mk (uuid4 n) (document_id c) (string_of_list_ascii (content c))
               (sequence c) (chunk_hash c) false
      :: flush (S n) rest
  end.

(** [db.query(Chunk).filter(Chunk.document_id == document_id).delete()] *)
Definition delete_chunks (document_id : string) (l : list Chunk.t)
    : list Chunk.t :=
  filter (fun c => negb (String.eqb (Chunk.document_id c) document_id)) l.

(** The path [process_document] opens. *)
Definition full_path (vault : Vault.t) (document : Document.t) : string :=
  let doc_path := Document.path document in
  if String.prefix "/" doc_path
  then (Vault.path vault ++ doc_path)%string
  else (Vault.path vault ++ "/" ++ doc_path)%string.

(** The stored chunks put together again: the first one whole, every
    later one without its first [V] characters. *)
Definition reassemble_rows (V : Z) (rows : list Chunk.t) : string :=
  match rows with
  | [] => EmptyString
  | r :: rest =>
      string_of_list_ascii
        (list_ascii_of_string (Chunk.content r) ++
         flat_map (fun r' => skipn (Z.to_nat V)
                               (list_ascii_of_string (Chunk.content r')))
                  rest)
  end.

(** [Chunker.process_document] *)
Definition process_document (fuel : nat) (self : Chunker)
    (w : VaultManager.World) (document_id : string)
    : outcome (list Chunk.t * VaultManager.World) :=
  let database := VaultManager.db w in
  match query_document database document_id with
  | None =>
      Raises (ValueError ("Document with ID '" ++ document_id ++ "' not found"))
  | Some document =>
      match query_vault database (Document.vault_id document) with
      | None => RaisesAttributeError
      | Some vault =>
          match VaultManager.read_text (VaultManager.fs w)
                                       (full_path vault document) with
          | None => Raises OSError
          | Some content =>
              let kept := delete_chunks document_id (chunks database) in
              match _create_chunks _calculate_hash fuel self
                      (list_ascii_of_string content) document_id with
              | None => Diverges
              | Some chunks =>
                  let rows := flush (VaultManager.drawn w) chunks in
                  Returns
                    (rows,
                     {| VaultManager.db :=
                          {| vaults := vaults database;
                             documents := documents database;
                             chunks := kept ++ rows |};
                        VaultManager.drawn :=
                          (VaultManager.drawn w + length chunks)%nat;
                        VaultManager.fs := VaultManager.fs w |})
              end
          end
      end
  end.

End WithHash.

(** The vault of [VaultManager.demo_world] with stored chunks: an
    embedded one of document "d1" and one of document "d2". *)
Definition demo_world : VaultManager.World :=
  {| VaultManager.db :=
       {| vaults := vaults (VaultManager.db VaultManager.demo_world);
          documents := documents (VaultManager.db VaultManager.demo_world);
          chunks := [ Chunk.mk "c0" "d1" "old text" 0 "h0" true;
                      Chunk.mk "c1" "d2" "other" 0 "h1" true ] |};
     VaultManager.drawn := 0;
     VaultManager.fs := VaultManager.demo_fs |}.

(** The rows that processing "d1" (file content "alpha") with size 4
    and overlap 1 stores, and the world afterwards. *)
Definition demo_rows : list Chunk.t :=
  [ Chunk.mk "A-new" "d1" "alph" 0 "alph" false;
    Chunk.mk "B-new" "d1" "ha" 1 "ha" false ].

Definition demo_world_after : VaultManager.World :=
  {| VaultManager.db :=
       {| vaults := vaults (VaultManager.db demo_world);
          documents := documents (VaultManager.db demo_world);
          chunks := Chunk.mk "c1" "d2" "other" 0 "h1" true :: demo_rows |};
     VaultManager.drawn := 2;
     VaultManager.fs := VaultManager.demo_fs |}.

End ChunkerStore.

(** ** LocalEmbedder ([app/services/embedder/local_impl.py]) *)

Module LocalEmbedder.
Section WithModel.

(** [str.isspace] on one character. *)
Variable isspace : ascii -> bool.

(** [self.model.encode(text).tolist()] for one text and
    [self.model.encode(texts)], row by row, for several; [Raise] is an
    exception of the model. *)
Variable encode_text : string -> result vector.
Variable encode_texts : list string -> result (list vector).

Record LocalEmbedder : Type := mkEmbedder {
  embedding_dimension : Z
}.

(** [LocalEmbedder.embed_text] *)
Definition embed_text (self : LocalEmbedder) (text : string)
    : result vector :=
  if negb (OpenAIEmbedder.strip_nonempty isspace text) then
    Ok (zeros (embedding_dimension self))
  else encode_text text.

(** [LocalEmbedder.embed_batch]: the same two loops as in the OpenAI
    embedder, without a [try]; an index past the rows of the model's
    answer is an IndexError. *)
Definition embed_batch (self : LocalEmbedder) (texts : list string)
    : result (list vector) :=
  match texts with
  | [] => Ok []
  | _ =>
      let '(non_empty_texts, indices) :=
        OpenAIEmbedder.non_empty_from isspace 0 texts in
      match non_empty_texts with
      | [] => Ok (map (fun _ => zeros (embedding_dimension self)) texts)
      | _ =>
          (embeddings <- encode_texts non_empty_texts ;;
           match OpenAIEmbedder.fill
                   (map (fun _ => zeros (embedding_dimension self)) texts)
                   0 indices embeddings with
           | Some results => Ok results
           | None => Raise IndexError
           end)%py
      end
  end.

(** [LocalEmbedder.get_embedding_dimension] *)
Definition get_embedding_dimension (self : LocalEmbedder) : Z :=
  embedding_dimension self.

(** The batch answer in the order of the texts: a blank text gets the
    zero vector, the [n]-th text that is not blank gets the [n]-th
    vector of [data]. *)
Fixpoint aligned (dimension : Z) (texts : list string) (data : list vector)
    : list vector :=
  match texts with
  | [] => []
  | text :: rest =>
      if OpenAIEmbedder.strip_nonempty isspace text then
        match data with
        | v :: data' => v :: aligned dimension rest data'
        | [] => zeros dimension :: aligned dimension rest []
        end
      else zeros dimension :: aligned dimension rest data
  end.

End WithModel.

(** A model and a provider that answer the length of every text, and a
    provider that answers one vector whatever it is asked. *)
Definition length_of (text : string) : vector :=
  [inject_Z (Z.of_nat (String.length text))].

Definition demo_encode_text (text : string) : result vector :=
  Ok (length_of text).

Definition demo_encode_texts (texts : list string) : result (list vector) :=
  Ok (map length_of texts).

Definition steady : OpenAIEmbedder.Provider :=
  fun _ r =>
    match r with
    | OpenAIEmbedder.Single text => Some [length_of text]
    | OpenAIEmbedder.Batch texts => Some (map length_of texts)
    end.

Definition terse : OpenAIEmbedder.Provider :=
  fun _ _ => Some [[7%Q]].

End LocalEmbedder.

(** ** Views of the vector store used in its properties *)

Module VectorStoreViews.

(** A chunk row with [embedding_stored] set. *)
Definition stored (c : Chunk.t) : Chunk.t :=
  Chunk.mk (Chunk.id c) (Chunk.document_id c) (Chunk.content c)
           (Chunk.sequence c) (Chunk.chunk_hash c) true.

(** The index a build adds to: the one of the file when there is one, a
    fresh one of the embedder's dimension otherwise. *)
Definition base_index (w : VectorStore.World) (index_path : string)
    (dimension : Z) : Faiss.Index :=
  match VectorStore.index_files w index_path with
  | Some index => index
  | None => Faiss.IndexFlatL2 dimension
  end.

(** The stored, embedded chunks of a vault. *)
Definition embedded_in (database : DB) (vault_id : string) (c : Chunk.t)
    : Prop :=
  In c (chunks database) /\
  joins_vault database vault_id c = true /\
  Chunk.embedding_stored c = true.

End VectorStoreViews.

(** ** VaultManager.register_vault, get_all_vaults, delete_vault *)

Module VaultRegistry.
Import VaultManager.

Section WithPaths.

(** [str(uuid.uuid4())], by draw number. *)
Variable uuid4 : nat -> string.

(** [Path(path).is_dir()] and [str(Path(path).resolve())]. *)
Variable is_dir : string -> bool.
Variable resolve : string -> string.

(** [VaultManager.register_vault] *)
Definition register_vault (w : World) (name path : string)
    : result (Vault.t * World) :=
  if negb (path_exists (fs w) path) || negb (is_dir path) then
    Raise (ValueError ("Path '" ++ path
                       ++ "' does not exist or is not a directory"))
  else
    match find (fun v => String.eqb (Vault.path v) (resolve path))
               (vaults (db w)) with
    | Some _ =>
        Raise (ValueError ("A vault with path '" ++ path
                           ++ "' is already registered"))
    | None =>
        let vault := Vault.mk (uuid4 (drawn w)) name (resolve path) false in
        Ok (vault,
            {| db := {| vaults := vaults (db w) ++ [vault];
                        documents := documents (db w);
                        chunks := chunks (db w) |};
               drawn := S (drawn w);
               fs := fs w |})
    end.

End WithPaths.

(** [VaultManager.get_all_vaults] *)
Definition get_all_vaults (w : World) : list Vault.t := vaults (db w).

(** [db.delete(vault)] on the first vault with this id. *)
Fixpoint remove_vault (vault_id : string) (l : list Vault.t)
    : list Vault.t :=
  match l with
  | [] => []
  | v :: rest =>
      if String.eqb (Vault.id v) vault_id then rest
      else v :: remove_vault vault_id rest
  end.

(** The documents the relationship [vault.documents] loads. *)
Definition documents_of (database : DB) (vault_id : string)
    : list Document.t :=
  filter (fun d => String.eqb (Document.vault_id d) vault_id)
         (documents database).

(** A chunk that the relationship [document.chunks] loads for one of
    these documents. *)
Definition chunk_of_any (docs : list Document.t) (c : Chunk.t) : bool :=
  existsb (fun d => String.eqb (Chunk.document_id c) (Document.id d)) docs.

(** [VaultManager.delete_vault]: the relationships are declared with
    [cascade="all, delete-orphan"], so the vault's documents and their
    chunks go with it. *)
Definition delete_vault (w : World) (vault_id : string) : bool * World :=
  match query_vault (db w) vault_id with
  | None => (false, w)
  | Some vault =>
      let gone := documents_of (db w) (Vault.id vault) in
      (true,
       {| db := {| vaults := remove_vault vault_id (vaults (db w));
                   documents :=
                     filter (fun d => negb (String.eqb (Document.vault_id d)
                                                       (Vault.id vault)))
                            (documents (db w));
                   chunks :=
                     filter (fun c => negb (chunk_of_any gone c))
                            (chunks (db w)) |};
          drawn := drawn w;
          fs := fs w |})
  end.

(** A directory test and a canonical form for the demo file system:
    every path is a directory, and a trailing slash is dropped. *)
Definition demo_is_dir (path : string) : bool := true.

Definition demo_resolve (path : string) : string :=
  if String.eqb path "/v/" then "/v"%string else path.

(** Two vaults, each with a document and an embedded chunk. *)
Definition two_vaults : World :=
  {| db := {| vaults := [ Vault.mk "v1" "notes" "/v" true;
                          Vault.mk "v2" "work" "/w" true ];
              documents := [ Document.mk "d1" "v1" "a.md" "a.md" "#alpha";
                             Document.mk "d3" "v2" "x.md" "x.md" "#xi" ];
              chunks := [ Chunk.mk "c0" "d1" "alpha" 0 "h0" true;
                          Chunk.mk "c3" "d3" "xi" 0 "h3" true ] |};
     drawn := 0;
     fs := demo_fs |}.

End VaultRegistry.

(** ** QueryEngine.query *)

Module QueryEngine.

Record Source : Type := mkSource {
  source_document_name : string;
  source_document_path : string
}.

Record Answer : Type := mkAnswer {
  query_of : string;
  results : list VectorStore.SearchResult;
  sources : list Source
}.

Section WithEmbedder.
Context {embedder : BaseEmbedder}.
Variable vector_store_path : string.

(** [QueryEngine.query] *)
Definition query (w : VectorStore.World) (vault_id query_text : string)
    (top_k : Z) : result Answer :=
  match query_vault (VectorStore.db w) vault_id with
  | None => Raise (ValueError ("Vault with ID '" ++ vault_id ++ "' not found"))
  | Some _ =>
      (results <- VectorStore.search vector_store_path w vault_id
                                     query_text top_k ;;
       Ok {| query_of := query_text;
             results := results;
             sources :=
               map (fun r =>
                      {| source_document_name := VectorStore.document_name r;
                         source_document_path := VectorStore.document_path r |})
                   results |})%py
  end.

End WithEmbedder.
End QueryEngine.

(** ** Views of the scan used in its properties *)

Module ScanViews.

(** A document row with another content hash. *)
Definition with_hash (d : Document.t) (content_hash : string) : Document.t :=
  Document.mk (Document.id d) (Document.vault_id d) (Document.path d)
              (Document.filename d) content_hash.

(** The same row up to its content hash. *)
Definition same_file (d d' : Document.t) : Prop :=
  Document.id d' = Document.id d /\
  Document.vault_id d' = Document.vault_id d /\
  Document.path d' = Document.path d /\
  Document.filename d' = Document.filename d.

(** The same vault up to its indexed flag. *)
Definition same_vault (v v' : Vault.t) : Prop :=
  Vault.id v' = Vault.id v /\
  Vault.name v' = Vault.name v /\
  Vault.path v' = Vault.path v.

Definition has_path (p : string) (d : Document.t) : bool :=
  String.eqb (Document.path d) p.

Definition in_vault (vault_id : string) (d : Document.t) : bool :=
  String.eqb (Document.vault_id d) vault_id.

(** The document a second scan would look up for a path: the last
    document of the vault with this path. *)
Definition last_with_path (vault_id : string) (docs : list Document.t)
    (p : string) : option Document.t :=
  find (has_path p) (rev (filter (in_vault vault_id) docs)).

(** The documents after some files: the old rows, each the same file as
    before, followed by one new row of the vault per file counted as
    new. *)
Definition grown (vault_id : string) (docs0 : list Document.t)
    (news : Z) (docs : list Document.t) : Prop :=
  exists kept added,
    docs = kept ++ added /\
    Forall2 same_file docs0 kept /\
    Py.len added = news /\
    Forall (fun d => Document.vault_id d = vault_id) added.

(** The dictionary of the loop follows the old rows of the vault. *)
Definition tracks (vault_id : string)
    (ep : list (string * Document.t)) (old : list Document.t) : Prop :=
  forall p, VaultManager.dict_get p ep = last_with_path vault_id old p.

(** The document that stands for a path after some files: the row added
    for it, else the entry of the dictionary. *)
Definition current (ep : list (string * Document.t))
    (added : list Document.t) (p : string) : option Document.t :=
  match find (has_path p) (rev added) with
  | Some a => Some a
  | None => VaultManager.dict_get p ep
  end.

Section WithHash.
Variable _calculate_hash : string -> string.

(** A file that parses is in step with the database: the document that
    stands for its path carries the hash of its content. *)
Definition synced (fsys : VaultManager.FileSystem)
    (ep : list (string * Document.t)) (added : list Document.t)
    (file : VaultManager.MdPath) : Prop :=
  forall content h,
    VaultManager.parse_file _calculate_hash fsys
      (VaultManager.absolute_path file) = Ok (content, h) ->
    exists doc,
      current ep added (VaultManager.relative_path file) = Some doc /\
      Document.content_hash doc = h.

(** What the loop has established once the files [done] are behind
    it. *)
Definition in_step (vault_id : string) (fsys : VaultManager.FileSystem)
    (done : list VaultManager.MdPath)
    (ep : list (string * Document.t)) (w : VaultManager.World) : Prop :=
  VaultManager.fs w = fsys /\
  exists old added,
    documents (VaultManager.db w) = old ++ added /\
    NoDup (map Document.id old) /\
    tracks vault_id ep old /\
    Forall (fun d => Document.vault_id d = vault_id) added /\
    (forall a, In a added ->
               In (Document.path a)
                  (map VaultManager.relative_path done)) /\
    (forall g, In g done -> synced fsys ep added g).

(** The category of a file in a scan that finds the database in step. *)
Definition steady_category (fsys : VaultManager.FileSystem)
    (file : VaultManager.MdPath) : VaultManager.category :=
  match VaultManager.parse_file _calculate_hash fsys
          (VaultManager.absolute_path file) with
  | Ok _ => VaultManager.Unchanged
  | Raise _ => VaultManager.Error
  end.

End WithHash.

End ScanViews.

(** ** Facts about slices *)

Module PyFacts.
Section Seq.
Context {A : Type}.
Implicit Types l : list A.

Lemma len_nonneg l : 0 <= Py.len l.
Proof. unfold Py.len; lia. Qed.

Lemma slice_inside l a b :
  0 <= a -> a <= b -> b <= Py.len l ->
  Py.slice l a b = firstn (Z.to_nat (b - a)) (skipn (Z.to_nat a) l).
Proof.
  intros Ha Hab Hb. unfold Py.slice, Py.clamp.
  destruct (Z.ltb_spec a 0); [lia|].
  destruct (Z.ltb_spec b 0); [lia|].
  rewrite !Z.min_l by lia. reflexivity.
Qed.

Lemma slice_whole l : Py.slice l 0 (Py.len l) = l.
Proof.
  rewrite slice_inside by (pose proof (len_nonneg l); lia).
  simpl. rewrite Z.sub_0_r. unfold Py.len. rewrite Nat2Z.id.
  apply firstn_all.
Qed.

Lemma slice_len l a b :
  0 <= a -> a <= b -> b <= Py.len l -> Py.len (Py.slice l a b) = b - a.
Proof.
  intros Ha Hab Hb. rewrite slice_inside by assumption.
  unfold Py.len in *. rewrite length_firstn, length_skipn. lia.
Qed.

Lemma firstn_glue l : forall n m,
  firstn n l ++ firstn m (skipn n l) = firstn (n + m) l.
Proof.
  induction l as [|x l IH]; intros [|n] m; simpl;
    rewrite ?firstn_nil; try reflexivity.
  f_equal. apply IH.
Qed.

(** Dropping the overlap from a slice that starts [v] early leaves the
    slice that starts on time. *)
Lemma skipn_slice l v a b :
  0 <= v -> v <= a -> a <= b -> b <= Py.len l ->
  skipn (Z.to_nat v) (Py.slice l (a - v) b) = Py.slice l a b.
Proof.
  intros Hv Hva Hab Hb. rewrite !slice_inside by lia.
  rewrite skipn_firstn_comm, skipn_skipn. f_equal; [lia|].
  f_equal. lia.
Qed.

Lemma firstn_slice l a b :
  0 <= a -> a <= b -> b <= Py.len l ->
  firstn (Z.to_nat a) l ++ Py.slice l a b = firstn (Z.to_nat b) l.
Proof.
  intros Ha Hab Hb. rewrite slice_inside by lia.
  rewrite firstn_glue. f_equal. lia.
Qed.

End Seq.
End PyFacts.

(** ** The chunker splits a text into the sliding windows *)

Module ChunkerFacts.
Import Chunker.
Section WithChar.
Context {char : Type}.
Variable _calculate_hash : list char -> string.
Variable self : @Chunker.
Variable text : list char.
Variable doc : string.

Local Abbreviation S_ := (chunk_size self).
Local Abbreviation V_ := (chunk_overlap self).
Local Abbreviation L_ := (Py.len text).
Local Abbreviation loop := (create_chunks_loop _calculate_hash).
Local Abbreviation chunks_of := (chunks_of_windows _calculate_hash text doc).

Lemma windows_after_functional : forall e ws ws',
  windows_after S_ V_ L_ e ws -> windows_after S_ V_ L_ e ws' -> ws = ws'.
Proof.
  intros e ws ws' H. revert ws'.
  induction H as [e He | e ws He _ IH]; intros ws' H'; inversion H'; subst;
    try lia; try reflexivity.
  f_equal. now apply IH.
Qed.

Lemma windows_after_ok : forall e ws,
  0 <= V_ < S_ -> V_ < e <= L_ ->
  windows_after S_ V_ L_ e ws -> Forall (window_ok S_ V_ L_) ws.
Proof.
  intros e ws HV He H.
  induction H as [e Hstop | e ws Hlt _ IH]; constructor.
  - unfold window_ok; simpl. lia.
  - apply IH. lia.
Qed.

(** From its second iteration on, the loop emits the windows that follow
    the previous end, provided the fuel covers the rest of the text. *)
Lemma loop_windows : forall fuel e n acc,
  0 <= V_ < S_ -> V_ < e <= L_ -> L_ - e < Z.of_nat fuel ->
  exists ws,
    windows_after S_ V_ L_ e ws /\
    loop fuel self text doc e n acc = Some (acc ++ chunks_of n ws).
Proof.
  induction fuel as [|fuel IH]; intros e n acc HV He Hfuel.
  - lia.
  - simpl. destruct (Z.ltb_spec e L_) as [Hlt | Hge].
    + destruct (Z.ltb_spec 0 e) as [_ | ?]; [|lia].
      destruct (IH (Z.min (e - V_ + S_) L_) (n + 1)
                  (acc ++ [chunk_of_window _calculate_hash text doc n
                             (e - V_, Z.min (e - V_ + S_) L_)]))
        as (ws & Hws & Hrun); try lia.
      exists ((e - V_, Z.min (e - V_ + S_) L_) :: ws). split.
      * now constructor.
      * unfold chunk_of_window in Hrun; simpl in Hrun. rewrite Hrun.
        rewrite <- app_assoc. reflexivity.
    + exists []. split; [now constructor|]. now rewrite app_nil_r.
Qed.

(** A text longer than the chunk size is cut into its sliding windows. *)
Lemma create_chunks_long : forall fuel,
  0 <= V_ < S_ -> S_ < L_ -> L_ < Z.of_nat fuel ->
  exists ws,
    sliding_windows S_ V_ L_ ws /\
    _create_chunks _calculate_hash fuel self text doc = Some (chunks_of 0 ws).
Proof.
  intros fuel HV Hlong Hfuel. unfold _create_chunks.
  destruct (Z.leb_spec L_ S_) as [?|_]; [lia|].
  destruct fuel as [|fuel]; [lia|]. simpl.
  destruct (Z.ltb_spec 0 L_) as [_|?]; [|lia].
  destruct (loop_windows fuel (Z.min S_ L_) 1
              [chunk_of_window _calculate_hash text doc 0 (0, Z.min S_ L_)])
    as (ws & Hws & Hrun); try lia.
  exists ((0, Z.min S_ L_) :: ws). split.
  - exists ws. now split.
  - unfold chunk_of_window in Hrun; simpl in Hrun.
    exact Hrun.
Qed.

Lemma sliding_windows_functional : forall ws ws',
  sliding_windows S_ V_ L_ ws -> sliding_windows S_ V_ L_ ws' -> ws = ws'.
Proof.
  intros ws ws' (r & -> & H) (r' & -> & H'). f_equal.
  eapply windows_after_functional; eassumption.
Qed.

Lemma sliding_windows_ok : forall ws,
  0 <= V_ < S_ -> S_ < L_ ->
  sliding_windows S_ V_ L_ ws -> Forall (window_ok S_ V_ L_) ws.
Proof.
  intros ws HV Hlong (r & -> & H). constructor.
  - unfold window_ok; simpl. lia.
  - eapply windows_after_ok; [exact HV | | exact H]. lia.
Qed.

Lemma content_chunks_of : forall ws n,
  map content (chunks_of n ws) = map (fun w => Py.slice text (fst w) (snd w)) ws.
Proof. induction ws as [|w ws IH]; intros n; simpl; [|rewrite IH]; reflexivity. Qed.

Lemma length_chunks_of : forall ws n,
  List.length (chunks_of n ws) = List.length ws.
Proof. induction ws as [|w ws IH]; intros n; simpl; [|rewrite IH]; reflexivity. Qed.

Lemma sequence_chunks_of : forall ws n,
  map sequence (chunks_of n ws) =
  map (fun i => n + Z.of_nat i) (seq 0 (List.length ws)).
Proof.
  induction ws as [|w ws IH]; intros n; simpl; [reflexivity|].
  rewrite Z.add_0_r, IH, <- seq_shift, map_map. f_equal.
  apply map_ext. intros i. lia.
Qed.

(** Glueing the windows that follow [e], each without its overlap, to the
    first [e] characters gives the text back. *)
Lemma windows_after_glue : forall e ws n,
  0 <= V_ < S_ -> V_ < e <= L_ ->
  windows_after S_ V_ L_ e ws ->
  firstn (Z.to_nat e) text ++
    flat_map (fun c => skipn (Z.to_nat V_) (content c)) (chunks_of n ws) = text.
Proof.
  intros e ws n HV He H. revert n.
  induction H as [e Hstop | e ws Hlt _ IH]; intros n; simpl.
  - rewrite app_nil_r. apply firstn_all2. unfold Py.len in *. lia.
  - rewrite PyFacts.skipn_slice by lia.
    rewrite app_assoc, PyFacts.firstn_slice by lia.
    apply IH. lia.
Qed.

(** C2. With [0 <= V < S] and enough fuel for the loop to finish: a text
    no longer than [S] gives exactly one chunk, the whole text with
    sequence number 0; a longer text gives exactly the chunks of its
    sliding windows (first window [[0, min S len)], each next window
    starting [V] before the previous end and ending at
    [min (start + S) len], stopping once an end reaches [len]), numbered
    0, 1, 2, ... in window order; and these windows are unique. *)
Theorem create_chunks_windows : forall fuel,
  0 <= V_ < S_ -> L_ < Z.of_nat fuel ->
  (L_ <= S_ ->
     _create_chunks _calculate_hash fuel self text doc =
     Some [ {| document_id := doc; content := text; sequence := 0;
               chunk_hash := _calculate_hash text |} ]) /\
  (S_ < L_ ->
     exists ws,
       sliding_windows S_ V_ L_ ws /\
       (forall ws', sliding_windows S_ V_ L_ ws' -> ws' = ws) /\
       _create_chunks _calculate_hash fuel self text doc =
       Some (chunks_of 0 ws)).
Proof.
  intros fuel HV Hfuel. split.
  - intros Hshort. unfold _create_chunks.
    destruct (Z.leb_spec L_ S_); [reflexivity | lia].
  - intros Hlong.
    destruct (create_chunks_long fuel HV Hlong Hfuel) as (ws & Hws & Hrun).
    exists ws. repeat split; try assumption.
    intros ws' Hws'. eapply sliding_windows_functional; eassumption.
Qed.

(** C5. For a text longer than [S] and [0 <= V < S], the chunks come out
    in sequence order 0, 1, 2, ... and concatenating them, every chunk
    after the first without its first [V] characters, gives the text. *)
Theorem chunks_reassemble : forall fuel,
  0 <= V_ < S_ -> S_ < L_ -> L_ < Z.of_nat fuel ->
  exists chunks,
    _create_chunks _calculate_hash fuel self text doc = Some chunks /\
    map sequence chunks = map Z.of_nat (seq 0 (List.length chunks)) /\
    reassemble V_ chunks = text.
Proof.
  intros fuel HV Hlong Hfuel.
  destruct (create_chunks_long fuel HV Hlong Hfuel)
    as (ws & (rest & -> & Hrest) & Hrun).
  eexists. split; [exact Hrun|]. split.
  - rewrite sequence_chunks_of.
    rewrite length_chunks_of. apply map_ext. intros i. lia.
  - simpl. rewrite PyFacts.slice_inside by lia. simpl.
    rewrite Z.sub_0_r.
    apply windows_after_glue; [assumption | lia | assumption].
Qed.

(** C10. For a text longer than [S] and [0 <= V < S], every chunk is
    non-empty: its content has at least [V + 1] and at most [S]
    characters. *)
Theorem chunk_lengths : forall fuel,
  0 <= V_ < S_ -> S_ < L_ -> L_ < Z.of_nat fuel ->
  exists chunks,
    _create_chunks _calculate_hash fuel self text doc = Some chunks /\
    Forall (fun c => content c <> [] /\
                     V_ + 1 <= Py.len (content c) <= S_) chunks.
Proof.
  intros fuel HV Hlong Hfuel.
  destruct (create_chunks_long fuel HV Hlong Hfuel) as (ws & Hws & Hrun).
  eexists. split; [exact Hrun|].
  pose proof (sliding_windows_ok ws HV Hlong Hws) as Hok.
  clear Hws Hrun. generalize 0 as n.
  induction Hok as [|w ws Hw _ IH]; intros n; simpl; constructor.
  - simpl. destruct Hw as (H0 & H1 & H2 & H3).
    assert (Hlen : Py.len (Py.slice text (fst w) (snd w)) = snd w - fst w)
      by (apply PyFacts.slice_len; lia).
    split; [|lia].
    intros Hnil. rewrite Hnil in Hlen. unfold Py.len in Hlen. simpl in Hlen. lia.
  - apply IH.
Qed.

End WithChar.

Example demo_chunks :
  map (fun c => (sequence c, string_of_list_ascii (content c)))
      (match _create_chunks demo_chunk_hash 11 demo_chunker demo_text "d1" with
       | Some chunks => chunks
       | None => []
       end)
  = [(0, "abcd"); (1, "defg"); (2, "ghij")]%string.
Proof. reflexivity. Qed.

(** The windows of the 3000 characters of the design document's
    scenario, with size 1000 and overlap 200. *)
Example scenario_windows :
  sliding_windows 1000 200 3000
    [(0, 1000); (800, 1800); (1600, 2600); (2400, 3000)].
Proof.
  eexists. split; [reflexivity|].
  apply (wa_next 1000 200 3000 1000); [lia|].
  apply (wa_next 1000 200 3000 1800); [lia|].
  apply (wa_next 1000 200 3000 2600); [lia|].
  apply wa_stop. cbn. lia.
Qed.

Lemma create_chunks_windows_witness :
  (Py.len demo_text <= chunk_size demo_chunker ->
     _create_chunks demo_chunk_hash 11 demo_chunker demo_text "d1" =
     Some [ {| document_id := "d1"; content := demo_text; sequence := 0;
               chunk_hash := demo_chunk_hash demo_text |} ]) /\
  (chunk_size demo_chunker < Py.len demo_text ->
     exists ws,
       sliding_windows (chunk_size demo_chunker) (chunk_overlap demo_chunker)
                       (Py.len demo_text) ws /\
       (forall ws',
          sliding_windows (chunk_size demo_chunker)
                          (chunk_overlap demo_chunker)
                          (Py.len demo_text) ws' -> ws' = ws) /\
       _create_chunks demo_chunk_hash 11 demo_chunker demo_text "d1" =
       Some (chunks_of_windows demo_chunk_hash demo_text "d1" 0 ws)).
Proof.
  apply (create_chunks_windows demo_chunk_hash demo_chunker demo_text "d1" 11).
  - cbn. lia.
  - vm_compute. reflexivity.
Defined.

Lemma chunks_reassemble_witness :
  exists chunks,
    _create_chunks demo_chunk_hash 11 demo_chunker demo_text "d1" = Some chunks /\
    map sequence chunks = map Z.of_nat (seq 0 (List.length chunks)) /\
    reassemble (chunk_overlap demo_chunker) chunks = demo_text.
Proof.
  apply (chunks_reassemble demo_chunk_hash demo_chunker demo_text "d1" 11).
  - cbn. lia.
  - vm_compute. reflexivity.
  - vm_compute. reflexivity.
Defined.

Lemma chunk_lengths_witness :
  exists chunks,
    _create_chunks demo_chunk_hash 11 demo_chunker demo_text "d1" = Some chunks /\
    Forall (fun c => content c <> [] /\
                     chunk_overlap demo_chunker + 1
                     <= Py.len (content c) <= chunk_size demo_chunker)
           chunks.
Proof.
  apply (chunk_lengths demo_chunk_hash demo_chunker demo_text "d1" 11).
  - cbn. lia.
  - vm_compute. reflexivity.
  - vm_compute. reflexivity.
Defined.

End ChunkerFacts.

(** ** The scan counts every file once and marks the vault indexed *)

Module VaultManagerFacts.
Import VaultManager.
Section WithHash.
Variable _calculate_hash : string -> string.
Variable uuid4 : nat -> string.

Local Abbreviation scan_file := (VaultManager.scan_file _calculate_hash uuid4).
Local Abbreviation scan_vault := (VaultManager.scan_vault _calculate_hash uuid4).
Local Abbreviation fails := (VaultManager.fails _calculate_hash).

Lemma count_cons c c' l :
  count c (c' :: l) = (if category_eqb c c' then 1 else 0) + count c l.
Proof.
  unfold count, Py.len. cbn [filter].
  destruct (category_eqb c c'); cbn [length]; lia.
Qed.

Lemma count_total l :
  count New l + count Updated l + count Unchanged l + count Error l = Py.len l.
Proof.
  induction l as [|c l IH]; [reflexivity|].
  rewrite !count_cons.
  replace (Py.len (c :: l)) with (1 + Py.len l)
    by (unfold Py.len; simpl length; lia).
  destruct c; cbn [category_eqb]; lia.
Qed.

Lemma stats_eq (a b : Stats) :
  total_files a = total_files b -> new_files a = new_files b ->
  updated_files a = updated_files b ->
  unchanged_files a = unchanged_files b -> errors a = errors b -> a = b.
Proof. destruct a, b; simpl; intros; subst; reflexivity. Qed.

Ltac count_now :=
  repeat match goal with
         | |- context [count ?c ?l] =>
             let v := eval vm_compute in (count c l) in
             change (count c l) with v
         end.

Ltac same_stats :=
  apply stats_eq; simpl; count_now; lia.


(** One file: exactly one counter moves, by one; the file system and the
    vault rows stay as they are; the file is an error exactly when it
    cannot be parsed. *)
Lemma scan_file_step vault_id stats ep w file :
  exists c,
    fst (fst (scan_file vault_id (stats, ep, w) file)) = add_counts stats [c] /\
    fs (snd (scan_file vault_id (stats, ep, w) file)) = fs w /\
    vaults (db (snd (scan_file vault_id (stats, ep, w) file))) = vaults (db w) /\
    (c = Error <-> fails (fs w) file).
Proof.
  unfold VaultManager.scan_file, VaultManager.fails.
  destruct (parse_file _calculate_hash (fs w) (absolute_path file))
    as [[content content_hash] | e] eqn:Hparse.
  - destruct (dict_get (relative_path file) ep) as [doc|].
    + destruct (negb (Document.content_hash doc =? content_hash)%string).
      * exists Updated. simpl. repeat split; try discriminate.
        -- same_stats.
        -- intros [e He]. discriminate.
      * exists Unchanged. simpl. repeat split; try discriminate.
        -- same_stats.
        -- intros [e He]. discriminate.
    + exists New. simpl. repeat split; try discriminate.
      * same_stats.
      * intros [e He]. discriminate.
  - exists Error. simpl. repeat split.
    + same_stats.
    + intros _. now exists e.
Qed.

Lemma add_counts_cons s c cats :
  add_counts (add_counts s [c]) cats = add_counts s (c :: cats).
Proof.
  apply stats_eq; cbn [add_counts total_files new_files updated_files
                         unchanged_files errors];
    rewrite ?(count_cons _ c cats), ?(count_cons _ c []);
    destruct c; cbn [category_eqb]; count_now; lia.
Qed.

(** The whole loop never stops early: every file gets a category. *)
Lemma scan_loop vault_id : forall files stats ep w,
  exists cats,
    Forall2 (fun file c => c = Error <-> fails (fs w) file) files cats /\
    fst (fst (fold_left (scan_file vault_id) files (stats, ep, w))) =
      add_counts stats cats /\
    fs (snd (fold_left (scan_file vault_id) files (stats, ep, w))) = fs w /\
    vaults (db (snd (fold_left (scan_file vault_id) files (stats, ep, w)))) =
      vaults (db w).
Proof.
  induction files as [|file files IH]; intros stats ep w.
  - exists []. cbn [fold_left fst snd]. split; [constructor|].
    split; [same_stats|]. split; reflexivity.
  - cbn [fold_left].
    destruct (scan_file_step vault_id stats ep w file)
      as (c & Hstats & Hfs & Hvaults & Hc).
    destruct (scan_file vault_id (stats, ep, w) file) as [[stats1 ep1] w1].
    cbn [fst snd] in Hstats, Hfs, Hvaults.
    destruct (IH stats1 ep1 w1) as (cats & Hall & Hs & Hf & Hv).
    exists (c :: cats). split; [|split; [|split]].
    + constructor; [exact Hc|]. rewrite Hfs in Hall. exact Hall.
    + rewrite Hs, Hstats. apply add_counts_cons.
    + congruence.
    + congruence.
Qed.

Lemma set_indexed_query vault_id : forall l v,
  find (fun v => (Vault.id v =? vault_id)%string) l = Some v ->
  exists v',
    find (fun v => (Vault.id v =? vault_id)%string) (set_indexed vault_id l)
      = Some v' /\ Vault.is_indexed v' = true.
Proof.
  induction l as [|h l IH]; intros v Hfind; [discriminate|].
  simpl in *. destruct (Vault.id h =? vault_id)%string eqn:Hid.
  - eexists. simpl. rewrite Hid. split; reflexivity.
  - simpl. rewrite Hid. eapply IH; eassumption.
Qed.

(** C6. A scan of an existing vault whose root path exists returns, and
    gives every enumerated file exactly one category among new, updated,
    unchanged and error: the four counters are the numbers of files in
    each category, the total is the number of files and equals their
    sum, and a file is counted as an error exactly when reading or
    parsing it fails, the files after it being processed all the same. *)
Theorem scan_counts_every_file : forall w vault_id vault,
  get_vault w vault_id = Some vault ->
  path_exists (fs w) (Vault.path vault) = true ->
  exists stats w' cats,
    scan_vault w vault_id = Ok (stats, w') /\
    Forall2 (fun file c => c = Error <-> fails (fs w) file)
            (glob_md (fs w) (Vault.path vault)) cats /\
    total_files stats = Py.len (glob_md (fs w) (Vault.path vault)) /\
    new_files stats = count New cats /\
    updated_files stats = count Updated cats /\
    unchanged_files stats = count Unchanged cats /\
    errors stats = count Error cats /\
    total_files stats =
      new_files stats + updated_files stats + unchanged_files stats
      + errors stats.
Proof.
  intros w vault_id vault Hvault Hpath.
  unfold VaultManager.scan_vault. rewrite Hvault, Hpath.
  cbn [negb new_files updated_files unchanged_files errors].
  set (files := glob_md (fs w) (Vault.path vault)).
  set (ep := existing_paths_of _).
  destruct (scan_loop vault_id files (mkStats (Py.len files) 0 0 0 0) ep w)
    as (cats & Hall & Hstats & _ & _).
  destruct (fold_left (scan_file vault_id) files
              (mkStats (Py.len files) 0 0 0 0, ep, w)) as [[stats ep'] w'].
  cbn [fst] in Hstats. subst stats.
  eexists _, _, cats. split; [reflexivity|].
  split; [exact Hall|].
  cbn [add_counts total_files new_files updated_files unchanged_files errors].
  repeat (split; [lia|]).
  pose proof (count_total cats) as Htot.
  pose proof (Forall2_length Hall) as Hlen.
  unfold Py.len in *. lia.
Qed.

(** C9. After a scan that returns, the vault's [is_indexed] flag is
    true, whatever the files were counted as. *)
Theorem scan_sets_is_indexed : forall w vault_id stats w',
  scan_vault w vault_id = Ok (stats, w') ->
  exists vault',
    query_vault (db w') vault_id = Some vault' /\
    Vault.is_indexed vault' = true.
Proof.
  intros w vault_id stats w'. unfold VaultManager.scan_vault, get_vault.
  destruct (query_vault (db w) vault_id) as [vault|] eqn:Hvault;
    [|discriminate].
  destruct (negb (path_exists (fs w) (Vault.path vault))); [discriminate|].
  cbn [new_files updated_files unchanged_files errors].
  set (files := glob_md (fs w) (Vault.path vault)).
  set (ep := existing_paths_of _).
  destruct (scan_loop vault_id files (mkStats (Py.len files) 0 0 0 0) ep w)
    as (cats & _ & _ & _ & Hvaults).
  destruct (fold_left (scan_file vault_id) files
              (mkStats (Py.len files) 0 0 0 0, ep, w)) as [[stats1 ep'] w1].
  cbn [snd] in Hvaults. intros H. injection H as _ <-.
  unfold query_vault in *. cbn [db vaults]. rewrite Hvaults.
  eapply set_indexed_query. exact Hvault.
Qed.

End WithHash.

Lemma scan_counts_every_file_witness :
  exists stats w' cats,
    VaultManager.scan_vault demo_content_hash demo_uuid4 demo_world "v1"
      = Ok (stats, w') /\
    Forall2 (fun file c => c = Error <->
                           VaultManager.fails demo_content_hash (fs demo_world) file)
            (glob_md (fs demo_world) "/v") cats /\
    total_files stats = Py.len (glob_md (fs demo_world) "/v") /\
    new_files stats = count New cats /\
    updated_files stats = count Updated cats /\
    unchanged_files stats = count Unchanged cats /\
    errors stats = count Error cats /\
    total_files stats =
      new_files stats + updated_files stats + unchanged_files stats
      + errors stats.
Proof.
  apply (scan_counts_every_file demo_content_hash demo_uuid4 demo_world "v1"
           (Vault.mk "v1" "notes" "/v" false)); reflexivity.
Defined.

Lemma scan_sets_is_indexed_witness :
  exists vault',
    query_vault
      (db (mkWorld
             {| vaults := [ Vault.mk "v1" "notes" "/v" true ];
                documents :=
                  [ Document.mk "d1" "v1" "a.md" "a.md" "#alpha";
                    Document.mk "d2" "v1" "b.md" "b.md" "#beta";
                    Document.mk "A-new" "v1" "sub/c.md" "c.md" "#gamma" ];
                chunks := [] |} 1 demo_fs)) "v1" = Some vault' /\
    Vault.is_indexed vault' = true.
Proof.
  apply (scan_sets_is_indexed demo_content_hash demo_uuid4 demo_world "v1"
           (mkStats 4 1 1 1 1)).
  vm_compute. reflexivity.
Defined.

End VaultManagerFacts.

(** ** What the OpenAI embedder does when the provider fails *)

Module OpenAIEmbedderFacts.
Import OpenAIEmbedder.

Section WithProvider.
Variable isspace : ascii -> bool.
Variable provider : Provider.

Local Abbreviation embed_text := (OpenAIEmbedder.embed_text isspace provider).
Local Abbreviation embed_batch := (OpenAIEmbedder.embed_batch isspace provider).
Local Abbreviation non_empty_from := (OpenAIEmbedder.non_empty_from isspace).

Lemma calls_app tr tr' : calls (tr ++ tr') = (calls tr + calls tr')%nat.
Proof. unfold calls. now rewrite filter_app, length_app. Qed.

Lemma set_item_length (results : list vector) idx v results' :
  Py.set_item results idx v = Some results' ->
  length results' = length results.
Proof.
  unfold Py.set_item.
  set (j := if idx <? 0 then idx + Py.len results else idx).
  destruct (Z.ltb_spec j 0); [discriminate|].
  destruct (Z.leb_spec (Py.len results) j); [discriminate|].
  cbn [orb]. intros Hsome.
  assert (Hlen : length (firstn (Z.to_nat j) results
                         ++ v :: skipn (S (Z.to_nat j)) results)
                 = length results).
  { rewrite length_app. cbn [length].
    rewrite length_firstn, length_skipn. unfold Py.len in *. lia. }
  congruence.
Qed.

Lemma fill_length : forall indices results i data results',
  fill results i indices data = Some results' ->
  length results' = length results.
Proof.
  induction indices as [|idx rest IH]; intros results i data results' H.
  - now injection H as <-.
  - cbn [fill] in H.
    destruct (Py.index data i) as [v|]; [|discriminate].
    destruct (Py.set_item results idx v) as [r1|] eqn:Hset; [|discriminate].
    rewrite (IH _ _ _ _ H). eapply set_item_length; eassumption.
Qed.

(** A batch is never aborted: one vector comes back per text. *)
Lemma embed_batch_length self texts tr :
  length (fst (embed_batch self texts tr)) = length texts.
Proof.
  unfold OpenAIEmbedder.embed_batch.
  destruct texts as [|t ts]; [reflexivity|].
  destruct (non_empty_from 0 (t :: ts)) as [non_empty_texts indices].
  destruct non_empty_texts as [|n ns].
  - cbn [fst]. unfold zero_vectors. now rewrite length_map.
  - unfold create.
    destruct (provider (calls tr) (Batch (n :: ns))) as [data|].
    + destruct (fill (zero_vectors self (t :: ts)) 0 indices data)
        as [results|] eqn:Hfill; cbn [fst].
      * rewrite (fill_length _ _ _ _ _ Hfill).
        unfold zero_vectors. now rewrite length_map.
      * unfold zero_vectors. now rewrite length_map.
    + cbn [fst]. unfold zero_vectors. now rewrite length_map.
Qed.

(** C3, as the code has it. For every single text: when its provider
    call fails, the text is tried again exactly once, after a pause of
    two seconds, and becomes the all-zero vector of the embedding
    dimension when the second call fails too. For every batch,
    whatever the provider does with single texts: the non-blank texts
    go to the provider in one call and one vector comes back per text;
    when that call fails the batch is not aborted, it is not tried
    again, and every text of the batch, not only some, becomes the
    all-zero vector of the embedding dimension. *)
Theorem provider_failure_policy :
  forall self tr,
    (forall text,
       strip_nonempty isspace text = true ->
       first_embedding (provider (calls tr) (Single text)) = None ->
       snd (embed_text self text tr)
         = tr ++ [Create (Single text); Sleep 2; Create (Single text)] /\
       (first_embedding (provider (S (calls tr)) (Single text)) = None ->
        fst (embed_text self text tr) = zeros (embedding_dimension self))) /\
    (forall texts non_empty_texts indices,
       non_empty_from 0 texts = (non_empty_texts, indices) ->
       non_empty_texts <> [] ->
       snd (embed_batch self texts tr)
         = tr ++ [Create (Batch non_empty_texts)] /\
       length (fst (embed_batch self texts tr)) = length texts /\
       (provider (calls tr) (Batch non_empty_texts) = None ->
        fst (embed_batch self texts tr)
          = map (fun _ => zeros (embedding_dimension self)) texts)).
Proof.
  intros self tr. split.
  - intros text Htext Hfirst.
    assert (Hcalls : calls (sleep 2 (tr ++ [Create (Single text)]))
                     = S (calls tr)).
    { unfold sleep. rewrite !calls_app. cbn. lia. }
    unfold OpenAIEmbedder.embed_text, create. rewrite Htext. cbn [negb].
    rewrite Hfirst, Hcalls. split.
    + destruct (first_embedding (provider (S (calls tr)) (Single text)));
        cbn [snd]; unfold sleep; rewrite <- !app_assoc; reflexivity.
    + intros Hsecond. now rewrite Hsecond.
  - intros texts non_empty_texts indices Hsel Hne.
    split; [|split; [apply embed_batch_length|]].
    + unfold OpenAIEmbedder.embed_batch, create.
      destruct texts as [|t ts]; [cbn in Hsel; congruence|].
      rewrite Hsel.
      destruct non_empty_texts as [|n ns]; [congruence|].
      destruct (provider (calls tr) (Batch (n :: ns))) as [data|];
        [|reflexivity].
      now destruct (fill (zero_vectors self (t :: ts)) 0 indices data).
    + intros Hbatch.
      unfold OpenAIEmbedder.embed_batch, create.
      destruct texts as [|t ts]; [cbn in Hsel; congruence|].
      rewrite Hsel.
      destruct non_empty_texts as [|n ns]; [congruence|].
      now rewrite Hbatch.
Qed.

End WithProvider.

(** C3 fails on a batch: the first call for ["a"; "bb"] fails, a second
    call would have answered, yet the operation makes no second call and
    no pause, and both texts come back as zero vectors. *)
Lemma embed_batch_does_not_retry :
  flaky 0%nat (Batch ["a"; "bb"]%string) = None /\
  flaky 1%nat (Batch ["a"; "bb"]%string) = Some [[1%Q]; [2%Q]] /\
  OpenAIEmbedder.embed_batch ascii_isspace flaky (mkEmbedder 1)
                             ["a"; "bb"]%string []
    = ([[0%Q]; [0%Q]], [Create (Batch ["a"; "bb"]%string)]) /\
  ~ retried_once []
      (snd (OpenAIEmbedder.embed_batch ascii_isspace flaky (mkEmbedder 1)
                                       ["a"; "bb"]%string [])).
Proof.
  repeat split.
  intros (r & seconds & H). vm_compute in H. discriminate H.
Qed.

Lemma provider_failure_policy_witness :
  (snd (OpenAIEmbedder.embed_text ascii_isspace down (mkEmbedder 2) "a" [])
     = [Create (Single "a"); Sleep 2; Create (Single "a")] /\
   fst (OpenAIEmbedder.embed_text ascii_isspace down (mkEmbedder 2) "a" [])
     = [0%Q; 0%Q]) /\
  (snd (OpenAIEmbedder.embed_batch ascii_isspace flaky (mkEmbedder 2)
                                   ["a"; " "; "bb"]%string [])
     = [Create (Batch ["a"; "bb"]%string)] /\
   length (fst (OpenAIEmbedder.embed_batch ascii_isspace flaky (mkEmbedder 2)
                                           ["a"; " "; "bb"]%string []))
     = 3%nat /\
   fst (OpenAIEmbedder.embed_batch ascii_isspace flaky (mkEmbedder 2)
                                   ["a"; " "; "bb"]%string [])
     = [[0%Q; 0%Q]; [0%Q; 0%Q]; [0%Q; 0%Q]]).
Proof.
  split.
  - destruct (proj1 (provider_failure_policy ascii_isspace down
                       (mkEmbedder 2) []) "a"%string)
      as [Htrace Hzero]; [reflexivity|reflexivity|].
    split; [exact Htrace|]. apply Hzero. reflexivity.
  - destruct (proj2 (provider_failure_policy ascii_isspace flaky
                       (mkEmbedder 2) [])
                    ["a"; " "; "bb"]%string ["a"; "bb"]%string [0; 2])
      as (Htrace & Hlen & Hzero); [reflexivity|discriminate|].
    split; [exact Htrace|]. split; [exact Hlen|]. apply Hzero. reflexivity.
Defined.

End OpenAIEmbedderFacts.

(** ** The answer of an index search *)

Module FaissFacts.
Import Faiss.

Section Sorting.
Context {A : Type}.
Variable R : A -> A -> Prop.

Lemma firstn_sorted : forall n l,
  StronglySorted R l -> StronglySorted R (firstn n l).
Proof.
  induction n as [|n IH]; intros l Hl; [constructor|].
  destruct l as [|a l]; [constructor|].
  apply StronglySorted_inv in Hl as [Hl Ha].
  cbn [firstn]. constructor; [now apply IH|].
  rewrite Forall_forall in *. intros x Hx. apply Ha.
  rewrite <- (firstn_skipn n l). apply in_or_app. now left.
Qed.

Lemma filter_sorted (f : A -> bool) : forall l,
  StronglySorted R l -> StronglySorted R (filter f l).
Proof.
  induction l as [|a l IH]; intros Hl; [constructor|].
  apply StronglySorted_inv in Hl as [Hl Ha].
  cbn [filter]. destruct (f a); [|now apply IH].
  constructor; [now apply IH|].
  rewrite Forall_forall in *. intros x Hx.
  apply filter_In in Hx as [Hx _]. now apply Ha.
Qed.

Lemma sorted_app_repeat x : forall n l,
  R x x -> StronglySorted R l -> Forall (fun a => R a x) l ->
  StronglySorted R (l ++ repeat x n).
Proof.
  intros n l Hx Hl Hle. induction Hl as [|a l Hl IH Ha].
  - cbn [app]. induction n as [|n IHn]; cbn [repeat]; constructor;
      [exact IHn|].
    apply Forall_forall. intros y Hy. apply repeat_spec in Hy. now subst.
  - cbn [app]. inversion Hle as [|? ? Hax Hlx]; subst.
    constructor; [now apply IH|].
    apply Forall_app. split; [exact Ha|].
    apply Forall_forall. intros y Hy. apply repeat_spec in Hy. now subst.
Qed.

End Sorting.

Lemma Forall_insert (P : Q * Z -> Prop) p : forall l,
  P p -> Forall P l -> Forall P (insert_by_distance p l).
Proof.
  induction l as [|h t IH]; intros Hp Hl; cbn [insert_by_distance].
  - now constructor.
  - destruct (Qle_bool (fst p) (fst h)); [now constructor|].
    inversion Hl; subst. constructor; [assumption|now apply IH].
Qed.

Lemma insert_sorted p : forall l,
  StronglySorted by_distance l ->
  StronglySorted by_distance (insert_by_distance p l).
Proof.
  induction l as [|h t IH]; intros Hl; cbn [insert_by_distance].
  - repeat constructor.
  - apply StronglySorted_inv in Hl as [Ht Hh].
    destruct (Qle_bool (fst p) (fst h)) eqn:Hle.
    + apply Qle_bool_iff in Hle.
      constructor; [now constructor|].
      constructor; [exact Hle|].
      eapply Forall_impl; [|exact Hh].
      intros a Ha. unfold by_distance in *. eapply Qle_trans; eassumption.
    + constructor; [now apply IH|].
      apply Forall_insert; [|exact Hh].
      unfold by_distance. apply Qlt_le_weak, Qnot_le_lt.
      intros H. apply Qle_bool_iff in H. congruence.
Qed.

Lemma sort_sorted : forall l, StronglySorted by_distance (sort_by_distance l).
Proof.
  induction l as [|p l IH]; [constructor|]. now apply insert_sorted.
Qed.

Lemma Forall_sort (P : Q * Z -> Prop) : forall l,
  Forall P l -> Forall P (sort_by_distance l).
Proof.
  induction l as [|p l IH]; intros Hl; [constructor|].
  inversion Hl; subst. cbn [sort_by_distance fold_right].
  apply Forall_insert; [assumption|now apply IH].
Qed.

Lemma Forall_firstn_of {A} (P : A -> Prop) n (l : list A) :
  Forall P l -> Forall P (firstn n l).
Proof.
  rewrite !Forall_forall. intros H x Hx. apply H.
  rewrite <- (firstn_skipn n l). apply in_or_app. now left.
Qed.

Lemma combine_fst_snd {A B} : forall l : list (A * B),
  combine (map fst l) (map snd l) = l.
Proof.
  induction l as [|[a b] l IH]; [reflexivity|]. cbn. now rewrite IH.
Qed.

(** A search that returns gives [k] distances and [k] labels, the
    distances in non-decreasing order. *)
Lemma search_answer index query k D I0 :
  search index query k = Ok (D, I0) ->
  0 < k /\ Py.len D = k /\ Py.len I0 = k /\
  StronglySorted by_distance (combine D I0).
Proof.
  unfold search.
  destruct (Z.leb_spec k 0) as [|Hk]; [discriminate|].
  destruct (negb (Py.len query =? d index)); [discriminate|].
  set (found := firstn (Z.to_nat k) _).
  intros [= <- <-].
  assert (Hlen : (length found <= Z.to_nat k)%nat)
    by (subst found; apply firstn_le_length).
  split; [exact Hk|]. unfold Py.len.
  rewrite !length_map, length_app, repeat_length.
  split; [lia|]. split; [lia|].
  rewrite combine_fst_snd.
  apply sorted_app_repeat.
  - unfold by_distance. apply Qle_refl.
  - subst found. apply firstn_sorted, sort_sorted.
  - subst found. apply Forall_firstn_of, Forall_sort.
    apply Forall_forall. intros p Hp. apply filter_In in Hp as [_ Hp].
    unfold by_distance, Qlt_bool in *. cbn [fst].
    apply Qlt_le_weak, Qnot_le_lt. intros H.
    apply Qle_bool_iff in H. rewrite H in Hp. discriminate.
Qed.

(** An index without vectors answers only with the label -1. *)
Lemma search_empty index query k D I0 :
  xb index = [] ->
  search index query k = Ok (D, I0) ->
  I0 = repeat (-1) (Z.to_nat k).
Proof.
  intros Hxb. unfold search. rewrite Hxb.
  destruct (k <=? 0); [discriminate|].
  destruct (negb (Py.len query =? d index)); [discriminate|].
  cbn [score filter sort_by_distance fold_right].
  rewrite firstn_nil. cbn [app length]. rewrite Nat.sub_0_r.
  intros [= _ <-]. now rewrite map_repeat.
Qed.

End FaissFacts.

(** ** Index builds and searches *)

Module VectorStoreFacts.
Import VectorStore.

Section WithEmbedder.
Context {embedder : BaseEmbedder}.
Variable vector_store_path : string.

Local Abbreviation index_path := (get_vault_index_path vector_store_path).
Local Abbreviation build := (create_or_update_index vector_store_path).
Local Abbreviation search := (VectorStore.search vector_store_path).

Lemma resolve_entries database all_chunks : forall I0 acc results,
  resolve database all_chunks I0 acc = Ok results ->
  exists new,
    results = acc ++ new /\
    Forall2 (entry_of database all_chunks) new
            (filter (fun idx => idx <? Py.len all_chunks) I0).
Proof.
  induction I0 as [|idx rest IH]; intros acc results H; cbn [resolve] in H.
  - injection H as <-. exists []. split; [now rewrite app_nil_r|constructor].
  - cbn [filter]. destruct (idx <? Py.len all_chunks).
    + destruct (Py.index all_chunks idx) as [chunk|] eqn:Hidx;
        [|discriminate].
      destruct (IH _ _ H) as (new & -> & Hnew).
      exists (make_result database chunk :: new). split.
      * now rewrite <- app_assoc.
      * constructor; [|exact Hnew]. now exists chunk.
    + now apply IH.
Qed.

Lemma filter_combine_snd {A B} (f : B -> bool) : forall (D : list A) (I0 : list B),
  length D = length I0 ->
  map snd (filter (fun p => f (snd p)) (combine D I0)) = filter f I0.
Proof.
  induction D as [|a D IH]; intros [|b I0] Hlen; try discriminate;
    [reflexivity|].
  cbn [combine filter snd]. injection Hlen as Hlen.
  destruct (f b); cbn [map snd]; now rewrite IH.
Qed.

Lemma filter_none {A} : forall l : list A, filter (fun _ => false) l = [].
Proof. induction l as [|a l IH]; [reflexivity|exact IH]. Qed.

Lemma Forall2_map_r {A B C} (P : A -> C -> Prop) (g : B -> C) :
  forall l l', Forall2 P l (map g l') -> Forall2 (fun a b => P a (g b)) l l'.
Proof.
  induction l as [|a l IH]; intros [|b l'] H; inversion H; subst;
    constructor; auto.
Qed.


(** An index without vectors and no embedded chunk: the search, when
    it returns, returns the empty list. *)
Lemma search_empty_index_no_chunks w vault_id query top_k index results :
  index_files w (index_path vault_id) = Some index ->
  query_chunks (db w) vault_id true = [] ->
  search w vault_id query top_k = Ok results ->
  results = [].
Proof.
  intros Hidx Hnone. unfold VectorStore.search. rewrite Hidx, Hnone.
  destruct (embed_text query) as [qe|]; [|discriminate]. cbn [bind].
  destruct (Faiss.search index qe top_k) as [DI|]; [|discriminate].
  cbn [bind order_by_id fold_right]. congruence.
Qed.


(** C4, as the code has it. A search that returns gives at most [k]
    entries. Each entry holds the id, document id, content and sequence
    of a resolved chunk and the path and filename of its document
    ("Unknown" without one); it holds no distance. The entries stand, in
    order, for neighbours [kept] picked from the answer of the index
    without reordering, so their distances are non-decreasing. *)
Theorem search_at_most_k_nearest_first :
  forall w vault_id query top_k results,
    search w vault_id query top_k = Ok results ->
    Py.len results <= top_k /\
    exists index query_embedding D I0 keep,
      index_files w (index_path vault_id) = Some index /\
      embed_text query = Ok query_embedding /\
      Faiss.search index query_embedding top_k = Ok (D, I0) /\
      let kept := filter keep (combine D I0) in
      StronglySorted Faiss.by_distance kept /\
      Forall2
        (fun r n =>
           exists chunk,
             Py.index (order_by_id (query_chunks (db w) vault_id true))
                      (snd n) = Some chunk /\
             chunk_id r = Chunk.id chunk /\
             document_id r = Chunk.document_id chunk /\
             content r = Chunk.content chunk /\
             sequence r = Chunk.sequence chunk /\
             match query_document (db w) (Chunk.document_id chunk) with
             | Some doc => document_path r = Document.path doc /\
                           document_name r = Document.filename doc
             | None => document_path r = "Unknown"%string /\
                       document_name r = "Unknown"%string
             end)
        results kept.
Proof.
  intros w vault_id query top_k results. unfold VectorStore.search.
  destruct (index_files w (index_path vault_id)) as [index|] eqn:Hidx;
    [|discriminate].
  destruct (embed_text query) as [qe|] eqn:Hqe; [|discriminate].
  cbn [bind].
  destruct (Faiss.search index qe top_k) as [[D I0]|] eqn:Hsearch;
    [|discriminate].
  cbn [bind snd].
  destruct (FaissFacts.search_answer _ _ _ _ _ Hsearch)
    as (Hk & HD & HI & Hsorted).
  set (all_chunks := order_by_id (query_chunks (db w) vault_id true)).
  assert (Hempty : results = [] ->
    Py.len results <= top_k /\
    exists index0 query_embedding D0 I1 keep,
      Some index = Some index0 /\ Ok qe = Ok query_embedding /\
      Faiss.search index0 query_embedding top_k = Ok (D0, I1) /\
      let kept := filter keep (combine D0 I1) in
      StronglySorted Faiss.by_distance kept /\
      Forall2
        (fun r n =>
           exists chunk,
             Py.index all_chunks (snd n) = Some chunk /\
             chunk_id r = Chunk.id chunk /\
             document_id r = Chunk.document_id chunk /\
             content r = Chunk.content chunk /\
             sequence r = Chunk.sequence chunk /\
             match query_document (db w) (Chunk.document_id chunk) with
             | Some doc => document_path r = Document.path doc /\
                           document_name r = Document.filename doc
             | None => document_path r = "Unknown"%string /\
                       document_name r = "Unknown"%string
             end)
        results kept).
  { intros ->. split; [unfold Py.len; cbn [length]; lia|].
    exists index, qe, D, I0, (fun _ => false).
    repeat (split; [reflexivity || assumption|]).
    cbn zeta. replace (filter (fun _ => false) (combine D I0))
      with (@nil (Q * Z)).
    - split; constructor.
    - symmetry. apply filter_none. }
  destruct all_chunks as [|c0 cs] eqn:Hall.
  { intros [= <-]. now apply Hempty. }
  destruct (Py.len I0 =? 0).
  { intros [= <-]. now apply Hempty. }
  rewrite <- Hall. clear Hempty. intros Hres.
  apply resolve_entries in Hres as (new & -> & Hnew). cbn [app] in *.
  assert (Hlen : length D = length I0) by (unfold Py.len in *; lia).
  split.
  - apply Forall2_length in Hnew.
    pose proof (filter_length_le (fun idx => idx <? Py.len all_chunks) I0).
    unfold Py.len in *. rewrite Hall in *. lia.
  - exists index, qe, D, I0, (fun p => snd p <? Py.len all_chunks).
    repeat (split; [reflexivity || assumption|]).
    cbn zeta. split; [now apply FaissFacts.filter_sorted|].
    rewrite <- (filter_combine_snd (fun idx => idx <? Py.len all_chunks)
                  D I0 Hlen) in Hnew.
    apply Forall2_map_r in Hnew.
    eapply Forall2_impl; [|exact Hnew].
    intros r n (chunk & Hchunk & ->). exists chunk.
    split; [exact Hchunk|]. unfold make_result. cbn.
    destruct (query_document (db w) (Chunk.document_id chunk));
      repeat split.
Qed.

(** C8. With every chunk of an existing vault already embedded, the
    build returns the counts 0 and 0 and the world it was given: no
    index file is written and none changes. *)
Theorem no_pending_chunks_no_write : forall w vault_id vault,
  query_vault (db w) vault_id = Some vault ->
  (forall c, In c (chunks (db w)) ->
             joins_vault (db w) vault_id c = true ->
             Chunk.embedding_stored c = true) ->
  exists stats w',
    build w vault_id = Ok (stats, w') /\
    chunks_processed stats = 0 /\ vectors_added stats = 0 /\
    w' = w /\ (forall p, index_files w' p = index_files w p).
Proof.
  intros w vault_id vault Hvault Hall.
  assert (Hnone : query_chunks (db w) vault_id false = []).
  { unfold query_chunks.
    induction (chunks (db w)) as [|c l IH]; [reflexivity|].
    cbn [filter].
    destruct (joins_vault (db w) vault_id c) eqn:Hjoin.
    - rewrite (Hall c (or_introl eq_refl) Hjoin). cbn.
      apply IH. intros c' Hc'. apply Hall. now right.
    - cbn. apply IH. intros c' Hc'. apply Hall. now right. }
  unfold create_or_update_index. rewrite Hvault, Hnone.
  eexists _, w. repeat split.
Qed.

End WithEmbedder.

(** C1 fails. Chunk "b" is embedded by a first build and chunk "a" by
    a second one, so the index holds the vector of "b" at position 0
    and the vector of "a" at position 1. The query "zz" is nearest to
    position 0, at distance 0; the search orders the embedded chunks by
    id and resolves position 0 to chunk "a". *)
Theorem search_resolves_position_by_id_order :
  exists stats1 w1 stats2 w2,
    @create_or_update_index length_embedder "/store" world_0 "v1"
      = Ok (stats1, w1) /\
    @create_or_update_index length_embedder "/store"
        (with_chunk w1 (chunk_a false)) "v1" = Ok (stats2, w2) /\
    index_files w2 "/store/v1.index"
      = Some (Faiss.mkIndex 1 [length_vector "xx"; length_vector "yyyyy"]) /\
    Faiss.search (Faiss.mkIndex 1 [length_vector "xx"; length_vector "yyyyy"])
                 (length_vector "zz") 1 = Ok ([0%Q], [0]) /\
    order_by_id (query_chunks (db w2) "v1" true)
      = [chunk_a true; chunk_b true] /\
    @VectorStore.search length_embedder "/store" w2 "v1" "zz" 1
      = Ok [ make_result (db w2) (chunk_a true) ].
Proof.
  eexists _, _, _, _.
  split; [vm_compute; reflexivity|].
  split; [vm_compute; reflexivity|].
  repeat split.
Qed.

(** The rule of the data model is needed for the empty answer. In a
    store that breaks it (an index file without vectors next to a chunk
    marked embedded, which no build produces) the index answers with
    the label -1 twice, and the search returns the last chunk twice. *)
Example search_empty_index_returns_last_chunk :
  index_files world_empty_index (get_vault_index_path "/store" "v1")
    = Some (Faiss.IndexFlatL2 1) /\
  Faiss.ntotal (Faiss.IndexFlatL2 1) = 0 /\
  Faiss.search (Faiss.IndexFlatL2 1) (length_vector "zz") 2
    = Ok ([Faiss.FLT_MAX; Faiss.FLT_MAX], [-1; -1]) /\
  @VectorStore.search length_embedder "/store" world_empty_index "v1" "zz" 2
    = Ok [ make_result (db world_empty_index) (chunk_b true);
           make_result (db world_empty_index) (chunk_b true) ].
Proof. repeat split. Qed.

(** The same happens after an ordinary build whenever the index holds
    fewer than [k] vectors: the missing neighbours come back as the last
    chunk. *)
Example search_pads_with_last_chunk :
  @VectorStore.search length_embedder "/store" world_one_vector "v1" "zz" 2
    = Ok [ make_result (db world_one_vector) (chunk_b true);
           make_result (db world_one_vector) (chunk_b true) ].
Proof. reflexivity. Qed.

(** C4 fails on the distance: two queries at different distances from
    the only vector get the same entry, so no reading of an entry gives
    its distance. *)
Lemma search_entries_carry_no_distance :
  ~ exists distance_of,
      forall query, carries_distance distance_of world_one_vector "v1" query 1.
Proof.
  intros (f & H).
  destruct (H "qqq"%string) as (r1 & i1 & q1 & D1 & I1 & Hs1 & Hi1 & Hq1 & Hf1 & Ha1).
  destruct (H "qqqqq"%string) as (r2 & i2 & q2 & D2 & I2 & Hs2 & Hi2 & Hq2 & Hf2 & Ha2).
  vm_compute in Hs1, Hi1, Hq1, Hs2, Hi2, Hq2.
  injection Hs1 as <-. injection Hi1 as <-. injection Hq1 as <-.
  injection Hs2 as <-. injection Hi2 as <-. injection Hq2 as <-.
  vm_compute in Hf1, Hf2.
  injection Hf1 as <- <-. injection Hf2 as <- <-.
  inversion Ha1 as [|? ? ? ? E1 _]; subst.
  inversion Ha2 as [|? ? ? ? E2 _]; subst.
  rewrite E1 in E2. vm_compute in E2. discriminate E2.
Qed.


Lemma search_at_most_k_nearest_first_witness :
  Py.len [ make_result (db world_one_vector) (chunk_b true) ] <= 1 /\
  exists index query_embedding D I0 keep,
    index_files world_one_vector (get_vault_index_path "/store" "v1")
      = Some index /\
    @embed_text length_embedder "qqq" = Ok query_embedding /\
    Faiss.search index query_embedding 1 = Ok (D, I0) /\
    let kept := filter keep (combine D I0) in
    StronglySorted Faiss.by_distance kept /\
    Forall2
      (fun r n =>
         exists chunk,
           Py.index (order_by_id (query_chunks (db world_one_vector) "v1" true))
                    (snd n) = Some chunk /\
           chunk_id r = Chunk.id chunk /\
           document_id r = Chunk.document_id chunk /\
           content r = Chunk.content chunk /\
           sequence r = Chunk.sequence chunk /\
           match query_document (db world_one_vector)
                                (Chunk.document_id chunk) with
           | Some doc => document_path r = Document.path doc /\
                         document_name r = Document.filename doc
           | None => document_path r = "Unknown"%string /\
                     document_name r = "Unknown"%string
           end)
      [ make_result (db world_one_vector) (chunk_b true) ] kept.
Proof.
  apply (@search_at_most_k_nearest_first length_embedder "/store"
           world_one_vector "v1" "qqq" 1).
  reflexivity.
Defined.

Lemma no_pending_chunks_no_write_witness :
  exists stats w',
    @create_or_update_index length_embedder "/store" world_one_vector "v1"
      = Ok (stats, w') /\
    chunks_processed stats = 0 /\ vectors_added stats = 0 /\
    w' = world_one_vector /\
    (forall p, index_files w' p = index_files world_one_vector p).
Proof.
  apply (@no_pending_chunks_no_write length_embedder "/store"
           world_one_vector "v1" (Vault.mk "v1" "notes" "/v" true)).
  - reflexivity.
  - intros c [<- | []] _. reflexivity.
Defined.

End VectorStoreFacts.

(** ** More on slices *)

Module PyMoreFacts.
Section Seq.
Context {A : Type}.
Implicit Types l : list A.

(** A slice of a slice is a slice. *)
Lemma slice_slice l s e a b :
  0 <= s -> s <= e -> e <= Py.len l ->
  0 <= a -> a <= b -> b <= e - s ->
  Py.slice (Py.slice l s e) a b = Py.slice l (s + a) (s + b).
Proof.
  intros Hs Hse He Ha Hab Hb.
  rewrite (PyFacts.slice_inside (Py.slice l s e))
    by (rewrite ?PyFacts.slice_len; lia).
  rewrite !PyFacts.slice_inside by lia.
  rewrite skipn_firstn_comm, skipn_skipn, firstn_firstn.
  f_equal; [lia|]. f_equal. lia.
Qed.

End Seq.
End PyMoreFacts.

(** ** More on the chunker: when it loops, how many chunks, overlaps *)

Module ChunkerMoreFacts.
Import Chunker ChunkerStore.
Section WithChar.
Context {char : Type}.
Variable _calculate_hash : list char -> string.
Variable self : @Chunker.
Variable text : list char.
Variable doc : string.

Local Abbreviation S_ := (chunk_size self).
Local Abbreviation V_ := (chunk_overlap self).
Local Abbreviation L_ := (Py.len text).
Local Abbreviation loop := (create_chunks_loop _calculate_hash).
Local Abbreviation chunks_of := (chunks_of_windows _calculate_hash text doc).

(** With an overlap that is not smaller than the chunk size the start
    never passes the chunk size. *)
Lemma loop_stuck : forall fuel start n acc,
  S_ <= V_ -> Z.max S_ 0 < L_ -> start <= Z.max S_ 0 ->
  loop fuel self text doc start n acc = None.
Proof.
  induction fuel as [|fuel IH]; intros start n acc HVS HSL Hstart;
    [reflexivity|].
  cbn [create_chunks_loop].
  destruct (Z.ltb_spec start L_); [|lia].
  destruct (Z.ltb_spec 0 start); apply IH; lia.
Qed.

(** The loop numbers what it appends from [n] on, one by one. *)
Lemma loop_sequences : forall fuel start n acc out,
  loop fuel self text doc start n acc = Some out ->
  exists new,
    out = acc ++ new /\
    map sequence new = map (fun i => n + Z.of_nat i) (seq 0 (length new)) /\
    Forall (fun c => document_id c = doc) new /\
    (start < L_ -> new <> []).
Proof.
  induction fuel as [|fuel IH]; intros start n acc out H; [discriminate|].
  cbn [create_chunks_loop] in H.
  destruct (Z.ltb_spec start L_) as [Hlt|Hge].
  - destruct (0 <? start);
      apply IH in H as (new & -> & Hseq & Hdoc & _);
      (eexists (_ :: new); split; [now rewrite <- app_assoc|];
       split; [|split; [now constructor|discriminate]];
       cbn [map length seq sequence]; rewrite Hseq, <- seq_shift, map_map;
       f_equal; [lia|apply map_ext; intros i; lia]).
  - injection H as <-. exists []. split; [now rewrite app_nil_r|].
    repeat split; [constructor|lia].
Qed.

Lemma windows_after_count : forall e ws,
  0 <= V_ < S_ -> V_ < e <= L_ ->
  windows_after S_ V_ L_ e ws ->
  Z.of_nat (length ws) = (L_ - e + (S_ - V_) - 1) / (S_ - V_).
Proof.
  intros e ws HV He H.
  induction H as [e Hstop | e ws Hlt _ IH].
  - cbn [length]. symmetry. apply Z.div_small. lia.
  - cbn [length]. rewrite Nat2Z.inj_succ, IH by lia.
    destruct (Z.le_gt_cases (e - V_ + S_) L_) as [Hin|Hout].
    + rewrite Z.min_l by lia.
      replace (L_ - e + (S_ - V_) - 1)
        with (L_ - (e - V_ + S_) + (S_ - V_) - 1 + 1 * (S_ - V_)) by lia.
      rewrite Z.div_add by lia. lia.
    + rewrite Z.min_r by lia.
      rewrite (Z.div_small (L_ - L_ + (S_ - V_) - 1)) by lia.
      change (Z.succ 0) with 1.
      apply (Z.div_unique _ _ 1 (L_ - e - 1)); lia.
Qed.

Lemma windows_after_overlaps : forall e ws,
  0 <= V_ < S_ -> V_ < e <= L_ ->
  windows_after S_ V_ L_ e ws ->
  forall s n, 0 <= s -> s + V_ < e ->
    overlaps V_ (chunk_of_window _calculate_hash text doc n (s, e)
                 :: chunks_of (n + 1) ws).
Proof.
  intros e ws HV He H.
  induction H as [e Hstop | e ws Hlt _ IH]; intros s n Hs Hse.
  - exact I.
  - cbn [chunks_of_windows overlaps]. split.
    + cbn [chunk_of_window content fst snd].
      rewrite (PyFacts.slice_len text s e) by lia.
      rewrite !PyMoreFacts.slice_slice by lia.
      f_equal; lia.
    + apply IH; lia.
Qed.

Lemma create_chunks_never_returns_holds : forall fuel,
  S_ <= V_ -> S_ < L_ -> 0 < L_ ->
  _create_chunks _calculate_hash fuel self text doc = None.
Proof.
  intros fuel HVS HSL HL. unfold _create_chunks.
  destruct (Z.leb_spec L_ S_); [lia|].
  apply loop_stuck; lia.
Qed.

(** An overlap that is not smaller than the chunk size: a text longer
    than the chunk size is never chunked, the loop runs for ever. *)
Theorem create_chunks_never_returns : forall fuel,
  S_ <= V_ -> S_ < L_ -> 0 < L_ ->
  _create_chunks _calculate_hash fuel self text doc = None.
Proof. exact create_chunks_never_returns_holds. Qed.

(** A text longer than the chunk size gives
    [1 + ceil ((len - S) / (S - V))] chunks. *)
Theorem chunk_count : forall fuel,
  0 <= V_ < S_ -> S_ < L_ -> L_ < Z.of_nat fuel ->
  exists chunks,
    _create_chunks _calculate_hash fuel self text doc = Some chunks /\
    Py.len chunks = 1 + (L_ - S_ + (S_ - V_) - 1) / (S_ - V_).
Proof.
  intros fuel HV Hlong Hfuel.
  destruct (ChunkerFacts.create_chunks_long _calculate_hash self text doc
              fuel HV Hlong Hfuel) as (ws & (rest & -> & Hrest) & Hrun).
  eexists. split; [exact Hrun|].
  unfold Py.len. rewrite ChunkerFacts.length_chunks_of. cbn [length].
  rewrite Nat2Z.inj_succ.
  rewrite (windows_after_count (Z.min S_ L_) rest HV) by (assumption || lia).
  rewrite Z.min_l by lia. unfold Py.len. lia.
Qed.

(** Consecutive chunks of a long text overlap in exactly [V]
    characters. *)
Theorem chunks_overlap : forall fuel,
  0 <= V_ < S_ -> S_ < L_ -> L_ < Z.of_nat fuel ->
  exists chunks,
    _create_chunks _calculate_hash fuel self text doc = Some chunks /\
    overlaps V_ chunks.
Proof.
  intros fuel HV Hlong Hfuel.
  destruct (ChunkerFacts.create_chunks_long _calculate_hash self text doc
              fuel HV Hlong Hfuel) as (ws & (rest & -> & Hrest) & Hrun).
  eexists. split; [exact Hrun|].
  cbn [chunks_of_windows].
  apply (windows_after_overlaps (Z.min S_ L_)); try assumption; lia.
Qed.

(** Whatever the parameters, chunks that come back are numbered 0, 1,
    2, ... and carry the document id. *)
Lemma create_chunks_sequences : forall fuel chunks,
  _create_chunks _calculate_hash fuel self text doc = Some chunks ->
  map sequence chunks = map Z.of_nat (seq 0 (length chunks)) /\
  Forall (fun c => document_id c = doc) chunks /\
  (0 <= S_ -> chunks <> []).
Proof.
  intros fuel chunks. unfold _create_chunks.
  destruct (Z.leb_spec L_ S_) as [Hshort|Hlong].
  - intros [= <-]. repeat split; [repeat constructor|discriminate].
  - intros H. apply loop_sequences in H as (new & -> & Hseq & Hdoc & Hne).
    cbn [app]. split; [|split; [exact Hdoc|intros; apply Hne; lia]].
    rewrite Hseq. apply map_ext. intros i. lia.
Qed.

End WithChar.
End ChunkerMoreFacts.

(** ** Re-chunking a document *)

Module ChunkerStoreFacts.
Import Chunker ChunkerStore.

(** A chunker whose explicit size comes with no overlap, or with the
    overlap 0, takes the configured overlap; when that is not smaller
    than the size, a text longer than the size is never chunked. *)
Theorem default_overlap_can_loop :
  forall (hash : list ascii -> string) CHUNK_SIZE CHUNK_OVERLAP size overlap
         text doc fuel,
    size <> 0 -> overlap = None \/ overlap = Some 0 ->
    size <= CHUNK_OVERLAP -> size < Py.len text -> 0 < Py.len text ->
    _create_chunks hash fuel (init CHUNK_SIZE CHUNK_OVERLAP (Some size) overlap)
                   text doc = None.
Proof.
  intros hash CS CO size overlap text doc fuel Hsize Hoverlap Hle Hlong Hpos.
  assert (HS : chunk_size (init CS CO (Some size) overlap) = size).
  { unfold init, Py.or_default. cbn [chunk_size].
    destruct (Z.eqb_spec size 0); [contradiction|reflexivity]. }
  assert (HVd : chunk_overlap (init CS CO (Some size) overlap) = CO).
  { unfold init, Py.or_default. cbn [chunk_overlap].
    destruct Hoverlap as [-> | ->]; reflexivity. }
  apply ChunkerMoreFacts.create_chunks_never_returns_holds;
    rewrite ?HS, ?HVd; assumption.
Qed.

Section WithHash.
Variable _calculate_hash : list ascii -> string.
Variable uuid4 : nat -> string.

Local Abbreviation flush := (ChunkerStore.flush uuid4).
Local Abbreviation process_document :=
  (ChunkerStore.process_document _calculate_hash uuid4).

Lemma flush_columns : forall cs n,
  map Chunk.document_id (flush n cs) = map document_id cs /\
  map Chunk.sequence (flush n cs) = map sequence cs /\
  map Chunk.content (flush n cs)
    = map (fun c => string_of_list_ascii (content c)) cs /\
  Forall (fun r => Chunk.embedding_stored r = false) (flush n cs) /\
  length (flush n cs) = length cs.
Proof.
  induction cs as [|c cs IH]; intros n; cbn [ChunkerStore.flush map length].
  - repeat split. constructor.
  - destruct (IH (S n)) as (H1 & H2 & H3 & H4 & H5).
    rewrite H1, H2, H3, H5. repeat split. now constructor.
Qed.

Lemma filter_all {A} (f : A -> bool) : forall l,
  Forall (fun x => f x = true) l -> filter f l = l.
Proof.
  induction l as [|a l IH]; intros H; [reflexivity|].
  inversion H; subst. cbn [filter]. rewrite H2. f_equal. now apply IH.
Qed.

Lemma filter_nothing {A} (f : A -> bool) : forall l,
  Forall (fun x => f x = false) l -> filter f l = [].
Proof.
  induction l as [|a l IH]; intros H; [reflexivity|].
  inversion H; subst. cbn [filter]. rewrite H2. now apply IH.
Qed.

Lemma filter_filter_neg {A} (f : A -> bool) : forall l,
  filter f (filter (fun x => negb (f x)) l) = [] /\
  filter (fun x => negb (f x)) (filter (fun x => negb (f x)) l)
    = filter (fun x => negb (f x)) l.
Proof.
  induction l as [|a l [IH1 IH2]]; [split; reflexivity|].
  cbn [filter]. destruct (f a) eqn:Hf; cbn [negb filter]; rewrite ?Hf;
    cbn [negb]; rewrite ?IH1, ?IH2; split; reflexivity.
Qed.

(** Processing a document replaces its chunk set wholesale: afterwards
    its rows are exactly the returned ones, numbered 0, 1, 2, ... and
    none of them marked embedded, whatever was stored before; the rows
    of every other document, the documents and the vaults are as they
    were. With a chunk size that is not negative there is at least one
    row. *)
Theorem process_document_replaces_chunks :
  forall fuel self w document_id rows w',
    process_document fuel self w document_id = Returns (rows, w') ->
    filter (fun c => String.eqb (Chunk.document_id c) document_id)
           (chunks (VaultManager.db w')) = rows /\
    filter (fun c => negb (String.eqb (Chunk.document_id c) document_id))
           (chunks (VaultManager.db w'))
      = filter (fun c => negb (String.eqb (Chunk.document_id c) document_id))
               (chunks (VaultManager.db w)) /\
    map Chunk.sequence rows = map Z.of_nat (seq 0 (length rows)) /\
    Forall (fun r => Chunk.embedding_stored r = false) rows /\
    (0 <= chunk_size self -> rows <> []) /\
    vaults (VaultManager.db w') = vaults (VaultManager.db w) /\
    documents (VaultManager.db w') = documents (VaultManager.db w).
Proof.
  intros fuel self w d rows w'. unfold ChunkerStore.process_document.
  destruct (query_document (VaultManager.db w) d) as [document|];
    [|discriminate].
  destruct (query_vault _ _) as [vault|]; [|discriminate].
  destruct (VaultManager.read_text _ _) as [content|]; [|discriminate].
  destruct (_create_chunks _ _ _ _ _) as [cs|] eqn:Hchunks;
    [|discriminate].
  intros [= <- <-]. cbn [VaultManager.db chunks vaults documents].
  destruct (ChunkerMoreFacts.create_chunks_sequences _ _ _ _ _ _ Hchunks)
    as (Hseq & Hdoc & Hne).
  destruct (flush_columns cs (VaultManager.drawn w))
    as (Hd & Hs & _ & He & Hl).
  assert (Hrows : Forall (fun r => (Chunk.document_id r =? d)%string = true)
                         (flush (VaultManager.drawn w) cs)).
  { apply Forall_forall. intros r Hr.
    apply (in_map Chunk.document_id) in Hr. rewrite Hd in Hr.
    apply in_map_iff in Hr as (c & <- & Hc).
    rewrite Forall_forall in Hdoc. rewrite (Hdoc c Hc).
    apply String.eqb_refl. }
  unfold delete_chunks. rewrite !filter_app.
  destruct (filter_filter_neg
              (fun c => (Chunk.document_id c =? d)%string)
              (chunks (VaultManager.db w))) as [-> ->].
  rewrite (filter_all _ _ Hrows).
  rewrite (filter_nothing (fun c => negb (Chunk.document_id c =? d)%string)
             (flush (VaultManager.drawn w) cs)).
  - rewrite app_nil_r. cbn [app]. rewrite Hs, Hl.
    repeat split; try assumption.
    intros HS Hnil. apply (Hne HS).
    destruct cs; [reflexivity|discriminate].
  - eapply Forall_impl; [|exact Hrows]. cbn. intros r ->. reflexivity.
Qed.

(** With an overlap below the chunk size, a known document with a known
    vault and a readable file is processed to the end, and the stored
    rows put together again, each later row without its first [V]
    characters, are the content of the file. *)
Theorem process_document_stores_file :
  forall fuel self w document_id document vault content,
    query_document (VaultManager.db w) document_id = Some document ->
    query_vault (VaultManager.db w) (Document.vault_id document)
      = Some vault ->
    VaultManager.read_text (VaultManager.fs w) (full_path vault document)
      = Some content ->
    0 <= chunk_overlap self < chunk_size self ->
    Z.of_nat (String.length content) < Z.of_nat fuel ->
    exists rows w',
      process_document fuel self w document_id = Returns (rows, w') /\
      reassemble_rows (chunk_overlap self) rows = content.
Proof.
  intros fuel self w d document vault content Hdoc Hvault Hread HV Hfuel.
  unfold ChunkerStore.process_document. rewrite Hdoc, Hvault, Hread.
  set (text := list_ascii_of_string content).
  assert (Hlen : Py.len text = Z.of_nat (String.length content)).
  { unfold Py.len, text. clear. induction content as [|a s IH];
      [reflexivity|]. cbn [list_ascii_of_string length String.length].
    now rewrite !Nat2Z.inj_succ, IH. }
  assert (Hback : forall cs,
    reassemble_rows (chunk_overlap self)
                    (flush (VaultManager.drawn w) cs)
    = string_of_list_ascii (reassemble (chunk_overlap self) cs)).
  { intros [|c cs]; [reflexivity|].
    cbn [ChunkerStore.flush reassemble_rows reassemble Chunk.content].
    rewrite list_ascii_of_string_of_list_ascii. do 2 f_equal.
    generalize (S (VaultManager.drawn w)).
    induction cs as [|c' cs IH]; intros n; [reflexivity|].
    cbn [ChunkerStore.flush flat_map Chunk.content].
    rewrite list_ascii_of_string_of_list_ascii. f_equal. apply IH. }
  destruct (Z.le_gt_cases (Py.len text) (chunk_size self)) as [Hshort|Hlong].
  - unfold _create_chunks. destruct (Z.leb_spec (Py.len text) (chunk_size self));
      [|lia].
    eexists _, _. split; [reflexivity|].
    rewrite Hback. cbn [reassemble flat_map Chunker.content]. rewrite app_nil_r.
    apply string_of_list_ascii_of_string.
  - destruct (ChunkerFacts.chunks_reassemble _calculate_hash self text d fuel)
      as (cs & -> & _ & Hre); [assumption|lia|lia|].
    eexists _, _. split; [reflexivity|].
    rewrite Hback, Hre. apply string_of_list_ascii_of_string.
Qed.

End WithHash.

Lemma create_chunks_never_returns_witness :
  _create_chunks demo_chunk_hash 1000 (mkChunker 4 4) demo_text "d1" = None.
Proof.
  apply (ChunkerMoreFacts.create_chunks_never_returns demo_chunk_hash
           (mkChunker 4 4) demo_text "d1" 1000).
  - cbn. lia.
  - vm_compute. reflexivity.
  - vm_compute. reflexivity.
Defined.

Lemma chunk_count_witness :
  exists cs,
    _create_chunks demo_chunk_hash 11 demo_chunker demo_text "d1" = Some cs /\
    Py.len cs
    = 1 + (Py.len demo_text - chunk_size demo_chunker
           + (chunk_size demo_chunker - chunk_overlap demo_chunker) - 1)
          / (chunk_size demo_chunker - chunk_overlap demo_chunker).
Proof.
  apply (ChunkerMoreFacts.chunk_count demo_chunk_hash demo_chunker
           demo_text "d1" 11).
  - cbn. lia.
  - vm_compute. reflexivity.
  - vm_compute. reflexivity.
Defined.

Lemma chunks_overlap_witness :
  exists cs,
    _create_chunks demo_chunk_hash 11 demo_chunker demo_text "d1" = Some cs /\
    overlaps (chunk_overlap demo_chunker) cs.
Proof.
  apply (ChunkerMoreFacts.chunks_overlap demo_chunk_hash demo_chunker
           demo_text "d1" 11).
  - cbn. lia.
  - vm_compute. reflexivity.
  - vm_compute. reflexivity.
Defined.

Lemma default_overlap_can_loop_witness :
  _create_chunks demo_chunk_hash 5000 (init 1000 200 (Some 100) None)
                 (repeat "a"%char 150) "d1" = None.
Proof.
  apply (default_overlap_can_loop demo_chunk_hash 1000 200 100 None
           (repeat "a"%char 150) "d1" 5000).
  - discriminate.
  - left. reflexivity.
  - lia.
  - vm_compute. reflexivity.
  - vm_compute. reflexivity.
Defined.

Lemma process_document_replaces_chunks_witness :
  filter (fun c => String.eqb (Chunk.document_id c) "d1")
         (chunks (VaultManager.db demo_world_after)) = demo_rows /\
  filter (fun c => negb (String.eqb (Chunk.document_id c) "d1"))
         (chunks (VaultManager.db demo_world_after))
    = filter (fun c => negb (String.eqb (Chunk.document_id c) "d1"))
             (chunks (VaultManager.db demo_world)) /\
  map Chunk.sequence demo_rows = map Z.of_nat (seq 0 (length demo_rows)) /\
  Forall (fun r => Chunk.embedding_stored r = false) demo_rows /\
  (0 <= chunk_size demo_chunker -> demo_rows <> []) /\
  vaults (VaultManager.db demo_world_after)
    = vaults (VaultManager.db demo_world) /\
  documents (VaultManager.db demo_world_after)
    = documents (VaultManager.db demo_world).
Proof.
  apply (process_document_replaces_chunks demo_chunk_hash
           VaultManager.demo_uuid4 11 demo_chunker demo_world "d1").
  vm_compute. reflexivity.
Defined.

Lemma process_document_stores_file_witness :
  exists rows w',
    ChunkerStore.process_document demo_chunk_hash VaultManager.demo_uuid4
      11 demo_chunker demo_world "d1" = Returns (rows, w') /\
    reassemble_rows (chunk_overlap demo_chunker) rows = "alpha"%string.
Proof.
  apply (process_document_stores_file demo_chunk_hash VaultManager.demo_uuid4
           11 demo_chunker demo_world "d1"
           (Document.mk "d1" "v1" "a.md" "a.md" "#alpha")
           (Vault.mk "v1" "notes" "/v" false)).
  - reflexivity.
  - reflexivity.
  - reflexivity.
  - cbn. lia.
  - vm_compute. reflexivity.
Defined.

End ChunkerStoreFacts.

(** ** The batch contract of the two embedders *)

Module EmbedderBatchFacts.
Import OpenAIEmbedder.

Section WithSpace.
Variable isspace : ascii -> bool.

Local Abbreviation nonblank := (strip_nonempty isspace).
Local Abbreviation non_empty_from := (OpenAIEmbedder.non_empty_from isspace).
Local Abbreviation aligned := (LocalEmbedder.aligned isspace).

Lemma non_empty_texts_filter : forall texts i,
  fst (non_empty_from i texts) = filter nonblank texts.
Proof.
  induction texts as [|t ts IH]; intros i; [reflexivity|].
  cbn [OpenAIEmbedder.non_empty_from filter]. specialize (IH (i + 1)).
  destruct (non_empty_from (i + 1) ts) as [ne ix]. cbn [fst] in IH.
  destruct (nonblank t); cbn [fst]; now rewrite IH.
Qed.

Lemma index_of_skipn {A} (data : list A) j :
  0 <= j ->
  Py.index data j = hd_error (skipn (Z.to_nat j) data).
Proof.
  intros Hj. unfold Py.index. destruct (Z.ltb_spec j 0); [lia|].
  generalize (Z.to_nat j). clear. intros n. revert data.
  induction n as [|n IH]; intros [|a data]; try reflexivity. apply IH.
Qed.

Lemma skipn_succ {A} (data : list A) n :
  skipn (S n) data = tl (skipn n data).
Proof.
  revert data. induction n as [|n IH]; intros [|a data]; try reflexivity.
  cbn [skipn] in *. apply IH.
Qed.

Lemma set_item_middle {A} (pre post : list A) (old v : A) :
  Py.set_item (pre ++ old :: post) (Py.len pre) v = Some (pre ++ v :: post).
Proof.
  assert (E1 : (Z.of_nat (length pre) <? 0) = false)
    by (apply Z.ltb_ge; lia).
  assert (E2 : (Z.of_nat (length (pre ++ old :: post))
                <=? Z.of_nat (length pre)) = false)
    by (apply Z.leb_gt; rewrite length_app; cbn [length]; lia).
  unfold Py.set_item, Py.len. cbv zeta. rewrite !E1, E2. cbn [orb].
  rewrite Nat2Z.id. f_equal.
  rewrite firstn_app, firstn_all, Nat.sub_diag. cbn [firstn].
  rewrite app_nil_r. f_equal.
  replace (S (length pre)) with (length pre + 1)%nat by lia.
  rewrite skipn_app, skipn_all2 by lia.
  replace (length pre + 1 - length pre)%nat with 1%nat by lia.
  reflexivity.
Qed.

(** The second loop on zero vectors: with enough rows in the answer it
    builds the aligned list, with too few it fails. *)
Lemma fill_aligned dimension data : forall texts pre i j,
  i = Py.len pre -> 0 <= j ->
  fill (pre ++ map (fun _ => zeros dimension) texts) j
       (snd (non_empty_from i texts)) data
  = if (length (filter nonblank texts)
        <=? length (skipn (Z.to_nat j) data))%nat
    then Some (pre ++ aligned dimension texts (skipn (Z.to_nat j) data))
    else None.
Proof.
  induction texts as [|t ts IH]; intros pre i j Hi Hj.
  - cbn. reflexivity.
  - cbn [OpenAIEmbedder.non_empty_from map filter LocalEmbedder.aligned].
    pose proof (IH (pre ++ [zeros dimension]) (i + 1) j) as IHblank.
    destruct (non_empty_from (i + 1) ts) as [ne ix] eqn:Hnef.
    cbn [snd] in *.
    destruct (nonblank t) eqn:Ht; cbn [snd].
    + cbn [fill]. rewrite index_of_skipn by assumption.
      destruct (skipn (Z.to_nat j) data) as [|v rest] eqn:Hskip;
        cbn [hd_error length].
      * reflexivity.
      * subst i. rewrite set_item_middle.
        pose proof (IH (pre ++ [v]) (Py.len pre + 1) (j + 1)) as IHv.
        rewrite Hnef in IHv. cbn [snd] in IHv.
        rewrite <- app_assoc in IHv. cbn [app] in IHv.
        rewrite IHv.
        -- replace (Z.to_nat (j + 1)) with (S (Z.to_nat j)) by lia.
           rewrite skipn_succ, Hskip. cbn [tl].
           change (S (length (filter nonblank ts)) <=? S (length rest))%nat
             with (length (filter nonblank ts) <=? length rest)%nat.
           destruct (length (filter nonblank ts) <=? length rest)%nat;
             [|reflexivity].
           now rewrite <- app_assoc.
        -- unfold Py.len. rewrite length_app. cbn [length]. lia.
        -- lia.
    + rewrite <- app_assoc in IHblank. cbn [app] in IHblank.
      rewrite IHblank.
      * destruct (length (filter nonblank ts)
                  <=? length (skipn (Z.to_nat j) data))%nat; [|reflexivity].
        now rewrite <- app_assoc.
      * subst i. unfold Py.len. rewrite length_app. cbn [length]. lia.
      * assumption.
Qed.

Lemma filter_blank : forall texts,
  Forall (fun t => nonblank t = false) texts -> filter nonblank texts = [].
Proof.
  induction texts as [|t ts IH]; intros H; [reflexivity|].
  inversion H; subst. cbn [filter]. rewrite H2. now apply IH.
Qed.

Section WithProvider.
Variable provider : Provider.

Local Abbreviation embed_text := (OpenAIEmbedder.embed_text isspace provider).
Local Abbreviation embed_batch := (OpenAIEmbedder.embed_batch isspace provider).

(** What [embed_batch] does once it has non-blank texts and the
    provider has answered. *)
Lemma embed_batch_answered self texts data tr :
  filter nonblank texts <> [] ->
  provider (calls tr) (Batch (filter nonblank texts)) = Some data ->
  embed_batch self texts tr
  = (if (length (filter nonblank texts) <=? length data)%nat
     then aligned (embedding_dimension self) texts data
     else map (fun _ => zeros (embedding_dimension self)) texts,
     tr ++ [Create (Batch (filter nonblank texts))]).
Proof.
  intros Hne Hdata. unfold OpenAIEmbedder.embed_batch.
  destruct texts as [|t ts]; [contradiction|].
  pose proof (non_empty_texts_filter (t :: ts) 0) as Hfst.
  pose proof (fill_aligned (embedding_dimension self) data (t :: ts) [] 0 0
                eq_refl (Z.le_refl 0)) as Hfill.
  destruct (non_empty_from 0 (t :: ts)) as [ne ix]. cbn [fst snd] in *.
  subst ne. destruct (filter nonblank (t :: ts)) as [|n ns] eqn:Hf;
    [contradiction|].
  unfold create. rewrite Hdata. unfold zero_vectors.
  cbn [app skipn Z.to_nat] in Hfill. rewrite Hfill.
  destruct (length (n :: ns) <=? length data)%nat; reflexivity.
Qed.

(** Blank input never reaches the provider: a blank text, and every
    text of a batch of blank texts, comes back as the zero vector of the
    embedding dimension, and nothing is sent. *)
Theorem blank_input_stays_local : forall self text texts tr,
  nonblank text = false ->
  Forall (fun t => nonblank t = false) texts ->
  embed_text self text tr = (zeros (embedding_dimension self), tr) /\
  embed_batch self texts tr
    = (map (fun _ => zeros (embedding_dimension self)) texts, tr).
Proof.
  intros self text texts tr Htext Htexts. split.
  - unfold OpenAIEmbedder.embed_text. now rewrite Htext.
  - unfold OpenAIEmbedder.embed_batch.
    destruct texts as [|t ts]; [reflexivity|].
    pose proof (non_empty_texts_filter (t :: ts) 0) as Hfst.
    rewrite (filter_blank _ Htexts) in Hfst.
    destruct (non_empty_from 0 (t :: ts)) as [ne ix]. cbn [fst] in Hfst.
    now subst ne.
Qed.

Lemma embed_batch_aligned_holds : forall self texts data tr,
  filter nonblank texts <> [] ->
  provider (calls tr) (Batch (filter nonblank texts)) = Some data ->
  (length (filter nonblank texts) <= length data)%nat ->
  embed_batch self texts tr
  = (aligned (embedding_dimension self) texts data,
     tr ++ [Create (Batch (filter nonblank texts))]).
Proof.
  intros self texts data tr Hne Hdata Hlen.
  rewrite (embed_batch_answered self texts data tr Hne Hdata).
  apply Nat.leb_le in Hlen. now rewrite Hlen.
Qed.

(** A batch the provider answers with at least one vector per
    non-blank text comes back aligned with the input: zero vectors at
    the blank texts, the provider's vectors, in order, at the others;
    vectors beyond the last non-blank text are ignored. *)
Theorem embed_batch_aligned : forall self texts data tr,
  filter nonblank texts <> [] ->
  provider (calls tr) (Batch (filter nonblank texts)) = Some data ->
  (length (filter nonblank texts) <= length data)%nat ->
  embed_batch self texts tr
  = (aligned (embedding_dimension self) texts data,
     tr ++ [Create (Batch (filter nonblank texts))]).
Proof. exact embed_batch_aligned_holds. Qed.

(** A batch the provider answers with fewer vectors than non-blank
    texts is thrown away whole: every text comes back as the zero
    vector, also those the provider did answer. *)
Theorem embed_batch_short_answer : forall self texts data tr,
  provider (calls tr) (Batch (filter nonblank texts)) = Some data ->
  (length data < length (filter nonblank texts))%nat ->
  embed_batch self texts tr
  = (map (fun _ => zeros (embedding_dimension self)) texts,
     tr ++ [Create (Batch (filter nonblank texts))]).
Proof.
  intros self texts data tr Hdata Hlen.
  rewrite (embed_batch_answered self texts data tr); [|
    intros E; rewrite E in Hlen; cbn in Hlen; lia | exact Hdata].
  apply Nat.leb_gt in Hlen. now rewrite Hlen.
Qed.

(** The provider is contacted at most twice for a text, with a pause of
    two seconds between the two calls and nowhere else, and at most
    once for a batch, with no pause. *)
Theorem provider_call_budget : forall self text texts tr,
  (snd (embed_text self text tr) = tr \/
   snd (embed_text self text tr) = tr ++ [Create (Single text)] \/
   snd (embed_text self text tr)
     = tr ++ [Create (Single text); Sleep 2; Create (Single text)]) /\
  (snd (embed_batch self texts tr) = tr \/
   snd (embed_batch self texts tr)
     = tr ++ [Create (Batch (filter nonblank texts))]).
Proof.
  intros self text texts tr. split.
  - unfold OpenAIEmbedder.embed_text, create, sleep.
    destruct (negb (nonblank text)); [now left|].
    destruct (first_embedding (provider (calls tr) (Single text)));
      [right; now left|].
    destruct (first_embedding _); right; right; cbn [snd];
      now rewrite <- !app_assoc.
  - unfold OpenAIEmbedder.embed_batch, create.
    destruct texts as [|t ts]; [now left|].
    pose proof (non_empty_texts_filter (t :: ts) 0) as Hfst.
    destruct (non_empty_from 0 (t :: ts)) as [ne ix]. cbn [fst] in Hfst.
    subst ne. destruct (filter nonblank (t :: ts)) as [|n ns];
      [now left|].
    destruct (provider (calls tr) (Batch (n :: ns))) as [data|];
      [|now right].
    destruct (fill _ _ _ _); now right.
Qed.

End WithProvider.

Section WithModel.
Variable encode_text : string -> result vector.
Variable encode_texts : list string -> result (list vector).

Local Abbreviation local_embed_batch :=
  (LocalEmbedder.embed_batch isspace encode_texts).

Lemma local_embed_batch_contract_holds : forall self texts,
  local_embed_batch self texts
  = match filter nonblank texts with
    | [] =>
        Ok (map (fun _ => zeros (LocalEmbedder.embedding_dimension self))
                texts)
    | non_empty_texts =>
        match encode_texts non_empty_texts with
        | Raise e => Raise e
        | Ok data =>
            if (length non_empty_texts <=? length data)%nat
            then Ok (aligned (LocalEmbedder.embedding_dimension self)
                             texts data)
            else Raise IndexError
        end
    end.
Proof.
  intros self texts. unfold LocalEmbedder.embed_batch.
  destruct texts as [|t ts]; [reflexivity|].
  pose proof (non_empty_texts_filter (t :: ts) 0) as Hfst.
  destruct (non_empty_from 0 (t :: ts)) as [ne ix] eqn:Hnef.
  cbn [fst] in Hfst. subst ne.
  destruct (filter nonblank (t :: ts)) as [|n ns] eqn:Hf; [reflexivity|].
  destruct (encode_texts (n :: ns)) as [data|e]; [|reflexivity].
  cbn [bind].
  pose proof (fill_aligned (LocalEmbedder.embedding_dimension self) data
                (t :: ts) [] 0 0 eq_refl (Z.le_refl 0)) as Hfill.
  rewrite Hnef, Hf in Hfill. cbn [snd app skipn Z.to_nat] in Hfill.
  rewrite Hfill.
  destruct (length (n :: ns) <=? length data)%nat; reflexivity.
Qed.

(** The local embedder answers a batch like the OpenAI one when its
    model answers, but it has no [try]: an exception of the model, and
    an answer with fewer rows than non-blank texts, abort the batch. *)
Theorem local_embed_batch_contract : forall self texts,
  local_embed_batch self texts
  = match filter nonblank texts with
    | [] =>
        Ok (map (fun _ => zeros (LocalEmbedder.embedding_dimension self))
                texts)
    | non_empty_texts =>
        match encode_texts non_empty_texts with
        | Raise e => Raise e
        | Ok data =>
            if (length non_empty_texts <=? length data)%nat
            then Ok (aligned (LocalEmbedder.embedding_dimension self)
                             texts data)
            else Raise IndexError
        end
    end.
Proof. exact local_embed_batch_contract_holds. Qed.

(** The two embedders honour the same batch contract: given the same
    answer, long enough, from the provider and from the model, they
    return the same vectors. *)
Theorem embedders_agree : forall provider openai local texts data tr,
  embedding_dimension openai = LocalEmbedder.embedding_dimension local ->
  filter nonblank texts <> [] ->
  provider (calls tr) (Batch (filter nonblank texts)) = Some data ->
  encode_texts (filter nonblank texts) = Ok data ->
  (length (filter nonblank texts) <= length data)%nat ->
  local_embed_batch local texts
  = Ok (fst (OpenAIEmbedder.embed_batch isspace provider openai texts tr)).
Proof.
  intros provider openai local texts data tr Hdim Hne Hprov Hmodel Hlen.
  rewrite (embed_batch_aligned_holds provider openai texts data tr Hne Hprov Hlen).
  rewrite local_embed_batch_contract_holds, Hdim.
  destruct (filter nonblank texts) as [|n ns]; [contradiction|].
  cbv zeta. rewrite Hmodel. apply Nat.leb_le in Hlen. now rewrite Hlen.
Qed.

End WithModel.
End WithSpace.

Lemma blank_input_stays_local_witness :
  OpenAIEmbedder.embed_text ascii_isspace flaky (mkEmbedder 2) "  " []
    = (zeros 2, []) /\
  OpenAIEmbedder.embed_batch ascii_isspace flaky (mkEmbedder 2)
                             [" "; ""]%string []
    = (map (fun _ => zeros 2) [" "; ""]%string, []).
Proof.
  apply (blank_input_stays_local ascii_isspace flaky (mkEmbedder 2) "  "
           [" "; ""]%string []).
  - reflexivity.
  - repeat constructor.
Defined.

Lemma embed_batch_aligned_witness :
  OpenAIEmbedder.embed_batch ascii_isspace LocalEmbedder.steady
                             (mkEmbedder 1) ["a"; " "; "bb"]%string []
  = (LocalEmbedder.aligned ascii_isspace 1 ["a"; " "; "bb"]%string
                           [[1%Q]; [2%Q]],
     [] ++ [Create (Batch (filter (strip_nonempty ascii_isspace)
                                  ["a"; " "; "bb"]%string))]).
Proof.
  apply (embed_batch_aligned ascii_isspace LocalEmbedder.steady
           (mkEmbedder 1) ["a"; " "; "bb"]%string [[1%Q]; [2%Q]] []).
  - discriminate.
  - reflexivity.
  - vm_compute. lia.
Defined.

Lemma embed_batch_short_answer_witness :
  OpenAIEmbedder.embed_batch ascii_isspace LocalEmbedder.terse
                             (mkEmbedder 1) ["a"; " "; "bb"]%string []
  = (map (fun _ => zeros 1) ["a"; " "; "bb"]%string,
     [] ++ [Create (Batch (filter (strip_nonempty ascii_isspace)
                                  ["a"; " "; "bb"]%string))]).
Proof.
  apply (embed_batch_short_answer ascii_isspace LocalEmbedder.terse
           (mkEmbedder 1) ["a"; " "; "bb"]%string [[7%Q]] []).
  - reflexivity.
  - vm_compute. lia.
Defined.

Lemma embedders_agree_witness :
  LocalEmbedder.embed_batch ascii_isspace LocalEmbedder.demo_encode_texts
                            (LocalEmbedder.mkEmbedder 1)
                            ["a"; " "; "bb"]%string
  = Ok (fst (OpenAIEmbedder.embed_batch ascii_isspace LocalEmbedder.steady
               (mkEmbedder 1) ["a"; " "; "bb"]%string [])).
Proof.
  apply (embedders_agree ascii_isspace LocalEmbedder.demo_encode_texts
           LocalEmbedder.steady (mkEmbedder 1) (LocalEmbedder.mkEmbedder 1)
           ["a"; " "; "bb"]%string [[1%Q]; [2%Q]] []).
  - reflexivity.
  - discriminate.
  - reflexivity.
  - reflexivity.
  - vm_compute. lia.
Defined.

End EmbedderBatchFacts.

(** ** The labels of an index search *)

Module FaissMoreFacts.
Import Faiss.

Lemma score_labels query : forall xs i,
  0 <= i ->
  Forall (fun p => i <= snd p < i + Py.len xs) (score query i xs).
Proof.
  induction xs as [|x xs IH]; intros i Hi; [constructor|].
  cbn [score]. unfold Py.len in *. cbn [length].
  constructor; [cbn [snd]; lia|].
  eapply Forall_impl; [|apply (IH (i + 1)); lia].
  cbn beta. intros p Hp. lia.
Qed.

(** Every label of an answer is the position of a stored vector, or
    -1. *)
Lemma search_labels index query k D I0 :
  search index query k = Ok (D, I0) ->
  Forall (fun i => i = -1 \/ 0 <= i < ntotal index) I0.
Proof.
  unfold search.
  destruct (k <=? 0); [discriminate|].
  destruct (negb (Py.len query =? d index)); [discriminate|].
  intros [= _ <-]. rewrite map_app, map_repeat. apply Forall_app. split.
  - apply Forall_map. apply FaissFacts.Forall_firstn_of, FaissFacts.Forall_sort.
    apply Forall_forall. intros p Hp. apply filter_In in Hp as [Hp _].
    pose proof (score_labels query (xb index) 0 (Z.le_refl 0)) as Hall.
    rewrite Forall_forall in Hall. specialize (Hall p Hp).
    right. unfold ntotal. lia.
  - apply Forall_forall. intros i Hi. apply repeat_spec in Hi. now left.
Qed.

End FaissMoreFacts.

(** ** More on builds and searches *)

Module VectorStoreMoreFacts.
Import VectorStore VectorStoreViews.

Lemma stored_id c : Chunk.id (stored c) = Chunk.id c.
Proof. reflexivity. Qed.

Lemma stored_twice c : stored (stored c) = stored c.
Proof. reflexivity. Qed.

Lemma stored_same c : Chunk.embedding_stored c = true -> stored c = c.
Proof. destruct c; cbn. now intros ->. Qed.

Lemma same_id_same_row : forall (l : list Chunk.t) c c',
  NoDup (map Chunk.id l) -> In c l -> In c' l ->
  Chunk.id c = Chunk.id c' -> c = c'.
Proof.
  induction l as [|h l IH]; intros c c' Hnd Hc Hc' Hid; [contradiction|].
  cbn [map] in Hnd. apply NoDup_cons_iff in Hnd as [Hh Hnd].
  destruct Hc as [<- | Hc], Hc' as [<- | Hc']; try reflexivity.
  - exfalso. apply Hh. rewrite Hid. now apply in_map.
  - exfalso. apply Hh. rewrite <- Hid. now apply in_map.
  - now apply IH.
Qed.

(** With ids that are a key, marking one id rewrites the one row that
    has it. *)
Lemma mark_embedded_map i : forall l,
  NoDup (map Chunk.id l) ->
  mark_embedded i l
  = map (fun c => if String.eqb (Chunk.id c) i then stored c else c) l.
Proof.
  induction l as [|h l IH]; intros Hnd; [reflexivity|].
  cbn [map] in Hnd. apply NoDup_cons_iff in Hnd as [Hh Hnd].
  cbn [mark_embedded map]. destruct (String.eqb_spec (Chunk.id h) i) as [E|E].
  - f_equal. rewrite <- (map_id l) at 1. apply map_ext_in.
    intros c Hc. destruct (String.eqb_spec (Chunk.id c) i) as [E'|];
      [|reflexivity].
    exfalso. apply Hh. rewrite E, <- E'. now apply in_map.
  - f_equal. now apply IH.
Qed.

Lemma mark_all_map : forall ids l,
  NoDup (map Chunk.id l) ->
  fold_left (fun l i => mark_embedded i l) ids l
  = map (fun c => if existsb (String.eqb (Chunk.id c)) ids
                  then stored c else c) l.
Proof.
  induction ids as [|i ids IH]; intros l Hnd.
  - cbn. now rewrite map_id.
  - cbn [fold_left]. rewrite mark_embedded_map by assumption.
    rewrite IH.
    + rewrite map_map. apply map_ext. intros c. cbn [existsb].
      destruct (String.eqb (Chunk.id c) i); cbn [orb];
        rewrite ?stored_id; [|reflexivity].
      destruct (existsb _ ids); now rewrite ?stored_twice.
    + rewrite map_map.
      erewrite map_ext; [exact Hnd|].
      intros c. now destruct (String.eqb (Chunk.id c) i).
Qed.

Section WithEmbedder.
Context {embedder : BaseEmbedder}.
Variable vector_store_path : string.

Local Abbreviation index_path := (get_vault_index_path vector_store_path).
Local Abbreviation build := (create_or_update_index vector_store_path).
Local Abbreviation search := (VectorStore.search vector_store_path).

(** What a build that returns has done. *)
Lemma build_inversion w vault_id stats w' :
  build w vault_id = Ok (stats, w') ->
  let pending := query_chunks (db w) vault_id false in
  (pending = [] /\ w' = w /\
   chunks_processed stats = 0 /\ vectors_added stats = 0) \/
  (pending <> [] /\
   exists embeddings,
     embed_batch (map Chunk.content pending) = Ok embeddings /\
     embeddings <> [] /\
     let base := base_index w (index_path vault_id) get_embedding_dimension in
     w' = {| db := mark_all_embedded (map Chunk.id pending) (db w);
             index_files :=
               index_files
                 (write_index w (index_path vault_id)
                    (Faiss.mkIndex (Faiss.d base)
                                   (Faiss.xb base ++ embeddings))) |} /\
     chunks_processed stats = Py.len pending /\
     vectors_added stats = Py.len embeddings).
Proof.
  unfold create_or_update_index.
  destruct (query_vault (db w) vault_id); [|discriminate].
  destruct (query_chunks (db w) vault_id false) as [|c cs] eqn:Hp.
  - intros [= <- <-]. left. repeat split.
  - destruct (embed_batch _) as [embeddings|] eqn:He; [|discriminate].
    cbn [bind]. cbv zeta. intros H. right. split; [discriminate|].
    exists embeddings. split; [reflexivity|].
    unfold base_index.
    assert (Hadd : forall base index,
      Faiss.add base embeddings = Ok index ->
      embeddings <> [] /\
      index = Faiss.mkIndex (Faiss.d base) (Faiss.xb base ++ embeddings)).
    { intros base index. unfold Faiss.add.
      destruct embeddings; [discriminate|].
      destruct (forallb _ _); [|discriminate].
      intros [= <-]. split; [discriminate|reflexivity]. }
    destruct (index_files w (index_path vault_id)) as [old|];
      destruct (Faiss.add _ embeddings) as [index|] eqn:Ha;
      try discriminate; cbn [bind] in H;
      apply Hadd in Ha as [Hne ->]; injection H as <- <-;
      repeat split; assumption.
Qed.

(** A build appends: the index file of the vault holds afterwards what
    it held before, or nothing when there was none, followed by the
    vectors the embedder gave for the pending chunks; the index files of
    all other paths are as they were; the counts are the number of
    pending chunks and the number of vectors. *)
Theorem build_appends : forall w vault_id stats w',
  query_chunks (db w) vault_id false <> [] ->
  build w vault_id = Ok (stats, w') ->
  exists embeddings,
    embed_batch (map Chunk.content (query_chunks (db w) vault_id false))
      = Ok embeddings /\
    (let base := base_index w (index_path vault_id) get_embedding_dimension in
     index_files w' (index_path vault_id)
       = Some (Faiss.mkIndex (Faiss.d base) (Faiss.xb base ++ embeddings))) /\
    (forall p, p <> index_path vault_id ->
               index_files w' p = index_files w p) /\
    chunks_processed stats = Py.len (query_chunks (db w) vault_id false) /\
    vectors_added stats = Py.len embeddings.
Proof.
  intros w vault_id stats w' Hpending H.
  apply build_inversion in H as [(Hnone & _) | (_ & embeddings & He & _ & H)];
    [contradiction|].
  cbv zeta in H. destruct H as (-> & Hc & Hv).
  exists embeddings. split; [exact He|]. cbn [index_files write_index].
  split; [now rewrite String.eqb_refl|]. split; [|now split].
  intros p Hp. destruct (String.eqb_spec p (index_path vault_id));
    [contradiction|reflexivity].
Qed.

Lemma build_marks_the_vault_holds : forall w vault_id stats w',
  NoDup (map Chunk.id (chunks (db w))) ->
  build w vault_id = Ok (stats, w') ->
  chunks (db w')
    = map (fun c => if joins_vault (db w) vault_id c then stored c else c)
          (chunks (db w)) /\
  query_chunks (db w') vault_id false = [] /\
  documents (db w') = documents (db w) /\
  vaults (db w') = vaults (db w).
Proof.
  intros w vault_id stats w' Hnd H.
  assert (Hmap : chunks (db w')
    = map (fun c => if joins_vault (db w) vault_id c then stored c else c)
          (chunks (db w)) /\
    documents (db w') = documents (db w) /\ vaults (db w') = vaults (db w)).
  { apply build_inversion in H
      as [(Hnone & -> & _) | (_ & embeddings & _ & _ & H)].
    - split; [|split; reflexivity].
      rewrite <- (map_id (chunks (db w))) at 1. apply map_ext_in.
      intros c Hc. destruct (joins_vault (db w) vault_id c) eqn:Hj;
        [|reflexivity].
      destruct (Chunk.embedding_stored c) eqn:Hs;
        [now rewrite stored_same|].
      exfalso. assert (Hin : In c (query_chunks (db w) vault_id false)).
      { apply filter_In. split; [exact Hc|]. now rewrite Hj, Hs. }
      now rewrite Hnone in Hin.
    - cbv zeta in H. destruct H as (-> & _).
      cbn [db mark_all_embedded chunks documents vaults].
      split; [|split; reflexivity].
      rewrite mark_all_map by assumption. apply map_ext_in.
      intros c Hc.
      destruct (existsb _ _) eqn:Hex.
      + apply existsb_exists in Hex as (i & Hi & Heq).
        apply String.eqb_eq in Heq.
        apply in_map_iff in Hi as (c' & Hid & Hc').
        apply filter_In in Hc' as [Hc' Hp].
        assert (c = c') by (eapply same_id_same_row; eauto; congruence).
        subst c'. apply andb_true_iff in Hp as [-> _]. reflexivity.
      + destruct (joins_vault (db w) vault_id c) eqn:Hj; [|reflexivity].
        destruct (Chunk.embedding_stored c) eqn:Hs;
          [now rewrite stored_same|].
        exfalso. assert (Hin : In (Chunk.id c)
          (map Chunk.id (query_chunks (db w) vault_id false))).
        { apply in_map, filter_In. split; [exact Hc|]. now rewrite Hj, Hs. }
        assert (existsb (String.eqb (Chunk.id c))
                  (map Chunk.id (query_chunks (db w) vault_id false)) = true).
        { apply existsb_exists. exists (Chunk.id c).
          split; [exact Hin|apply String.eqb_refl]. }
        congruence. }
  destruct Hmap as (Hchunks & Hdocs & Hvaults).
  repeat split; try assumption.
  unfold query_chunks. rewrite Hchunks.
  assert (Hjoin : forall c0,
    joins_vault (db w') vault_id c0 = joins_vault (db w) vault_id c0)
    by (intros c0; unfold joins_vault; now rewrite Hdocs).
  clear - Hjoin.
  induction (chunks (db w)) as [|c l IH]; [reflexivity|].
  cbn [map filter].
  destruct (joins_vault (db w) vault_id c) eqn:Hj.
  - rewrite Hjoin.
    replace (joins_vault (db w) vault_id (stored c)) with true
      by (symmetry; exact Hj).
    cbn. exact IH.
  - rewrite Hjoin, Hj. cbn. exact IH.
Qed.

(** With chunk ids that are a key, a build that returns marks the
    chunks of the vault, and only them, as embedded: no chunk of the
    vault is pending afterwards, every other row, the documents and the
    vaults are as they were. *)
Theorem build_marks_the_vault : forall w vault_id stats w',
  NoDup (map Chunk.id (chunks (db w))) ->
  build w vault_id = Ok (stats, w') ->
  chunks (db w')
    = map (fun c => if joins_vault (db w) vault_id c then stored c else c)
          (chunks (db w)) /\
  query_chunks (db w') vault_id false = [] /\
  documents (db w') = documents (db w) /\
  vaults (db w') = vaults (db w).
Proof. exact build_marks_the_vault_holds. Qed.

(** With document ids that are a key, a chunk joins one vault. *)
Lemma joins_one_vault database v v' c :
  NoDup (map Document.id (documents database)) ->
  joins_vault database v c = true ->
  joins_vault database v' c = true ->
  v = v'.
Proof.
  unfold joins_vault. intros Hnd H H'.
  apply existsb_exists in H as (d1 & Hin1 & H1).
  apply existsb_exists in H' as (d2 & Hin2 & H2).
  apply andb_true_iff in H1 as [Hid1 Hv1], H2 as [Hid2 Hv2].
  apply String.eqb_eq in Hid1, Hv1, Hid2, Hv2.
  assert (E : d1 = d2).
  { clear - Hnd Hin1 Hin2 Hid1 Hid2.
    assert (Hid : Document.id d1 = Document.id d2) by congruence.
    clear Hid1 Hid2.
    induction (documents database) as [|h l IH]; [contradiction|].
    cbn [map] in Hnd. apply NoDup_cons_iff in Hnd as [Hh Hnd].
    destruct Hin1 as [<- | Hin1], Hin2 as [<- | Hin2]; try reflexivity.
    - exfalso. apply Hh. rewrite Hid. now apply in_map.
    - exfalso. apply Hh. rewrite <- Hid. now apply in_map.
    - now apply IH. }
  congruence.
Qed.

Lemma filter_map_fixed {A} (f : A -> bool) (g : A -> A) : forall l,
  (forall a, f (g a) = f a) ->
  (forall a, f a = true -> g a = a) ->
  filter f (map g l) = filter f l.
Proof.
  intros l Hf Hg. induction l as [|a l IH]; [reflexivity|].
  cbn [map filter]. rewrite Hf. destruct (f a) eqn:E; [|exact IH].
  now rewrite Hg, IH.
Qed.

(** A build keeps the rule of the data model for every vault: the index
    it writes holds at least one vector, and it marks no chunk of
    another vault. *)
Lemma build_indexes_before_it_marks w vault_id stats w' :
  NoDup (map Chunk.id (chunks (db w))) ->
  NoDup (map Document.id (documents (db w))) ->
  (forall v, indexed_before_embedded vector_store_path w v) ->
  build w vault_id = Ok (stats, w') ->
  forall v, indexed_before_embedded vector_store_path w' v.
Proof.
  intros Hc Hd Hrule H v Hv.
  destruct (build_marks_the_vault_holds _ _ _ _ Hc H)
    as (Hchunks & _ & Hdocs & _).
  apply build_inversion in H
    as [(_ & -> & _) | (_ & embeddings & _ & Hne & H)];
    [now apply Hrule|].
  cbv zeta in H. destruct H as (Hw & _).
  destruct (String.eqb_spec (index_path v) (index_path vault_id)) as [E|E].
  - eexists. split.
    + rewrite Hw. cbn [index_files write_index]. rewrite E.
      now rewrite String.eqb_refl.
    + unfold Faiss.ntotal, Py.len. cbn [Faiss.xb]. rewrite length_app.
      destruct embeddings; [contradiction|cbn [length]; lia].
  - assert (Hsame : query_chunks (db w') v true = query_chunks (db w) v true).
    { unfold query_chunks, joins_vault. rewrite Hchunks, Hdocs.
      apply filter_map_fixed.
      - intros c. destruct (joins_vault (db w) vault_id c) eqn:Hj;
          [|reflexivity].
        fold (joins_vault (db w) v (stored c)).
        fold (joins_vault (db w) v c).
        change (joins_vault (db w) v (stored c))
          with (joins_vault (db w) v c).
        destruct (joins_vault (db w) v c) eqn:Hjv; [|reflexivity].
        exfalso. apply E. f_equal.
        eapply joins_one_vault; eassumption.
      - intros c Hf. apply andb_true_iff in Hf as [Hjv _].
        fold (joins_vault (db w) v c) in Hjv.
        destruct (joins_vault (db w) vault_id c) eqn:Hj; [|reflexivity].
        exfalso. apply E. f_equal.
        eapply joins_one_vault; eassumption. }
    rewrite Hsame in Hv. destruct (Hrule v Hv) as (index & Hidx & Hpos).
    exists index. split; [|exact Hpos].
    rewrite Hw. cbn [index_files write_index].
    destruct (String.eqb_spec (index_path v) (index_path vault_id));
      [contradiction|exact Hidx].
Qed.

(** Building twice: with chunk ids that are a key, the build that
    follows a build finds nothing pending, reports the counts 0 and 0
    and leaves rows and index files as the first build left them. *)
Theorem second_build_changes_nothing : forall w vault_id stats w',
  NoDup (map Chunk.id (chunks (db w))) ->
  build w vault_id = Ok (stats, w') ->
  exists stats',
    build w' vault_id = Ok (stats', w') /\
    chunks_processed stats' = 0 /\ vectors_added stats' = 0.
Proof.
  intros w vault_id stats w' Hnd H.
  destruct (build_marks_the_vault_holds w vault_id stats w' Hnd H)
    as (_ & Hnone & _ & Hvaults).
  unfold create_or_update_index in *.
  unfold query_vault in *. rewrite Hvaults.
  destruct (find _ (vaults (db w))); [|discriminate].
  rewrite Hnone. eexists. repeat split.
Qed.

Lemma index_in {A} (l : list A) i x : Py.index l i = Some x -> In x l.
Proof.
  unfold Py.index. destruct (i <? 0).
  - destruct (i + Py.len l <? 0); [discriminate|]. apply nth_error_In.
  - apply nth_error_In.
Qed.

Lemma index_defined {A} (l : list A) i :
  -1 <= i < Py.len l -> l <> [] -> exists x, Py.index l i = Some x.
Proof.
  intros Hi Hl. unfold Py.index, Py.len in *.
  assert (Hpos : (0 < length l)%nat) by (destruct l; [contradiction|cbn; lia]).
  destruct (Z.ltb_spec i 0).
  - destruct (Z.ltb_spec (i + Z.of_nat (length l)) 0); [lia|].
    destruct (nth_error l (Z.to_nat (i + Z.of_nat (length l)))) eqn:E;
      [eauto|]. apply nth_error_None in E. lia.
  - destruct (nth_error l (Z.to_nat i)) eqn:E; [eauto|].
    apply nth_error_None in E. lia.
Qed.

Lemma insert_by_id_in c x : forall l,
  In x (insert_by_id c l) <-> x = c \/ In x l.
Proof.
  induction l as [|h l IH]; cbn [insert_by_id].
  - cbn. intuition congruence.
  - destruct (String.leb (Chunk.id c) (Chunk.id h)); cbn [In].
    + intuition congruence.
    + rewrite IH. intuition congruence.
Qed.

Lemma order_by_id_in x : forall l, In x (order_by_id l) <-> In x l.
Proof.
  induction l as [|c l IH]; [reflexivity|].
  cbn [order_by_id fold_right]. rewrite insert_by_id_in.
  fold (order_by_id l). rewrite IH. cbn [In]. intuition congruence.
Qed.

Lemma resolve_returns database all_chunks : forall I0 acc,
  all_chunks <> [] ->
  Forall (fun i => -1 <= i) I0 ->
  exists results, resolve database all_chunks I0 acc = Ok results.
Proof.
  induction I0 as [|idx rest IH]; intros acc Hall Hlab; cbn [resolve].
  - eauto.
  - inversion Hlab; subst.
    destruct (Z.ltb_spec idx (Py.len all_chunks)); [|now apply IH].
    destruct (index_defined all_chunks idx) as [c ->]; [lia|assumption|].
    now apply IH.
Qed.

(** The search adds no failure of its own: with an index file, a
    vector for the query and an answer of the index, it returns; labels
    past the embedded chunks are skipped, not an IndexError. *)
Theorem search_returns : forall w vault_id query top_k index qe D I0,
  index_files w (index_path vault_id) = Some index ->
  embed_text query = Ok qe ->
  Faiss.search index qe top_k = Ok (D, I0) ->
  exists results, search w vault_id query top_k = Ok results.
Proof.
  intros w vault_id query top_k index qe D I0 Hidx Hqe Hs.
  unfold VectorStore.search. rewrite Hidx, Hqe. cbn [bind].
  rewrite Hs. cbn [bind snd].
  destruct (order_by_id (query_chunks (db w) vault_id true)) as [|c cs] eqn:Ha;
    [eauto|].
  destruct (Py.len I0 =? 0); [eauto|].
  apply resolve_returns; [discriminate|].
  eapply Forall_impl; [|exact (FaissMoreFacts.search_labels _ _ _ _ _ Hs)].
  cbn beta. intros i [-> | Hi]; lia.
Qed.

Lemma search_answers_from_the_vault_holds :
  forall w vault_id query top_k results,
    search w vault_id query top_k = Ok results ->
    Forall (fun r => exists c, embedded_in (db w) vault_id c /\
                               r = make_result (db w) c) results.
Proof.
  intros w vault_id query top_k results. unfold VectorStore.search.
  destruct (index_files w (index_path vault_id)); [|discriminate].
  destruct (embed_text query); [|discriminate]. cbn [bind].
  destruct (Faiss.search _ _ _) as [[D I0]|]; [|discriminate].
  cbn [bind snd].
  set (all_chunks := order_by_id (query_chunks (db w) vault_id true)).
  assert (Hin : forall c, In c all_chunks -> embedded_in (db w) vault_id c).
  { intros c Hc. unfold all_chunks in Hc.
    apply (proj1 (order_by_id_in c _)) in Hc.
    apply filter_In in Hc as [Hc Hp].
    apply andb_true_iff in Hp as [Hj He]. repeat split; try assumption.
    now destruct (Chunk.embedding_stored c). }
  destruct all_chunks as [|c0 cs] eqn:Hall; [intros [= <-]; constructor|].
  destruct (Py.len I0 =? 0); [intros [= <-]; constructor|].
  rewrite <- Hall in *. intros H.
  apply VectorStoreFacts.resolve_entries in H as (new & -> & Hnew).
  cbn [app]. clear - Hnew Hin.
  induction Hnew as [|r idx new l (c & Hc & ->) _ IH]; constructor;
    [|exact IH].
  exists c. split; [|reflexivity]. apply Hin. eapply index_in; eassumption.
Qed.

(** Every entry of an answer is made from a stored chunk that belongs
    to the vault asked for and is marked embedded: a search never shows
    a chunk of another vault or a chunk still pending. *)
Theorem search_answers_from_the_vault :
  forall w vault_id query top_k results,
    search w vault_id query top_k = Ok results ->
    Forall (fun r => exists c, embedded_in (db w) vault_id c /\
                               r = make_result (db w) c) results.
Proof. exact search_answers_from_the_vault_holds. Qed.

End WithEmbedder.
Section WithOpenAI.
Variable isspace : ascii -> bool.
Variable provider : OpenAIEmbedder.Provider.
Variable self : OpenAIEmbedder.OpenAIEmbedder.
Variable tr : OpenAIEmbedder.trace.
Variable vector_store_path : string.

Local Abbreviation openai := (openai_embedder isspace provider self tr).
Local Abbreviation build :=
  (@create_or_update_index openai vector_store_path).
Local Abbreviation dimension := (OpenAIEmbedder.embedding_dimension self).

(** With the OpenAI embedder a build adds exactly one vector per
    pending chunk, whatever the provider does. *)
Theorem openai_build_one_vector_per_chunk : forall w vault_id stats w',
  @create_or_update_index (openai_embedder isspace provider self tr)
                          vector_store_path w vault_id = Ok (stats, w') ->
  vectors_added stats = chunks_processed stats.
Proof.
  intros w vault_id stats w' H.
  apply build_inversion in H
    as [(_ & _ & -> & ->) | (_ & embeddings & He & _ & H)];
    [reflexivity|].
  cbv zeta in H. destruct H as (_ & -> & ->).
  cbn [embed_batch openai_embedder] in He. injection He as <-.
  unfold Py.len.
  now rewrite OpenAIEmbedderFacts.embed_batch_length, length_map.
Qed.

Lemma zeros_len n : 0 <= n -> Py.len (zeros n) = n.
Proof. intros Hn. unfold Py.len, zeros. rewrite repeat_length. lia. Qed.

(** A provider that fails during the first build of a vault does not
    fail the build: the index file is created with one all-zero vector
    per pending chunk, and the counts report every chunk as processed. *)
Theorem outage_indexes_zero_vectors : forall w vault_id vault,
  query_vault (db w) vault_id = Some vault ->
  filter (OpenAIEmbedder.strip_nonempty isspace)
         (map Chunk.content (query_chunks (db w) vault_id false)) <> [] ->
  provider (OpenAIEmbedder.calls tr)
    (OpenAIEmbedder.Batch
       (filter (OpenAIEmbedder.strip_nonempty isspace)
               (map Chunk.content (query_chunks (db w) vault_id false))))
    = None ->
  index_files w (get_vault_index_path vector_store_path vault_id) = None ->
  0 <= dimension ->
  exists stats w',
    build w vault_id = Ok (stats, w') /\
    index_files w' (get_vault_index_path vector_store_path vault_id)
      = Some (Faiss.mkIndex dimension
                (map (fun _ => zeros dimension)
                     (query_chunks (db w) vault_id false))) /\
    chunks_processed stats = Py.len (query_chunks (db w) vault_id false) /\
    vectors_added stats = Py.len (query_chunks (db w) vault_id false).
Proof.
  intros w vault_id vault Hvault Hne Hfail Hnofile Hdim.
  unfold create_or_update_index. rewrite Hvault.
  destruct (query_chunks (db w) vault_id false) as [|c cs] eqn:Hp;
    [now cbn in Hne|].
  set (texts := map Chunk.content (c :: cs)) in *.
  assert (He : @embed_batch openai texts
               = Ok (map (fun _ => zeros dimension) texts)).
  { cbn [embed_batch openai_embedder]. f_equal.
    unfold OpenAIEmbedder.embed_batch. unfold texts at 1. cbn [map].
    fold texts.
    pose proof (EmbedderBatchFacts.non_empty_texts_filter isspace texts 0)
      as Hfst.
    destruct (OpenAIEmbedder.non_empty_from isspace 0 texts) as [ne ix].
    cbn [fst] in Hfst. subst ne.
    destruct (filter _ texts) as [|n ns]; [contradiction|].
    unfold OpenAIEmbedder.create. now rewrite Hfail. }
  rewrite He. cbn [bind]. rewrite Hnofile.
  assert (Hadd : Faiss.add (Faiss.IndexFlatL2 (@get_embedding_dimension openai))
                           (map (fun _ => zeros dimension) texts)
                 = Ok (Faiss.mkIndex dimension
                         (map (fun _ => zeros dimension) texts))).
  { unfold Faiss.add. unfold texts at 1 3. cbn [map]. fold texts.
    replace (forallb _ _) with true; [reflexivity|].
    symmetry. apply forallb_forall. intros v Hv.
    cbn [Faiss.d Faiss.IndexFlatL2 get_embedding_dimension openai_embedder].
    unfold OpenAIEmbedder.get_embedding_dimension.
    destruct Hv as [<- | Hv];
      [|apply in_map_iff in Hv as (x & <- & _)];
      rewrite zeros_len by assumption; apply Z.eqb_refl. }
  rewrite Hadd. cbn [bind]. eexists _, _. split; [reflexivity|].
  cbn [index_files write_index chunks_processed vectors_added].
  rewrite String.eqb_refl. unfold texts, Py.len. rewrite !map_map, !length_map.
  repeat split.
Qed.

End WithOpenAI.

Ltac distinct_ids :=
  repeat (constructor; [cbn; intuition discriminate|]); constructor.

Lemma build_appends_witness :
  exists stats w',
    @create_or_update_index length_embedder "/store" world_0 "v1"
      = Ok (stats, w') /\
    exists embeddings,
      @embed_batch length_embedder
        (map Chunk.content (query_chunks (db world_0) "v1" false))
        = Ok embeddings /\
      (let base := base_index world_0 (get_vault_index_path "/store" "v1")
                              (@get_embedding_dimension length_embedder) in
       index_files w' (get_vault_index_path "/store" "v1")
         = Some (Faiss.mkIndex (Faiss.d base)
                               (Faiss.xb base ++ embeddings))) /\
      (forall p, p <> get_vault_index_path "/store" "v1" ->
                 index_files w' p = index_files world_0 p) /\
      chunks_processed stats = Py.len (query_chunks (db world_0) "v1" false) /\
      vectors_added stats = Py.len embeddings.
Proof.
  eexists _, _. split; [vm_compute; reflexivity|].
  eapply (@build_appends length_embedder "/store" world_0 "v1").
  - discriminate.
  - reflexivity.
Defined.

Lemma build_marks_the_vault_witness :
  exists stats w',
    @create_or_update_index length_embedder "/store" world_0 "v1"
      = Ok (stats, w') /\
    chunks (db w')
      = map (fun c => if joins_vault (db world_0) "v1" c
                      then stored c else c) (chunks (db world_0)) /\
    query_chunks (db w') "v1" false = [] /\
    documents (db w') = documents (db world_0) /\
    vaults (db w') = vaults (db world_0).
Proof.
  eexists _, _. split; [vm_compute; reflexivity|].
  eapply (@build_marks_the_vault length_embedder "/store" world_0 "v1").
  - distinct_ids.
  - reflexivity.
Defined.

Lemma second_build_changes_nothing_witness :
  exists stats w',
    @create_or_update_index length_embedder "/store" world_0 "v1"
      = Ok (stats, w') /\
    exists stats',
      @create_or_update_index length_embedder "/store" w' "v1"
        = Ok (stats', w') /\
      chunks_processed stats' = 0 /\ vectors_added stats' = 0.
Proof.
  eexists _, _. split; [vm_compute; reflexivity|].
  eapply (@second_build_changes_nothing length_embedder "/store" world_0 "v1").
  - distinct_ids.
  - reflexivity.
Defined.

Lemma search_returns_witness :
  exists results,
    @VectorStore.search length_embedder "/store" world_one_vector "v1"
                        "zz" 3 = Ok results.
Proof.
  apply (@search_returns length_embedder "/store" world_one_vector "v1"
           "zz" 3 (Faiss.mkIndex 1 [[2%Q]]) (length_vector "zz")
           [0%Q; Faiss.FLT_MAX; Faiss.FLT_MAX] [0; -1; -1]);
    reflexivity.
Defined.

Lemma search_answers_from_the_vault_witness :
  Forall (fun r => exists c, embedded_in (db world_one_vector) "v1" c /\
                             r = make_result (db world_one_vector) c)
         [ make_result (db world_one_vector) (chunk_b true) ].
Proof.
  apply (@search_answers_from_the_vault length_embedder "/store"
           world_one_vector "v1" "zz" 1).
  reflexivity.
Defined.

Lemma openai_build_one_vector_per_chunk_witness :
  exists stats w',
    @create_or_update_index
      (openai_embedder OpenAIEmbedder.ascii_isspace OpenAIEmbedder.flaky
                       (OpenAIEmbedder.mkEmbedder 1) [])
      "/store" world_0 "v1" = Ok (stats, w') /\
    vectors_added stats = chunks_processed stats.
Proof.
  eexists _, _. split; [vm_compute; reflexivity|].
  eapply (openai_build_one_vector_per_chunk OpenAIEmbedder.ascii_isspace
           OpenAIEmbedder.flaky (OpenAIEmbedder.mkEmbedder 1) []
           "/store" world_0 "v1").
  reflexivity.
Defined.

Lemma outage_indexes_zero_vectors_witness :
  exists stats w',
    @create_or_update_index
      (openai_embedder OpenAIEmbedder.ascii_isspace OpenAIEmbedder.flaky
                       (OpenAIEmbedder.mkEmbedder 1) [])
      "/store" world_0 "v1" = Ok (stats, w') /\
    index_files w' (get_vault_index_path "/store" "v1")
      = Some (Faiss.mkIndex 1
                (map (fun _ => zeros 1)
                     (query_chunks (db world_0) "v1" false))) /\
    chunks_processed stats = Py.len (query_chunks (db world_0) "v1" false) /\
    vectors_added stats = Py.len (query_chunks (db world_0) "v1" false).
Proof.
  apply (outage_indexes_zero_vectors OpenAIEmbedder.ascii_isspace
           OpenAIEmbedder.flaky (OpenAIEmbedder.mkEmbedder 1) []
           "/store" world_0 "v1" (Vault.mk "v1" "notes" "/v" true)).
  - reflexivity.
  - discriminate.
  - reflexivity.
  - reflexivity.
  - cbn. lia.
Defined.

End VectorStoreMoreFacts.

(** ** Registering and deleting vaults *)

Module VaultRegistryFacts.
Import VaultManager VaultRegistry.

Section WithPaths.
Variable uuid4 : nat -> string.
Variable is_dir : string -> bool.
Variable resolve : string -> string.

Local Abbreviation register := (register_vault uuid4 is_dir resolve).

Lemma find_none_forall {A} (f : A -> bool) : forall l,
  find f l = None -> Forall (fun x => f x = false) l.
Proof.
  induction l as [|a l IH]; intros H; [constructor|].
  cbn [find] in H. destruct (f a) eqn:Hf; [discriminate|].
  constructor; [exact Hf|now apply IH].
Qed.

Lemma find_app_last {A} (f : A -> bool) x : forall l,
  Forall (fun y => f y = false) l -> f x = true -> find f (l ++ [x]) = Some x.
Proof.
  induction l as [|a l IH]; intros Hl Hx; cbn [app find].
  - now rewrite Hx.
  - inversion Hl; subst. rewrite H1. now apply IH.
Qed.

Lemma find_app_first {A} (f : A -> bool) x y : forall l,
  find f l = Some y -> find f (l ++ [x]) = Some y.
Proof.
  induction l as [|a l IH]; intros H; [discriminate|].
  cbn [app find] in *. destruct (f a); [exact H|now apply IH].
Qed.

(** What a registration that returns has done. *)
Lemma register_inversion w name path vault w' :
  register w name path = Ok (vault, w') ->
  path_exists (fs w) path = true /\ is_dir path = true /\
  find (fun v => String.eqb (Vault.path v) (resolve path)) (vaults (db w))
    = None /\
  vault = Vault.mk (uuid4 (drawn w)) name (resolve path) false /\
  vaults (db w') = vaults (db w) ++ [vault] /\
  documents (db w') = documents (db w) /\
  chunks (db w') = chunks (db w) /\
  fs w' = fs w.
Proof.
  unfold register_vault.
  destruct (path_exists (fs w) path); [|discriminate].
  destruct (is_dir path); [|discriminate]. cbn [negb orb].
  destruct (find _ _) eqn:Hfind; [discriminate|].
  intros [= <- <-]. repeat split.
Qed.

(** Registration keeps the root paths of the vaults distinct, stores the
    canonical path, and starts the vault as not indexed; documents and
    chunks are not touched. *)
Theorem register_keeps_paths_unique : forall w name path vault w',
  NoDup (map Vault.path (vaults (db w))) ->
  register w name path = Ok (vault, w') ->
  NoDup (map Vault.path (vaults (db w'))) /\
  Vault.path vault = resolve path /\
  Vault.is_indexed vault = false /\
  documents (db w') = documents (db w) /\
  chunks (db w') = chunks (db w).
Proof.
  intros w name path vault w' Hnd H.
  apply register_inversion in H
    as (_ & _ & Hfind & -> & Hv & Hd & Hc & _).
  repeat split; try assumption.
  rewrite Hv, map_app. cbn [map Vault.path].
  apply NoDup_app; [exact Hnd|repeat constructor; intros []|].
  intros p Hp [<- | []].
  apply in_map_iff in Hp as (v & Hpath & Hin).
  apply find_none_forall in Hfind. rewrite Forall_forall in Hfind.
  specialize (Hfind v Hin). cbn beta in Hfind.
  rewrite Hpath, String.eqb_refl in Hfind. discriminate.
Qed.

(** A path that resolves to the root of a registered vault cannot be
    registered again: the second registration raises ValueError. *)
Theorem register_twice_fails : forall w name path vault w' name' path',
  register w name path = Ok (vault, w') ->
  path_exists (fs w) path' = true -> is_dir path' = true ->
  resolve path' = resolve path ->
  register w' name' path'
  = Raise (ValueError ("A vault with path '" ++ path'
                       ++ "' is already registered")).
Proof.
  intros w name path vault w' name' path' H Hex Hdir Hres.
  apply register_inversion in H
    as (_ & _ & Hfind & -> & Hv & _ & _ & Hfs).
  unfold register_vault. rewrite Hfs, Hex, Hdir. cbn [negb orb].
  rewrite Hv, Hres.
  rewrite (find_app_last _
             (Vault.mk (uuid4 (drawn w)) name (resolve path) false)).
  - reflexivity.
  - now apply find_none_forall.
  - cbn [Vault.path]. apply String.eqb_refl.
Qed.

(** A registered vault is found again under its id when that id is
    fresh, and every vault found before is still found. *)
Theorem register_then_get : forall w name path vault w',
  register w name path = Ok (vault, w') ->
  Forall (fun v => Vault.id v <> Vault.id vault) (vaults (db w)) ->
  get_vault w' (Vault.id vault) = Some vault /\
  In vault (get_all_vaults w') /\
  (forall vault_id v, get_vault w vault_id = Some v ->
                      get_vault w' vault_id = Some v).
Proof.
  intros w name path vault w' H Hfresh.
  apply register_inversion in H as (_ & _ & _ & Hvault & Hv & _).
  unfold get_vault, get_all_vaults, query_vault. rewrite Hv.
  split; [|split].
  - apply find_app_last; [|apply String.eqb_refl].
    eapply Forall_impl; [|exact Hfresh]. cbn beta. intros v Hne.
    now apply String.eqb_neq.
  - apply in_or_app. right. now left.
  - intros vault_id v. apply find_app_first.
Qed.

End WithPaths.

Lemma filter_filter {A} (f g : A -> bool) : forall l,
  filter f (filter g l) = filter (fun x => g x && f x) l.
Proof.
  induction l as [|a l IH]; [reflexivity|].
  cbn [filter]. destruct (g a); cbn [filter andb]; [|exact IH].
  destruct (f a); now rewrite IH.
Qed.

Lemma remove_vault_other vault_id other : forall l,
  other <> vault_id ->
  find (fun v => String.eqb (Vault.id v) other) (remove_vault vault_id l)
  = find (fun v => String.eqb (Vault.id v) other) l.
Proof.
  induction l as [|v l IH]; intros Hne; [reflexivity|].
  cbn [remove_vault find].
  destruct (String.eqb_spec (Vault.id v) vault_id) as [E|E].
  - destruct (String.eqb_spec (Vault.id v) other); [congruence|reflexivity].
  - cbn [find]. destruct (String.eqb (Vault.id v) other);
      [reflexivity|now apply IH].
Qed.

Lemma remove_vault_gone vault_id : forall l,
  NoDup (map Vault.id l) ->
  find (fun v => String.eqb (Vault.id v) vault_id) (remove_vault vault_id l)
  = None.
Proof.
  induction l as [|v l IH]; intros Hnd; [reflexivity|].
  cbn [map] in Hnd. apply NoDup_cons_iff in Hnd as [Hv Hnd].
  cbn [remove_vault].
  destruct (String.eqb_spec (Vault.id v) vault_id) as [E|E].
  - destruct (find _ l) as [v'|] eqn:Hfind; [|reflexivity].
    exfalso. apply Hv. apply find_some in Hfind as [Hin Hid].
    apply String.eqb_eq in Hid. rewrite E, <- Hid. now apply in_map.
  - cbn [find]. destruct (String.eqb_spec (Vault.id v) vault_id);
      [contradiction|now apply IH].
Qed.

(** What a deletion that finds the vault has done. *)
Lemma delete_inversion w vault_id w' :
  delete_vault w vault_id = (true, w') ->
  vaults (db w') = remove_vault vault_id (vaults (db w)) /\
  documents (db w')
    = filter (fun d => negb (String.eqb (Document.vault_id d) vault_id))
             (documents (db w)) /\
  chunks (db w')
    = filter (fun c => negb (chunk_of_any (documents_of (db w) vault_id) c))
             (chunks (db w)).
Proof.
  unfold delete_vault.
  destruct (query_vault (db w) vault_id) as [vault|] eqn:Hfind;
    [|discriminate].
  apply find_some in Hfind as [_ Hid]. apply String.eqb_eq in Hid.
  rewrite Hid. intros [= <-]. repeat split.
Qed.

Lemma delete_removes_vault_data_holds : forall w vault_id w',
  delete_vault w vault_id = (true, w') ->
  documents_of (db w') vault_id = [] /\
  (forall flag, query_chunks (db w') vault_id flag = []) /\
  (NoDup (map Vault.id (vaults (db w))) -> get_vault w' vault_id = None).
Proof.
  intros w vault_id w' H.
  apply delete_inversion in H as (Hv & Hd & Hc).
  assert (Hdocs : documents_of (db w') vault_id = []).
  { unfold documents_of. rewrite Hd, filter_filter.
    apply ChunkerStoreFacts.filter_nothing. apply Forall_forall.
    intros d _. now destruct (String.eqb (Document.vault_id d) vault_id). }
  split; [exact Hdocs|]. split.
  - intros flag. unfold query_chunks.
    apply ChunkerStoreFacts.filter_nothing. apply Forall_forall.
    intros c _. unfold joins_vault.
    replace (existsb _ (documents (db w'))) with false; [reflexivity|].
    symmetry. apply not_true_is_false. intros Hex.
    apply existsb_exists in Hex as (d & Hin & Hd').
    apply andb_true_iff in Hd' as [_ Hvid].
    assert (Hin' : In d (documents_of (db w') vault_id))
      by (apply filter_In; split; assumption).
    now rewrite Hdocs in Hin'.
  - intros Hnd. unfold get_vault, query_vault. rewrite Hv.
    now apply remove_vault_gone.
Qed.

(** Deleting a vault removes its documents and leaves no chunk that
    joins it, pending or embedded; with vault ids that are a key the
    vault is no longer found. *)
Theorem delete_removes_vault_data : forall w vault_id w',
  delete_vault w vault_id = (true, w') ->
  documents_of (db w') vault_id = [] /\
  (forall flag, query_chunks (db w') vault_id flag = []) /\
  (NoDup (map Vault.id (vaults (db w))) -> get_vault w' vault_id = None).
Proof. exact delete_removes_vault_data_holds. Qed.

(** Deleting a vault leaves every other vault as it was: the vault is
    found as before, its documents are the same and, with document ids
    that are a key, so are its chunks. *)
Theorem delete_keeps_other_vaults : forall w vault_id w' other,
  delete_vault w vault_id = (true, w') ->
  other <> vault_id ->
  get_vault w' other = get_vault w other /\
  documents_of (db w') other = documents_of (db w) other /\
  (NoDup (map Document.id (documents (db w))) ->
   forall flag, query_chunks (db w') other flag
                = query_chunks (db w) other flag).
Proof.
  intros w vault_id w' other H Hne.
  apply delete_inversion in H as (Hv & Hd & Hc).
  split; [|split].
  - unfold get_vault, query_vault. rewrite Hv. now apply remove_vault_other.
  - unfold documents_of. rewrite Hd, filter_filter. apply filter_ext.
    intros d. destruct (String.eqb_spec (Document.vault_id d) other) as [E|];
      [|now rewrite andb_false_r].
    destruct (String.eqb_spec (Document.vault_id d) vault_id);
      [congruence|reflexivity].
  - intros Hnd flag. unfold query_chunks. rewrite Hc, filter_filter.
    apply filter_ext_in. intros c Hc'.
    assert (Hjoin : joins_vault (db w') other c = joins_vault (db w) other c).
    { unfold joins_vault. rewrite Hd. clear - Hne.
      induction (documents (db w)) as [|d l IH]; [reflexivity|].
      cbn [filter existsb].
      destruct (String.eqb_spec (Document.vault_id d) vault_id) as [E|E];
        cbn [negb existsb].
      - destruct (String.eqb_spec (Document.vault_id d) other);
          [congruence|]. rewrite andb_false_r. cbn [orb]. exact IH.
      - f_equal. exact IH. }
    rewrite Hjoin.
    destruct (joins_vault (db w) other c) eqn:Hj;
      [|now rewrite andb_false_r].
    replace (chunk_of_any (documents_of (db w) vault_id) c) with false;
      [reflexivity|].
    symmetry. apply not_true_is_false. intros Hany.
    apply existsb_exists in Hany as (g & Hg & Hgid).
    apply filter_In in Hg as [Hgin Hgv].
    apply String.eqb_eq in Hgid, Hgv.
    apply existsb_exists in Hj as (d & Hdin & Hdd).
    apply andb_true_iff in Hdd as [Hdid Hdv].
    apply String.eqb_eq in Hdid, Hdv.
    assert (Hsame : forall (l : list Document.t) a b,
      NoDup (map Document.id l) -> In a l -> In b l ->
      Document.id a = Document.id b -> a = b).
    { clear. induction l as [|h l IH]; intros a b Hnd Ha Hb Hid;
        [contradiction|].
      cbn [map] in Hnd. apply NoDup_cons_iff in Hnd as [Hh Hnd].
      destruct Ha as [<- | Ha], Hb as [<- | Hb]; try reflexivity.
      - exfalso. apply Hh. rewrite Hid. now apply in_map.
      - exfalso. apply Hh. rewrite <- Hid. now apply in_map.
      - now apply IH. }
    assert (g = d) by (apply (Hsame _ g d Hnd Hgin Hdin); congruence).
    subst g. congruence.
Qed.

Ltac distinct_strings :=
  repeat (constructor; [cbn; intuition discriminate|]); constructor.

Lemma register_keeps_paths_unique_witness :
  exists vault w',
    register_vault demo_uuid4 demo_is_dir demo_resolve demo_world
                   "work" "/w" = Ok (vault, w') /\
    NoDup (map Vault.path (vaults (db w'))) /\
    Vault.path vault = demo_resolve "/w" /\
    Vault.is_indexed vault = false /\
    documents (db w') = documents (db demo_world) /\
    chunks (db w') = chunks (db demo_world).
Proof.
  eexists _, _. split; [vm_compute; reflexivity|].
  eapply (register_keeps_paths_unique demo_uuid4 demo_is_dir demo_resolve
            demo_world "work" "/w").
  - distinct_strings.
  - reflexivity.
Defined.

Lemma register_twice_fails_witness :
  exists vault w',
    register_vault demo_uuid4 demo_is_dir demo_resolve demo_world
                   "work" "/w" = Ok (vault, w') /\
    register_vault demo_uuid4 demo_is_dir demo_resolve w' "again" "/w"
    = Raise (ValueError ("A vault with path '" ++ "/w"
                         ++ "' is already registered")).
Proof.
  eexists _, _. split; [vm_compute; reflexivity|].
  eapply (register_twice_fails demo_uuid4 demo_is_dir demo_resolve
            demo_world "work" "/w"); reflexivity.
Defined.

Lemma register_then_get_witness :
  exists vault w',
    register_vault demo_uuid4 demo_is_dir demo_resolve demo_world
                   "work" "/w" = Ok (vault, w') /\
    get_vault w' (Vault.id vault) = Some vault /\
    In vault (get_all_vaults w') /\
    (forall vault_id v, get_vault demo_world vault_id = Some v ->
                        get_vault w' vault_id = Some v).
Proof.
  eexists _, _. split; [vm_compute; reflexivity|].
  eapply (register_then_get demo_uuid4 demo_is_dir demo_resolve
            demo_world "work" "/w").
  - reflexivity.
  - repeat constructor. discriminate.
Defined.

Lemma delete_removes_vault_data_witness :
  exists w',
    delete_vault two_vaults "v1" = (true, w') /\
    documents_of (db w') "v1" = [] /\
    (forall flag, query_chunks (db w') "v1" flag = []) /\
    (NoDup (map Vault.id (vaults (db two_vaults))) ->
     get_vault w' "v1" = None).
Proof.
  eexists. split; [vm_compute; reflexivity|].
  eapply (delete_removes_vault_data two_vaults "v1"). reflexivity.
Defined.

Lemma delete_keeps_other_vaults_witness :
  exists w',
    delete_vault two_vaults "v1" = (true, w') /\
    get_vault w' "v2" = get_vault two_vaults "v2" /\
    documents_of (db w') "v2" = documents_of (db two_vaults) "v2" /\
    (NoDup (map Document.id (documents (db two_vaults))) ->
     forall flag, query_chunks (db w') "v2" flag
                  = query_chunks (db two_vaults) "v2" flag).
Proof.
  eexists. split; [vm_compute; reflexivity|].
  eapply (delete_keeps_other_vaults two_vaults "v1").
  - reflexivity.
  - discriminate.
Defined.

End VaultRegistryFacts.

(** ** Queries *)

Module QueryEngineFacts.
Import VectorStore QueryEngine.

Section WithEmbedder.
Context {embedder : BaseEmbedder}.
Variable vector_store_path : string.

Local Abbreviation search := (VectorStore.search vector_store_path).

(** An answer of the search has at most [top_k] entries. *)
Lemma search_length w vault_id query_text top_k found :
  search w vault_id query_text top_k = Ok found ->
  Py.len found <= top_k.
Proof.
  unfold VectorStore.search.
  destruct (index_files w _); [|discriminate].
  destruct (embed_text query_text); [|discriminate]. cbn [bind].
  destruct (Faiss.search _ _ _) as [[D I0]|] eqn:Hs; [|discriminate].
  cbn [bind snd].
  destruct (FaissFacts.search_answer _ _ _ _ _ Hs) as (Hk & _ & HI & _).
  destruct (order_by_id _) as [|c cs] eqn:Hall;
    [intros [= <-]; unfold Py.len; cbn; lia|].
  destruct (Py.len I0 =? 0); [intros [= <-]; unfold Py.len; cbn; lia|].
  intros H. apply VectorStoreFacts.resolve_entries in H as (new & -> & Hnew).
  cbn [app]. apply Forall2_length in Hnew.
  pose proof (filter_length_le (fun idx => idx <? Py.len (c :: cs)) I0).
  unfold Py.len in *. lia.
Qed.

(** A query that returns is the search of a vault that exists: its
    results are the search's, its sources name the document of every
    result, one by one in the same order, and there are at most [top_k]
    of them. *)
Theorem query_sources_follow_results :
  forall w vault_id query_text top_k answer,
    query vector_store_path w vault_id query_text top_k = Ok answer ->
    query_vault (db w) vault_id <> None /\
    search w vault_id query_text top_k = Ok (results answer) /\
    query_of answer = query_text /\
    map source_document_name (sources answer)
      = map document_name (results answer) /\
    map source_document_path (sources answer)
      = map document_path (results answer) /\
    Py.len (sources answer) <= top_k.
Proof.
  intros w vault_id query_text top_k answer. unfold query.
  destruct (query_vault (db w) vault_id); [|discriminate].
  destruct (search w vault_id query_text top_k) as [found|] eqn:Hs;
    [|discriminate].
  cbn [bind]. intros [= <-]. cbn [results sources query_of].
  rewrite !map_map. cbn [source_document_name source_document_path].
  repeat split; try discriminate.
  unfold Py.len. rewrite length_map.
  exact (search_length _ _ _ _ _ Hs).
Qed.

(** The index file outlives the vault. After a vault is deleted (vault
    ids being a key), a query on it raises ValueError, while a search
    that goes to the vector store directly still uses the index file
    that was left behind and returns the empty list. *)
Theorem deleted_vault_queries :
  forall w vault_id w' files query_text top_k,
    VaultRegistry.delete_vault w vault_id = (true, w') ->
    NoDup (map Vault.id (vaults (VaultManager.db w))) ->
    query vector_store_path (mkWorld (VaultManager.db w') files)
          vault_id query_text top_k
    = Raise (ValueError ("Vault with ID '" ++ vault_id ++ "' not found")) /\
    (forall found,
       search (mkWorld (VaultManager.db w') files) vault_id query_text top_k
         = Ok found -> found = []).
Proof.
  intros w vault_id w' files query_text top_k Hdel Hnd.
  destruct (VaultRegistryFacts.delete_removes_vault_data_holds _ _ _ Hdel)
    as (_ & Hnone & Hgone).
  split.
  - unfold query. cbn [db]. specialize (Hgone Hnd).
    unfold VaultManager.get_vault in Hgone. now rewrite Hgone.
  - intros found Hs.
    apply VectorStoreMoreFacts.search_answers_from_the_vault_holds in Hs.
    destruct found as [|r rest]; [reflexivity|]. exfalso.
    inversion Hs as [|? ? (c & (Hin & Hj & He) & _) _]; subst.
    cbn [db] in *.
    assert (Hq : In c (query_chunks (VaultManager.db w') vault_id true)).
    { apply filter_In. split; [exact Hin|]. now rewrite Hj, He. }
    now rewrite Hnone in Hq.
Qed.

End WithEmbedder.

Lemma query_sources_follow_results_witness :
  exists answer,
    @query length_embedder "/store" world_one_vector "v1" "zz" 2
      = Ok answer /\
    query_vault (db world_one_vector) "v1" <> None /\
    @VectorStore.search length_embedder "/store" world_one_vector "v1"
                        "zz" 2 = Ok (results answer) /\
    query_of answer = "zz"%string /\
    map source_document_name (sources answer)
      = map document_name (results answer) /\
    map source_document_path (sources answer)
      = map document_path (results answer) /\
    Py.len (sources answer) <= 2.
Proof.
  eexists. split; [vm_compute; reflexivity|].
  eapply (@query_sources_follow_results length_embedder "/store"
            world_one_vector "v1" "zz" 2).
  reflexivity.
Defined.

Lemma deleted_vault_queries_witness :
  exists w',
    VaultRegistry.delete_vault VaultRegistry.two_vaults "v1" = (true, w') /\
    @query length_embedder "/store"
           (mkWorld (VaultManager.db w') (index_files world_one_vector))
           "v1" "zz" 1
    = Raise (ValueError ("Vault with ID '" ++ "v1" ++ "' not found")) /\
    (forall found,
       @VectorStore.search length_embedder "/store"
         (mkWorld (VaultManager.db w') (index_files world_one_vector))
         "v1" "zz" 1 = Ok found -> found = []).
Proof.
  eexists. split; [vm_compute; reflexivity|].
  eapply (@deleted_vault_queries length_embedder "/store"
            VaultRegistry.two_vaults "v1").
  - reflexivity.
  - repeat (constructor; [cbn; intuition discriminate|]); constructor.
Defined.

End QueryEngineFacts.

(** ** More on the scan: what it keeps, and scanning twice *)

Module ScanMoreFacts.
Import VaultManager ScanViews.

Lemma same_file_refl d : same_file d d.
Proof. repeat split. Qed.

Lemma same_file_trans a b c : same_file a b -> same_file b c -> same_file a c.
Proof. unfold same_file. intuition congruence. Qed.

Lemma Forall2_same {A} (R : A -> A -> Prop) :
  (forall a, R a a) -> forall l, Forall2 R l l.
Proof. intros HR. induction l; constructor; auto. Qed.

Lemma Forall2_chain {A} (R : A -> A -> Prop) :
  (forall a b c, R a b -> R b c -> R a c) ->
  forall l1 l2 l3, Forall2 R l1 l2 -> Forall2 R l2 l3 -> Forall2 R l1 l3.
Proof.
  intros HR l1 l2 l3 H12. revert l3.
  induction H12; intros l3 H23; inversion H23; subst; constructor; eauto.
Qed.

Lemma set_content_hash_same_file doc_id h : forall docs,
  Forall2 same_file docs (set_content_hash doc_id h docs).
Proof.
  induction docs as [|d docs IH]; cbn [set_content_hash]; [constructor|].
  destruct (String.eqb (Document.id d) doc_id); constructor;
    try assumption; try apply same_file_refl.
  - repeat split.
  - apply Forall2_same, same_file_refl.
Qed.

Lemma set_indexed_same_vault vault_id : forall l,
  Forall2 same_vault l (set_indexed vault_id l).
Proof.
  induction l as [|v l IH]; cbn [set_indexed]; [constructor|].
  destruct (String.eqb (Vault.id v) vault_id); constructor;
    try assumption; try (repeat split).
  apply Forall2_same. repeat split.
Qed.

Section WithHash.
Variable _calculate_hash : string -> string.
Variable uuid4 : nat -> string.

Local Abbreviation scan_file := (VaultManager.scan_file _calculate_hash uuid4).
Local Abbreviation parse := (VaultManager.parse_file _calculate_hash).

Lemma grown_step vault_id docs0 stats ep w file :
  grown vault_id docs0 (new_files stats) (documents (db w)) ->
  let st := scan_file vault_id (stats, ep, w) file in
  grown vault_id docs0 (new_files (fst (fst st))) (documents (db (snd st))) /\
  chunks (db (snd st)) = chunks (db w) /\
  vaults (db (snd st)) = vaults (db w).
Proof.
  intros (kept & added & Hdocs & Hkept & Hlen & Hvault).
  unfold VaultManager.scan_file.
  destruct (parse (fs w) (absolute_path file)) as [[content h]|e].
  - destruct (dict_get (relative_path file) ep) as [doc|].
    + destruct (negb (Document.content_hash doc =? h)%string);
        cbn [fst snd new_files bump_updated bump_unchanged];
        [|split; [exists kept, added; auto|split; reflexivity]].
      split; [|split; reflexivity].
      cbn [with_documents db documents].
      pose proof (set_content_hash_same_file (Document.id doc) h
                    (documents (db w))) as Hsame.
      rewrite Hdocs in Hsame at 1.
      apply Forall2_app_inv_l in Hsame as (kept' & added' & Hk & Ha & ->).
      exists kept', added'. split; [reflexivity|]. split; [|split].
      * eapply Forall2_chain; [exact same_file_trans|exact Hkept|exact Hk].
      * apply Forall2_length in Ha. unfold Py.len in *. lia.
      * clear - Ha Hvault. induction Ha; [constructor|].
        inversion Hvault; subst. constructor; [|auto].
        destruct H as (_ & Hv & _). congruence.
    + cbn [fst snd new_files bump_new add_document db documents
               chunks vaults].
      split; [|split; reflexivity].
      exists kept, (added ++ [Document.mk (uuid4 (drawn w)) vault_id
                                (relative_path file) (name file) h]).
      split; [now rewrite Hdocs, app_assoc|]. split; [exact Hkept|].
      split.
      * unfold Py.len in *. rewrite length_app. cbn [length]. lia.
      * apply Forall_app. split; [exact Hvault|]. now constructor.
  - cbn [fst snd new_files bump_errors].
    split; [exists kept, added; auto|split; reflexivity].
Qed.

Lemma grown_loop vault_id docs0 : forall files stats ep w,
  grown vault_id docs0 (new_files stats) (documents (db w)) ->
  let st := fold_left (scan_file vault_id) files (stats, ep, w) in
  grown vault_id docs0 (new_files (fst (fst st))) (documents (db (snd st))) /\
  chunks (db (snd st)) = chunks (db w) /\
  vaults (db (snd st)) = vaults (db w).
Proof.
  induction files as [|file files IH]; intros stats ep w Hg.
  - cbn. auto.
  - cbn [fold_left].
    destruct (grown_step vault_id docs0 stats ep w file Hg) as (Hg1 & Hc1 & Hv1).
    destruct (scan_file vault_id (stats, ep, w) file) as [[stats1 ep1] w1].
    cbn [fst snd] in *.
    destruct (IH stats1 ep1 w1 Hg1) as (Hg2 & Hc2 & Hv2).
    cbv zeta. split; [exact Hg2|]. split; congruence.
Qed.

(** A scan never removes anything. When it returns, the chunks are as
    they were; every document row it found is still there, in place,
    with the same id, vault, path and filename (also when its file is
    gone from the disk); exactly [new_files] rows of the scanned vault
    were appended; and every vault keeps its id, name and path. *)
Theorem scan_never_deletes : forall w vault_id stats w',
  VaultManager.scan_vault _calculate_hash uuid4 w vault_id = Ok (stats, w') ->
  chunks (db w') = chunks (db w) /\
  Forall2 same_vault (vaults (db w)) (vaults (db w')) /\
  exists kept added,
    documents (db w') = kept ++ added /\
    Forall2 same_file (documents (db w)) kept /\
    Py.len added = new_files stats /\
    Forall (fun d => Document.vault_id d = vault_id) added.
Proof.
  intros w vault_id stats w'. unfold VaultManager.scan_vault, get_vault.
  destruct (query_vault (db w) vault_id) as [vault|]; [|discriminate].
  destruct (negb (path_exists (fs w) (Vault.path vault))); [discriminate|].
  cbn [new_files updated_files unchanged_files errors].
  set (files := glob_md (fs w) (Vault.path vault)).
  set (ep := existing_paths_of _).
  destruct (grown_loop vault_id (documents (db w)) files
              (mkStats (Py.len files) 0 0 0 0) ep w) as (Hg & Hc & Hv).
  { exists (documents (db w)), []. rewrite app_nil_r.
    repeat split; [apply Forall2_same, same_file_refl|constructor]. }
  destruct (fold_left (scan_file vault_id) files
              (mkStats (Py.len files) 0 0 0 0, ep, w)) as [[stats1 ep1] w1].
  cbn [fst snd] in *. intros [= <- <-].
  cbn [db chunks vaults documents]. split; [exact Hc|]. split; [|exact Hg].
  rewrite Hv. apply set_indexed_same_vault.
Qed.

End WithHash.

Lemma scan_never_deletes_witness :
  exists stats w',
    VaultManager.scan_vault demo_content_hash demo_uuid4 demo_world "v1"
      = Ok (stats, w') /\
    chunks (db w') = chunks (db demo_world) /\
    Forall2 same_vault (vaults (db demo_world)) (vaults (db w')) /\
    exists kept added,
      documents (db w') = kept ++ added /\
      Forall2 same_file (documents (db demo_world)) kept /\
      Py.len added = new_files stats /\
      Forall (fun d => Document.vault_id d = "v1"%string) added.
Proof.
  eexists _, _. split; [vm_compute; reflexivity|].
  eapply (scan_never_deletes demo_content_hash demo_uuid4 demo_world "v1").
  reflexivity.
Defined.

(** *** Scanning twice *)

Lemma dict_get_set_same k v : forall d,
  dict_get k (dict_set k v d) = Some v.
Proof.
  induction d as [|[k0 v0] d IH]; unfold dict_get in *; cbn [dict_set find fst].
  - now rewrite String.eqb_refl.
  - destruct (String.eqb_spec k0 k) as [E|E]; cbn [find fst].
    + now rewrite String.eqb_refl.
    + destruct (String.eqb_spec k0 k); [contradiction|exact IH].
Qed.

Lemma dict_get_set_other k k' v : forall d,
  k' <> k -> dict_get k' (dict_set k v d) = dict_get k' d.
Proof.
  intros d Hne.
  induction d as [|[k0 v0] d IH]; unfold dict_get in *; cbn [dict_set find fst].
  - destruct (String.eqb_spec k k'); [congruence|reflexivity].
  - destruct (String.eqb_spec k0 k) as [E|E]; cbn [find fst].
    + subst k0. destruct (String.eqb_spec k k'); [congruence|reflexivity].
    + destruct (String.eqb k0 k'); [reflexivity|exact IH].
Qed.

Lemma find_over_app {A} (f : A -> bool) : forall l1 l2,
  find f (l1 ++ l2)
  = match find f l1 with Some x => Some x | None => find f l2 end.
Proof.
  induction l1 as [|a l1 IH]; intros l2; [reflexivity|].
  cbn [app find]. destruct (f a); [reflexivity|apply IH].
Qed.

Lemma dict_get_fold p : forall l d0,
  dict_get p (fold_left (fun d doc => dict_set (Document.path doc) doc d) l d0)
  = match find (has_path p) (rev l) with
    | Some doc => Some doc
    | None => dict_get p d0
    end.
Proof.
  induction l as [|doc l IH]; intros d0; [reflexivity|].
  cbn [fold_left rev]. rewrite IH, find_over_app.
  destruct (find (has_path p) (rev l)); [reflexivity|].
  cbn [find]. unfold has_path.
  destruct (String.eqb_spec (Document.path doc) p) as [E|E].
  - rewrite <- E. apply dict_get_set_same.
  - apply dict_get_set_other. congruence.
Qed.

(** The dictionary a scan starts from gives, for a path, the last
    document with that path. *)
Lemma dict_get_existing p l :
  dict_get p (existing_paths_of l) = find (has_path p) (rev l).
Proof.
  unfold existing_paths_of. rewrite dict_get_fold.
  now destruct (find (has_path p) (rev l)).
Qed.

Lemma same_id_same_document : forall (l : list Document.t) a b,
  NoDup (map Document.id l) -> In a l -> In b l ->
  Document.id a = Document.id b -> a = b.
Proof.
  induction l as [|h l IH]; intros a b Hnd Ha Hb Hid; [contradiction|].
  cbn [map] in Hnd. apply NoDup_cons_iff in Hnd as [Hh Hnd].
  destruct Ha as [<- | Ha], Hb as [<- | Hb]; try reflexivity.
  - exfalso. apply Hh. rewrite Hid. now apply in_map.
  - exfalso. apply Hh. rewrite <- Hid. now apply in_map.
  - now apply IH.
Qed.

Lemma set_content_hash_map i h : forall l,
  NoDup (map Document.id l) ->
  set_content_hash i h l
  = map (fun d => if String.eqb (Document.id d) i then with_hash d h else d) l.
Proof.
  induction l as [|d l IH]; intros Hnd; [reflexivity|].
  cbn [map] in Hnd. apply NoDup_cons_iff in Hnd as [Hd Hnd].
  cbn [set_content_hash map].
  destruct (String.eqb_spec (Document.id d) i) as [E|E].
  - f_equal. rewrite <- (map_id l) at 1. apply map_ext_in.
    intros c Hc. destruct (String.eqb_spec (Document.id c) i) as [E'|];
      [|reflexivity].
    exfalso. apply Hd. rewrite E, <- E'. now apply in_map.
  - f_equal. now apply IH.
Qed.

Lemma set_content_hash_app i h : forall l1 l2,
  In i (map Document.id l1) ->
  set_content_hash i h (l1 ++ l2) = set_content_hash i h l1 ++ l2.
Proof.
  induction l1 as [|d l1 IH]; intros l2 Hin; [contradiction|].
  cbn [app set_content_hash].
  destruct (String.eqb_spec (Document.id d) i) as [E|E]; [reflexivity|].
  cbn [app]. f_equal. apply IH. destruct Hin; [contradiction|assumption].
Qed.

Lemma find_map_same {A} (f : A -> bool) (g : A -> A) :
  (forall a, f (g a) = f a) ->
  forall l, find f (map g l) = option_map g (find f l).
Proof.
  intros Hfg. induction l as [|a l IH]; [reflexivity|].
  cbn [map find]. rewrite Hfg. destruct (f a); [reflexivity|exact IH].
Qed.

Lemma filter_map_same {A} (f : A -> bool) (g : A -> A) :
  (forall a, f (g a) = f a) ->
  forall l, filter f (map g l) = map g (filter f l).
Proof.
  intros Hfg. induction l as [|a l IH]; [reflexivity|].
  cbn [map filter]. rewrite Hfg. destruct (f a); cbn [map]; now rewrite IH.
Qed.

(** Rewriting the hash of one row moves the lookups with it. *)
Lemma last_with_path_rehash vault_id i h l p :
  last_with_path vault_id
    (map (fun d => if String.eqb (Document.id d) i then with_hash d h else d) l)
    p
  = option_map
      (fun d => if String.eqb (Document.id d) i then with_hash d h else d)
      (last_with_path vault_id l p).
Proof.
  unfold last_with_path.
  rewrite filter_map_same, <- map_rev, find_map_same; [reflexivity| |];
    intros a; unfold has_path, in_vault;
    now destruct (String.eqb (Document.id a) i).
Qed.

Lemma last_with_path_in vault_id l p doc :
  last_with_path vault_id l p = Some doc ->
  In doc l /\ Document.path doc = p /\ Document.vault_id doc = vault_id.
Proof.
  unfold last_with_path. intros H. apply find_some in H as [Hin Hp].
  apply in_rev, filter_In in Hin as [Hin Hv].
  unfold has_path, in_vault in *.
  apply String.eqb_eq in Hp, Hv. auto.
Qed.

Section Twice.
Variable _calculate_hash : string -> string.
Variable uuid4 : nat -> string.
Variable vault_id : string.
Variable fsys : FileSystem.

Local Abbreviation scan_file := (VaultManager.scan_file _calculate_hash uuid4).
Local Abbreviation parse := (VaultManager.parse_file _calculate_hash).
Local Abbreviation in_step := (ScanViews.in_step _calculate_hash vault_id fsys).
Local Abbreviation synced := (ScanViews.synced _calculate_hash fsys).

Lemma current_other_key ep added k v p :
  p <> k -> current (dict_set k v ep) added p = current ep added p.
Proof.
  intros Hne. unfold current.
  destruct (find (has_path p) (rev added)); [reflexivity|].
  now apply dict_get_set_other.
Qed.

Lemma current_other_row ep added nd p :
  Document.path nd <> p ->
  current ep (added ++ [nd]) p = current ep added p.
Proof.
  intros Hne. unfold current. rewrite rev_app_distr. cbn [rev app find].
  unfold has_path at 1.
  destruct (String.eqb_spec (Document.path nd) p); [contradiction|reflexivity].
Qed.

(** One more file keeps the database in step. *)
Lemma in_step_file done stats ep w file :
  in_step done ep w ->
  ~ In (relative_path file) (map relative_path done) ->
  in_step (file :: done)
          (snd (fst (scan_file vault_id (stats, ep, w) file)))
          (snd (scan_file vault_id (stats, ep, w) file)).
Proof.
  intros (Hfs & old & added & Hdocs & Hnd & Htr & Hv & Hpaths & Hsync) Hfresh.
  assert (Hnone : find (has_path (relative_path file)) (rev added) = None).
  { destruct (find _ (rev added)) as [a|] eqn:E; [|reflexivity].
    exfalso. apply find_some in E as [Hin Hp]. apply in_rev in Hin.
    unfold has_path in Hp. apply String.eqb_eq in Hp.
    apply Hfresh. rewrite <- Hp. now apply Hpaths. }
  assert (Hother : forall g, In g done ->
                             relative_path g <> relative_path file).
  { intros g Hg E. apply Hfresh. rewrite <- E. now apply in_map. }
  assert (Hwider : forall a, In a added ->
            In (Document.path a) (map relative_path (file :: done))).
  { intros a Ha. right. now apply Hpaths. }
  unfold VaultManager.scan_file. rewrite Hfs.
  destruct (parse fsys (absolute_path file)) as [[content h]|e] eqn:Hparse.
  - destruct (dict_get (relative_path file) ep) as [doc|] eqn:Hget.
    + destruct (String.eqb_spec (Document.content_hash doc) h) as [Hh|Hh];
        cbn [negb fst snd].
      * split; [exact Hfs|]. exists old, added.
        repeat (split; [assumption|]).
        intros g [<- | Hg]; [|now apply Hsync].
        intros c' h' Hp. rewrite Hparse in Hp. injection Hp as _ <-.
        exists doc. split; [|exact Hh]. unfold current. now rewrite Hnone.
      * pose proof (Htr (relative_path file)) as Hlast.
        rewrite Hget in Hlast. symmetry in Hlast.
        apply last_with_path_in in Hlast as (Hin & Hpath & _).
        split; [exact Hfs|].
        exists (map (fun d => if String.eqb (Document.id d) (Document.id doc)
                              then with_hash d h else d) old), added.
        split.
        { cbn [with_documents db documents]. rewrite Hdocs.
          rewrite set_content_hash_app by now apply in_map.
          now rewrite set_content_hash_map. }
        split.
        { rewrite map_map. erewrite map_ext; [exact Hnd|].
          intros d. now destruct (String.eqb (Document.id d) (Document.id doc)). }
        split.
        { intros p. rewrite last_with_path_rehash.
          destruct (String.eqb_spec p (relative_path file)) as [-> | Hp].
          - rewrite dict_get_set_same, <- Htr, Hget. cbn [option_map].
            now rewrite String.eqb_refl.
          - rewrite dict_get_set_other by assumption. rewrite Htr.
            destruct (last_with_path vault_id old p) as [d|] eqn:El;
              [|reflexivity].
            cbn [option_map].
            apply last_with_path_in in El as (Hd & Hdp & _).
            destruct (String.eqb_spec (Document.id d) (Document.id doc));
              [|reflexivity].
            exfalso. apply Hp.
            rewrite <- Hdp, <- Hpath. f_equal.
            eapply same_id_same_document; eassumption. }
        split; [exact Hv|]. split; [exact Hwider|].
        intros g [<- | Hg].
        { intros c' h' Hp. rewrite Hparse in Hp. injection Hp as _ <-.
          eexists. split.
          - unfold current. rewrite Hnone. apply dict_get_set_same.
          - reflexivity. }
        { intros c' h' Hp. destruct (Hsync g Hg c' h' Hp) as (d & Hd & Hdh).
          exists d. split; [|exact Hdh].
          rewrite current_other_key; [exact Hd|now apply Hother]. }
    + cbn [fst snd]. split; [exact Hfs|].
      exists old,
        (added ++ [Document.mk (uuid4 (drawn w)) vault_id
                               (relative_path file) (name file) h]).
      split; [cbn [add_document db documents]; now rewrite Hdocs, app_assoc|].
      split; [exact Hnd|]. split; [exact Htr|].
      split; [apply Forall_app; split; [exact Hv|now constructor]|].
      split.
      { intros a Ha. apply in_app_or in Ha as [Ha | [<- | []]];
          [now apply Hwider|now left]. }
      intros g [<- | Hg].
      { intros c' h' Hp. rewrite Hparse in Hp. injection Hp as _ <-.
        exists (Document.mk (uuid4 (drawn w)) vault_id
                            (relative_path file) (name file) h).
        split; [|reflexivity].
        unfold current. rewrite rev_app_distr. cbn [rev app find].
        unfold has_path at 1. cbn [Document.path].
        now rewrite String.eqb_refl. }
      { intros c' h' Hp. destruct (Hsync g Hg c' h' Hp) as (d & Hd & Hdh).
        exists d. split; [|exact Hdh].
        rewrite current_other_row; [exact Hd|].
        cbn [Document.path]. intros E. now apply (Hother g Hg). }
  - cbn [fst snd]. split; [exact Hfs|]. exists old, added.
    repeat (split; [assumption|]).
    intros g [<- | Hg]; [|now apply Hsync].
    intros c' h' Hp. rewrite Hparse in Hp. discriminate.
Qed.

(** The whole loop keeps the database in step, when no two files have
    the same relative path. *)
Lemma in_step_loop : forall files done stats ep w,
  in_step done ep w ->
  NoDup (map relative_path files) ->
  (forall f, In f files ->
             ~ In (relative_path f) (map relative_path done)) ->
  in_step (rev files ++ done)
    (snd (fst (fold_left (scan_file vault_id) files (stats, ep, w))))
    (snd (fold_left (scan_file vault_id) files (stats, ep, w))).
Proof.
  induction files as [|f files IH]; intros done stats ep w Hin Hnd Hfresh.
  - exact Hin.
  - cbn [fold_left rev]. rewrite <- app_assoc. cbn [app].
    pose proof (in_step_file done stats ep w f Hin
                  (Hfresh f (or_introl eq_refl))) as Hstep.
    destruct (scan_file vault_id (stats, ep, w) f) as [[s1 ep1] w1].
    cbn [fst snd] in Hstep.
    cbn [map] in Hnd. apply NoDup_cons_iff in Hnd as [Hnotin Hnd].
    apply IH; [exact Hstep|exact Hnd|].
    intros g Hg [E | E].
    + apply Hnotin. rewrite E. now apply in_map.
    + now apply (Hfresh g); [right|].
Qed.

(** Before the first file, the dictionary is built from the rows of the
    vault. *)
Lemma in_step_start w :
  fs w = fsys ->
  NoDup (map Document.id (documents (db w))) ->
  in_step [] (existing_paths_of
                (filter (in_vault vault_id) (documents (db w)))) w.
Proof.
  intros Hfs Hnd. split; [exact Hfs|].
  exists (documents (db w)), []. rewrite app_nil_r.
  split; [reflexivity|]. split; [exact Hnd|].
  split; [intros p; apply dict_get_existing|].
  split; [constructor|]. split; intros ? [].
Qed.

(** The dictionary of the next scan holds, for every path, the document
    that stands for it now. *)
Lemma next_dictionary ep old added p :
  tracks vault_id ep old ->
  Forall (fun d => Document.vault_id d = vault_id) added ->
  dict_get p (existing_paths_of (filter (in_vault vault_id) (old ++ added)))
  = current ep added p.
Proof.
  intros Htr Hv.
  rewrite dict_get_existing, filter_app, rev_app_distr, find_over_app.
  rewrite (ChunkerStoreFacts.filter_all (in_vault vault_id) added).
  - unfold current. destruct (find (has_path p) (rev added)); [reflexivity|].
    symmetry. apply Htr.
  - eapply Forall_impl; [|exact Hv].
    intros d Hd. unfold in_vault. rewrite Hd. apply String.eqb_refl.
Qed.

(** A loop that finds every parsed file in the dictionary with its
    hash moves nothing but the counters. *)
Lemma steady_loop : forall files stats ep w,
  fs w = fsys ->
  (forall g, In g files -> synced ep [] g) ->
  fold_left (scan_file vault_id) files (stats, ep, w)
  = (add_counts stats (map (steady_category _calculate_hash fsys) files),
     ep, w).
Proof.
  induction files as [|f files IH]; intros stats ep w Hfs Hall.
  - cbn [fold_left map]. f_equal. f_equal.
    apply VaultManagerFacts.stats_eq; cbn; lia.
  - cbn [fold_left map].
    assert (Hone : scan_file vault_id (stats, ep, w) f
                   = (add_counts stats [steady_category _calculate_hash fsys f],
                      ep, w)).
    { unfold VaultManager.scan_file, steady_category. rewrite Hfs.
      destruct (parse fsys (absolute_path f)) as [[c h]|e] eqn:Hp.
      - destruct (Hall f (or_introl eq_refl) c h Hp) as (doc & Hd & Hh).
        unfold current in Hd. cbn [rev find] in Hd. rewrite Hd, Hh.
        rewrite String.eqb_refl. cbn [negb]. f_equal. f_equal.
        apply VaultManagerFacts.stats_eq; cbn; lia.
      - f_equal. f_equal. apply VaultManagerFacts.stats_eq; cbn; lia. }
    rewrite Hone, IH; [|exact Hfs|intros g Hg; apply Hall; now right].
    now rewrite VaultManagerFacts.add_counts_cons.
Qed.

(** The counters of a steady scan against those of any scan of the same
    files. *)
Lemma steady_counts : forall files cats,
  Forall2 (fun file c => c = Error <-> fails _calculate_hash fsys file)
          files cats ->
  count New (map (steady_category _calculate_hash fsys) files) = 0 /\
  count Updated (map (steady_category _calculate_hash fsys) files) = 0 /\
  count Unchanged (map (steady_category _calculate_hash fsys) files)
    = count New cats + count Updated cats + count Unchanged cats /\
  count Error (map (steady_category _calculate_hash fsys) files)
    = count Error cats.
Proof.
  induction 1 as [|f c files cats Hc _ IH].
  - repeat split; reflexivity.
  - destruct IH as (H1 & H2 & H3 & H4).
    assert (Hcase : (steady_category _calculate_hash fsys f = Unchanged
                     /\ c <> Error)
                    \/ (steady_category _calculate_hash fsys f = Error
                        /\ c = Error)).
    { unfold steady_category, fails in *.
      destruct (parse fsys (absolute_path f)) as [r|e] eqn:Hp.
      - left. split; [reflexivity|].
        intros E. apply Hc in E as [e He]. discriminate.
      - right. split; [reflexivity|]. apply Hc. now exists e. }
    cbn [map]. rewrite !VaultManagerFacts.count_cons.
    destruct Hcase as [[-> Hne] | [-> ->]].
    + destruct c; try contradiction; cbn [category_eqb]; lia.
    + cbn [category_eqb]. lia.
Qed.

End Twice.

Lemma set_indexed_find vault_id : forall l,
  find (fun v => String.eqb (Vault.id v) vault_id) (set_indexed vault_id l)
  = option_map
      (fun v => Vault.mk (Vault.id v) (Vault.name v) (Vault.path v) true)
      (find (fun v => String.eqb (Vault.id v) vault_id) l).
Proof.
  induction l as [|v l IH]; [reflexivity|].
  cbn [set_indexed find].
  destruct (String.eqb (Vault.id v) vault_id) eqn:E; cbn [find Vault.id].
  - now rewrite E.
  - now rewrite E.
Qed.

Lemma set_indexed_twice vault_id : forall l,
  set_indexed vault_id (set_indexed vault_id l) = set_indexed vault_id l.
Proof.
  induction l as [|v l IH]; [reflexivity|].
  cbn [set_indexed].
  destruct (String.eqb (Vault.id v) vault_id) eqn:E;
    cbn [set_indexed Vault.id Vault.name Vault.path]; rewrite E.
  - reflexivity.
  - now rewrite IH.
Qed.

Section Rescan.
Variable _calculate_hash : string -> string.
Variable uuid4 : nat -> string.

Local Abbreviation scan_file := (VaultManager.scan_file _calculate_hash uuid4).
Local Abbreviation scan_vault := (VaultManager.scan_vault _calculate_hash uuid4).

(** A scan of a vault whose files are all in step with the database. *)
Lemma scan_steady w vault_id vault :
  get_vault w vault_id = Some vault ->
  path_exists (fs w) (Vault.path vault) = true ->
  (forall g, In g (glob_md (fs w) (Vault.path vault)) ->
     synced _calculate_hash (fs w)
       (existing_paths_of (filter (in_vault vault_id) (documents (db w))))
       [] g) ->
  scan_vault w vault_id
  = Ok (add_counts
          (mkStats (Py.len (glob_md (fs w) (Vault.path vault))) 0 0 0 0)
          (map (steady_category _calculate_hash (fs w))
               (glob_md (fs w) (Vault.path vault))),
        {| db := {| vaults := set_indexed vault_id (vaults (db w));
                    documents := documents (db w);
                    chunks := chunks (db w) |};
           drawn := drawn w;
           fs := fs w |}).
Proof.
  intros Hv Hpe Hall.
  unfold VaultManager.scan_vault. rewrite Hv, Hpe. cbn [negb]. cbv zeta.
  cbn [new_files updated_files unchanged_files errors].
  change (filter (fun doc => String.eqb (Document.vault_id doc) vault_id)
                 (documents (db w)))
    with (filter (in_vault vault_id) (documents (db w))).
  rewrite (steady_loop _calculate_hash uuid4 vault_id (fs w)
             _ _ _ w eq_refl Hall).
  unfold get_vault in Hv. now rewrite Hv.
Qed.

(** A second scan of an unchanged vault finds nothing new and nothing
    to update: the database stays as the first scan left it, every file
    the first scan counted as new, updated or unchanged is now
    unchanged, and the errors are the same.  Document ids are unique
    (the primary key), and no two files of the vault have the same
    relative path. *)
Theorem rescan_changes_nothing w vault_id vault stats1 w1 :
  get_vault w vault_id = Some vault ->
  NoDup (map Document.id (documents (db w))) ->
  NoDup (map relative_path (glob_md (fs w) (Vault.path vault))) ->
  VaultManager.scan_vault _calculate_hash uuid4 w vault_id
    = Ok (stats1, w1) ->
  exists stats2,
    VaultManager.scan_vault _calculate_hash uuid4 w1 vault_id
      = Ok (stats2, w1) /\
    new_files stats2 = 0 /\
    updated_files stats2 = 0 /\
    unchanged_files stats2
      = new_files stats1 + updated_files stats1 + unchanged_files stats1 /\
    errors stats2 = errors stats1 /\
    total_files stats2 = total_files stats1.
Proof.
  intros Hv Hids Hfiles Hscan.
  unfold VaultManager.scan_vault in Hscan. rewrite Hv in Hscan.
  destruct (path_exists (fs w) (Vault.path vault)) eqn:Hpe;
    cbn [negb] in Hscan; [|discriminate].
  cbv zeta in Hscan.
  cbn [new_files updated_files unchanged_files errors] in Hscan.
  change (filter (fun doc => String.eqb (Document.vault_id doc) vault_id)
                 (documents (db w)))
    with (filter (in_vault vault_id) (documents (db w))) in Hscan.
  set (files := glob_md (fs w) (Vault.path vault)) in *.
  set (ep0 := existing_paths_of _) in Hscan.
  set (stats0 := mkStats (Py.len files) 0 0 0 0) in Hscan.
  destruct (VaultManagerFacts.scan_loop _calculate_hash uuid4 vault_id
              files stats0 ep0 w) as (cats & Hcats & Hs & Hf & Hvs).
  pose proof (in_step_loop _calculate_hash uuid4 vault_id (fs w)
                files [] stats0 ep0 w
                (in_step_start _calculate_hash vault_id (fs w) w
                               eq_refl Hids)
                Hfiles (fun _ _ H => H)) as Hstep.
  destruct (fold_left (scan_file vault_id) files (stats0, ep0, w))
    as [[sf epf] wf] eqn:Hfold.
  cbn [fst snd] in Hs, Hf, Hvs, Hstep.
  pose proof Hv as Hq. unfold get_vault in Hq. rewrite Hq in Hscan.
  injection Hscan as <- <-.
  destruct Hstep
    as (_ & old & added & Hdocs & _ & Htr & Hadded & _ & Hsync).
  rewrite app_nil_r in Hsync.
  eexists. split.
  - rewrite (scan_steady _ vault_id
               (Vault.mk (Vault.id vault) (Vault.name vault)
                         (Vault.path vault) true)).
    + cbn [db vaults documents chunks drawn fs Vault.path].
      rewrite set_indexed_twice, Hf. reflexivity.
    + unfold get_vault, query_vault. cbn [db vaults].
      rewrite set_indexed_find, Hvs.
      unfold query_vault in Hq. now rewrite Hq.
    + cbn [fs Vault.path]. now rewrite Hf.
    + cbn [fs db documents Vault.path]. rewrite Hf. fold files.
      intros g Hg c h Hp.
      destruct (Hsync g (proj1 (in_rev _ _) Hg) c h Hp) as (d & Hd & Hh).
      exists d. split; [|exact Hh].
      unfold current at 1. cbn [rev find].
      rewrite Hdocs, (next_dictionary vault_id epf old added _ Htr Hadded).
      exact Hd.
  - fold files.
    destruct (steady_counts _calculate_hash (fs w) files cats Hcats)
      as (H1 & H2 & H3 & H4).
    rewrite Hs.
    cbn [add_counts new_files updated_files unchanged_files errors
         total_files stats0].
    rewrite H1, H2, H3, H4. repeat split; lia.
Qed.

End Rescan.

Lemma rescan_changes_nothing_witness :
  exists stats1 w1 stats2,
    VaultManager.scan_vault demo_content_hash demo_uuid4 demo_world "v1"
      = Ok (stats1, w1) /\
    VaultManager.scan_vault demo_content_hash demo_uuid4 w1 "v1"
      = Ok (stats2, w1) /\
    new_files stats2 = 0 /\
    updated_files stats2 = 0 /\
    unchanged_files stats2
      = new_files stats1 + updated_files stats1 + unchanged_files stats1 /\
    errors stats2 = errors stats1 /\
    total_files stats2 = total_files stats1.
Proof.
  destruct (VaultManager.scan_vault demo_content_hash demo_uuid4
              demo_world "v1") as [[stats1 w1]|e] eqn:Hscan;
    [|vm_compute in Hscan; discriminate].
  exists stats1, w1.
  destruct (rescan_changes_nothing demo_content_hash demo_uuid4 demo_world
              "v1" (Vault.mk "v1" "notes" "/v" false) stats1 w1)
    as (stats2 & H); [reflexivity| | |exact Hscan|].
  - vm_compute. repeat constructor; cbn; intuition discriminate.
  - vm_compute. repeat constructor; cbn; intuition discriminate.
  - exists stats2. split; [reflexivity|exact H].
Defined.

End ScanMoreFacts.
